(** * rxfs: a local static-file HTTP server

    A shallow embedding of [src/util/rxfs.js]: configuration validation
    ([Config]), request path resolution ([R]), the request dispatcher
    ([RXFS.handle] with [sendStatus], [sendFile], [sendDir]) and the
    directory listing renderer ([formatBytes], [dirview]).

    Conventions of the embedding.
    - A JavaScript string is a [string]: the sequence of bytes of its UTF-8
      encoding (the encoding under which Node hands a path to the file
      system).  Every character the code inspects (slash, percent sign, hex
      digits, dot) is a single byte in that encoding.
    - A JavaScript object used as a dictionary is a [gmap string _] of its own
      properties; a property read also consults [Object.prototype], as the
      language does.  An array in that place is given by its elements under
      their indices; a read on it also finds its [length] and what
      [Array.prototype] holds.
    - Effects are explicit: the file system is a record of oracles
      ([FileSystem]), and a handler is a function to a trace of [Event]s and
      either a thrown exception or a value. *)

From Stdlib Require Import String Ascii NArith ZArith List Lia Bool.
From stdpp Require Import base option gmap strings pretty list.

Set Warnings "-register-all".

Local Open Scope string_scope.

Module Js.

(** ** String primitives of the language *)

(** One double-quote character (used by the HTML templates). *)
Definition dq : string := String (ascii_of_nat 34) EmptyString.
(** A line break inside a template literal. *)
Definition nl : string := String (ascii_of_nat 10) EmptyString.

(** [p] is a prefix of [s]. *)
Fixpoint prefix (p s : string) : bool :=
  match p with
  | EmptyString => true
  | String a p' =>
      match s with
      | String b s' => Ascii.eqb a b && prefix p' s'
      | EmptyString => false
      end
  end.

(** [s.startsWith(p)] *)
Definition startsWith (s p : string) : bool := prefix p s.

(** [s.slice(n)] for [0 <= n]. *)
Fixpoint slice (n : nat) (s : string) : string :=
  match n, s with
  | O, _ => s
  | S n', String _ t => slice n' t
  | S _, EmptyString => EmptyString
  end.

(** A string is truthy when it is not empty. *)
Definition truthy (s : string) : bool :=
  match s with EmptyString => false | String _ _ => true end.

(** [s.replace(pat, '')] with a string pattern: the first (leftmost)
    occurrence of [pat] is removed; without an occurrence [s] is unchanged. *)
Fixpoint remove_first (pat s : string) : string :=
  if prefix pat s then slice (String.length pat) s
  else match s with
       | EmptyString => EmptyString
       | String c t => String c (remove_first pat t)
       end.

(** [s.replace(/\/{2,}/g, '/')]: every maximal run of two or more slashes
    becomes one slash.  A slash that is followed by a slash is dropped, so
    exactly the last slash of each run is kept (see [collapse_run]). *)
Fixpoint collapse_slashes (s : string) : string :=
  match s with
  | EmptyString => EmptyString
  | String c t =>
      match t with
      | String c' _ =>
          if (Ascii.eqb c "/" && Ascii.eqb c' "/")%bool then collapse_slashes t
          else String c (collapse_slashes t)
      | EmptyString => String c EmptyString
      end
  end.

(** [s.replace(/^\//g, '')]: the anchor matches at index 0 only. *)
Definition strip_leading_slash (s : string) : string :=
  match s with
  | String c t => if Ascii.eqb c "/" then t else s
  | EmptyString => EmptyString
  end.

(** [s.replace(/\/$/g, '')]: the anchor matches at the end of input only. *)
Fixpoint strip_trailing_slash (s : string) : string :=
  match s with
  | EmptyString => EmptyString
  | String c t =>
      match t with
      | EmptyString => if Ascii.eqb c "/" then EmptyString else s
      | String _ _ => String c (strip_trailing_slash t)
      end
  end.

(** [n.toString()] for a non-negative integer below 10^21. *)
Definition toString (n : N) : string := pretty n.

(** [s.padStart(3, '0')] *)
Definition padStart3 (s : string) : string :=
  match String.length s with
  | 0 => "000" +:+ s
  | 1 => "00" +:+ s
  | 2 => "0" +:+ s
  | _ => s
  end.

(** ** [decodeURIComponent]

    ECMA-262, Decode with an empty set of reserved characters.  A percent
    sign must be followed by two hex digits giving a byte [b]; a byte below
    128 is that character; otherwise the number [n] of leading one bits of
    [b] must be 2, 3 or 4, the next [n-1] character groups must be escapes
    too, and the [n] bytes must be a well-formed UTF-8 sequence.  Any
    violation throws [URIError], here [None]. *)

Definition hex_val (c : ascii) : option N :=
  let n := N_of_ascii c in
  if ((48 <=? n) && (n <=? 57))%N then Some (n - 48)%N
  else if ((97 <=? n) && (n <=? 102))%N then Some (n - 87)%N
  else if ((65 <=? n) && (n <=? 70))%N then Some (n - 55)%N
  else None.

Definition hex_byte (h l : ascii) : option N :=
  match hex_val h, hex_val l with
  | Some a, Some b => Some (16 * a + b)%N
  | _, _ => None
  end.

Definition in_range (lo hi b : N) : bool := ((lo <=? b) && (b <=? hi))%N.

(** Well-formed UTF-8 byte sequences (Unicode standard, table 3-7). *)
Definition utf8_valid2 (b0 b1 : N) : bool :=
  in_range 194 223 b0 && in_range 128 191 b1.

Definition utf8_valid3 (b0 b1 b2 : N) : bool :=
  (if (b0 =? 224)%N then in_range 160 191 b1
   else if (b0 =? 237)%N then in_range 128 159 b1
   else in_range 225 239 b0 && in_range 128 191 b1)
  && in_range 128 191 b2.

Definition utf8_valid4 (b0 b1 b2 b3 : N) : bool :=
  (if (b0 =? 240)%N then in_range 144 191 b1
   else if (b0 =? 244)%N then in_range 128 143 b1
   else in_range 241 243 b0 && in_range 128 191 b1)
  && in_range 128 191 b2 && in_range 128 191 b3.

Definition byte (b : N) : ascii := ascii_of_N b.

Fixpoint decodeURIComponent (s : string) : option string :=
  match s with
  | EmptyString => Some EmptyString
  | String c t =>
    if negb (Ascii.eqb c "%") then String c <$> decodeURIComponent t
    else
      match t with
      | String h1 (String l1 t1) =>
        match hex_byte h1 l1 with
        | None => None
        | Some b0 =>
          if (b0 <? 128)%N then String (byte b0) <$> decodeURIComponent t1
          else if in_range 192 223 b0 then
            match t1 with
            | String p1 (String h2 (String l2 t2)) =>
              match hex_byte h2 l2 with
              | Some b1 =>
                if Ascii.eqb p1 "%" && utf8_valid2 b0 b1
                then (fun r => String (byte b0) (String (byte b1) r))
                       <$> decodeURIComponent t2
                else None
              | None => None
              end
            | _ => None
            end
          else if in_range 224 239 b0 then
            match t1 with
            | String p1 (String h2 (String l2
                (String p2 (String h3 (String l3 t3))))) =>
              match hex_byte h2 l2, hex_byte h3 l3 with
              | Some b1, Some b2 =>
                if Ascii.eqb p1 "%" && Ascii.eqb p2 "%" && utf8_valid3 b0 b1 b2
                then (fun r => String (byte b0) (String (byte b1)
                                 (String (byte b2) r)))
                       <$> decodeURIComponent t3
                else None
              | _, _ => None
              end
            | _ => None
            end
          else if in_range 240 247 b0 then
            match t1 with
            | String p1 (String h2 (String l2
                (String p2 (String h3 (String l3
                  (String p3 (String h4 (String l4 t4)))))))) =>
              match hex_byte h2 l2, hex_byte h3 l3, hex_byte h4 l4 with
              | Some b1, Some b2, Some b3 =>
                if Ascii.eqb p1 "%" && Ascii.eqb p2 "%" && Ascii.eqb p3 "%"
                   && utf8_valid4 b0 b1 b2 b3
                then (fun r => String (byte b0) (String (byte b1)
                                 (String (byte b2) (String (byte b3) r))))
                       <$> decodeURIComponent t4
                else None
              | _, _, _ => None
              end
            | _ => None
            end
          else None
        end
      | _ => None
      end
  end.

End Js.


(** ** Values of the language, as far as a configuration object holds them

    The values of JSON, which a configuration file holds, with [undefined]
    and functions.  An object is given by its own properties in their
    enumeration order, an array by its elements. *)

(** A number is an integer or something [Number.isInteger] rejects (a
    fraction, [NaN], an infinity). *)
Inductive number :=
| Int (z : Z)
| NonInt.

Inductive value :=
| VUndefined
| VNull
| VBool (b : bool)
| VNumber (n : number)
| VString (s : string)
| VObject (props : list (string * value))
| VArray (items : list value)
| VFunction.

Definition typeof (v : value) : string :=
  match v with
  | VUndefined => "undefined"
  | VNull => "object"
  | VBool _ => "boolean"
  | VNumber _ => "number"
  | VString _ => "string"
  | VObject _ => "object"
  | VArray _ => "object"
  | VFunction => "function"
  end.

(** A value whose [typeof] is ["object"]. *)
Inductive object :=
| ONull
| OProps (props : list (string * value))
| OArray (items : list value).

(** What an object has besides its own enumerable properties: for an
    object literal what [Object.prototype] holds, for an array its [length]
    and what [Array.prototype] holds. *)
Inductive shape :=
| PlainShape
| ArrayShape (length : N).

(** ** Builtins of the runtime that the program calls

    Their results depend on the platform, the working directory, the locale
    and the time zone, so they are parameters of the model. *)
Record Runtime := {
  (** [path.resolve(p)] *)
  path_resolve : string -> string;
  (** [process.platform === 'win32'] *)
  win32 : bool;
  (** [path.parse(p).ext] *)
  path_ext : string -> string;
  (** [path.parse(p).dir] *)
  path_dir : string -> string;
  (** [s.toLowerCase()] *)
  toLowerCase : string -> string;
  (** [formatDate(d)]: the local-time rendering of an ISO timestamp by
      [xdDatetimeFormat(new Date(d), ...)] *)
  formatDate : string -> string
}.

(** * Config *)

Module Config.

(** What [new Config(opts)] can throw. *)
Inductive ConfigError :=
| UnrecognizedOption (key : string)
| TypeMismatch (key expected got : string)
| EmptyRoot
| InvalidPort (p : number)
| MutuallyExclusive
| ValuesMustBeStrings (prop : string)
| ValuesOfNull (prop : string).

(** The instance while the constructor runs: every field keeps the [typeof]
    of its default. *)
Record fields := Fields {
  f_root : string;
  f_port : number;
  f_baseurl : string;
  f_autoindex : bool;
  f_servedir : bool;
  f_headers : object;
  f_mimes : object;
  f_logfile : string;
  f_verbose : bool;
  f_debug : bool
}.

(** A validated configuration. *)
Record t := Make {
  root : string;
  port : Z;
  baseurl : string;
  autoindex : bool;
  servedir : bool;
  headers : gmap string string;
  mimes : gmap string string;
  (** [mimes] is kept as the object that was passed, not copied *)
  mimes_shape : shape;
  logfile : string;
  verbose : bool;
  debug : bool
}.

(** The class field initialisers. *)
Definition defaults : fields :=
  {| f_root := ".";
     f_port := Int 1234;
     f_baseurl := "/";
     f_autoindex := false;
     f_servedir := true;
     f_headers := OProps [("cache-control", VString "public, max-age=604800, immutable")];
     f_mimes := OProps [];
     f_logfile := EmptyString;
     f_verbose := true;
     f_debug := false |}.

Definition as_string (key : string) (v : value) : ConfigError + string :=
  match v with
  | VString s => inr s
  | _ => inl (TypeMismatch key "string" (typeof v))
  end.

Definition as_number (key : string) (v : value) : ConfigError + number :=
  match v with
  | VNumber n => inr n
  | _ => inl (TypeMismatch key "number" (typeof v))
  end.

Definition as_boolean (key : string) (v : value) : ConfigError + bool :=
  match v with
  | VBool b => inr b
  | _ => inl (TypeMismatch key "boolean" (typeof v))
  end.

Definition as_object (key : string) (v : value) : ConfigError + object :=
  match v with
  | VNull => inr ONull
  | VObject p => inr (OProps p)
  | VArray items => inr (OArray items)
  | _ => inl (TypeMismatch key "object" (typeof v))
  end.

Definition map_ok {E A B} (f : A -> B) (x : E + A) : E + B :=
  match x with inl e => inl e | inr a => inr (f a) end.

(** One round of the merging loop: [hasOwnProperty], the [typeof]
    comparison, and the assignment [this[key] = opts[key]]. *)
Definition assign (this : fields) (key : string) (v : value) : ConfigError + fields :=
  let '(Fields r p b a s h m l vb d) := this in
  if (key =? "root")%string then map_ok (fun x => Fields x p b a s h m l vb d) (as_string key v)
  else if (key =? "port")%string then map_ok (fun x => Fields r x b a s h m l vb d) (as_number key v)
  else if (key =? "baseurl")%string then map_ok (fun x => Fields r p x a s h m l vb d) (as_string key v)
  else if (key =? "autoindex")%string then map_ok (fun x => Fields r p b x s h m l vb d) (as_boolean key v)
  else if (key =? "servedir")%string then map_ok (fun x => Fields r p b a x h m l vb d) (as_boolean key v)
  else if (key =? "headers")%string then map_ok (fun x => Fields r p b a s x m l vb d) (as_object key v)
  else if (key =? "mimes")%string then map_ok (fun x => Fields r p b a s h x l vb d) (as_object key v)
  else if (key =? "logfile")%string then map_ok (fun x => Fields r p b a s h m x vb d) (as_string key v)
  else if (key =? "verbose")%string then map_ok (fun x => Fields r p b a s h m l x d) (as_boolean key v)
  else if (key =? "debug")%string then map_ok (fun x => Fields r p b a s h m l vb x) (as_boolean key v)
  else inl (UnrecognizedOption key).

(** [for (const key in opts) ...], in the enumeration order of [opts]. *)
Fixpoint merge (this : fields) (opts : list (string * value)) : ConfigError + fields :=
  match opts with
  | [] => inr this
  | (key, v) :: rest =>
      match assign this key v with
      | inl e => inl e
      | inr this' => merge this' rest
      end
  end.

(** [for (const val of Object.values(o)) if (typeof val !== 'string') throw]:
    the own properties when all of them are strings. *)
Fixpoint string_values (prop : string) (props : list (string * value))
  : ConfigError + list (string * string) :=
  match props with
  | [] => inr []
  | (k, VString s) :: rest => map_ok (cons (k, s)) (string_values prop rest)
  | _ :: _ => inl (ValuesMustBeStrings prop)
  end.

(** The own enumerable properties of an array: its elements under their
    indices. *)
Fixpoint indexed (i : N) (items : list value) : list (string * value) :=
  match items with
  | [] => []
  | v :: rest => (Js.toString i, v) :: indexed (i + 1) rest
  end.

Definition check_values (prop : string) (o : object) : ConfigError + gmap string string :=
  match o with
  | ONull => inl (ValuesOfNull prop)
  | OProps props => map_ok list_to_map (string_values prop props)
  | OArray items => map_ok list_to_map (string_values prop (indexed 0 items))
  end.

Definition shape_of (o : object) : shape :=
  match o with
  | OArray items => ArrayShape (N.of_nat (List.length items))
  | _ => PlainShape
  end.

(** [s.replace(/\\/g, '/')] *)
Fixpoint backslashes_to_slashes (s : string) : string :=
  match s with
  | EmptyString => EmptyString
  | String c t =>
      String (if Ascii.eqb c (ascii_of_nat 92) then "/"%char else c)
             (backslashes_to_slashes t)
  end.

(** The normal form of [baseurl]. *)
Definition normalize_baseurl (b : string) : string :=
  Js.strip_trailing_slash (Js.strip_leading_slash (Js.collapse_slashes b)).

Section Constructor.

Variable rt : Runtime.

(** [path.resolve(p)], with backslashes turned into slashes on win32. *)
Definition resolve (p : string) : string :=
  let p := path_resolve rt p in
  if win32 rt then backslashes_to_slashes p else p.

Definition constructor (opts : list (string * value)) : ConfigError + t :=
  match merge defaults opts with
  | inl e => inl e
  | inr this =>
    if negb (Js.truthy (f_root this)) then inl EmptyRoot
    else
      let root := resolve (f_root this) in
      let logfile := if Js.truthy (f_logfile this) then resolve (f_logfile this)
                     else f_logfile this in
      match f_port this with
      | NonInt => inl (InvalidPort NonInt)
      | Int p =>
        if ((p <? 1) || (p >? 65535))%Z then inl (InvalidPort (Int p))
        else
          let baseurl := normalize_baseurl (f_baseurl this) in
          if f_autoindex this && f_servedir this then inl MutuallyExclusive
          else
            match check_values "headers" (f_headers this) with
            | inl e => inl e
            | inr headers =>
              match check_values "mimes" (f_mimes this) with
              | inl e => inl e
              | inr mimes =>
                inr {| root := root; port := p; baseurl := baseurl;
                       autoindex := f_autoindex this;
                       servedir := f_servedir this;
                       headers := headers; mimes := mimes;
                       mimes_shape := shape_of (f_mimes this);
                       logfile := logfile;
                       verbose := f_verbose this; debug := f_debug this |}
              end
            end
      end
  end.

End Constructor.

End Config.

(** ** Property reads

    [o[k]] on an object created by a literal or by [JSON.parse] returns the
    own property [k] when there is one and otherwise what [Object.prototype]
    holds under [k]: a builtin function, or the prototype object itself for
    [__proto__]; [undefined] when neither has it.  On an array the own
    properties are the elements and [length], and [Array.prototype] stands
    before [Object.prototype]. *)

Inductive property :=
| Undefined
| Str (s : string)
| Num (n : N)
| Builtin (name : string).

Definition Object_prototype : list (string * property) :=
  [ ("constructor", Builtin "Object");
    ("__defineGetter__", Builtin "__defineGetter__");
    ("__defineSetter__", Builtin "__defineSetter__");
    ("hasOwnProperty", Builtin "hasOwnProperty");
    ("__lookupGetter__", Builtin "__lookupGetter__");
    ("__lookupSetter__", Builtin "__lookupSetter__");
    ("isPrototypeOf", Builtin "isPrototypeOf");
    ("propertyIsEnumerable", Builtin "propertyIsEnumerable");
    ("toString", Builtin "toString");
    ("valueOf", Builtin "valueOf");
    ("__proto__", Builtin "Object.prototype");
    ("toLocaleString", Builtin "toLocaleString") ].

Fixpoint assoc {A} (k : string) (l : list (string * A)) : option A :=
  match l with
  | [] => None
  | (k', v) :: rest => if (k' =? k)%string then Some v else assoc k rest
  end.

(** [o[k]] *)
Definition get (o : gmap string string) (k : string) : property :=
  match o !! k with
  | Some s => Str s
  | None =>
      match assoc k Object_prototype with
      | Some v => v
      | None => Undefined
      end
  end.

(** The properties of [Array.prototype] with a string name, as of
    ECMAScript 2023, other than [length], which every array has as its
    own. *)
Definition Array_prototype : list (string * property) :=
  [ ("at", Builtin "at");
    ("concat", Builtin "concat");
    ("constructor", Builtin "Array");
    ("copyWithin", Builtin "copyWithin");
    ("entries", Builtin "entries");
    ("every", Builtin "every");
    ("fill", Builtin "fill");
    ("filter", Builtin "filter");
    ("find", Builtin "find");
    ("findIndex", Builtin "findIndex");
    ("findLast", Builtin "findLast");
    ("findLastIndex", Builtin "findLastIndex");
    ("flat", Builtin "flat");
    ("flatMap", Builtin "flatMap");
    ("forEach", Builtin "forEach");
    ("includes", Builtin "includes");
    ("indexOf", Builtin "indexOf");
    ("join", Builtin "join");
    ("keys", Builtin "keys");
    ("lastIndexOf", Builtin "lastIndexOf");
    ("map", Builtin "map");
    ("pop", Builtin "pop");
    ("push", Builtin "push");
    ("reduce", Builtin "reduce");
    ("reduceRight", Builtin "reduceRight");
    ("reverse", Builtin "reverse");
    ("shift", Builtin "shift");
    ("slice", Builtin "slice");
    ("some", Builtin "some");
    ("sort", Builtin "sort");
    ("splice", Builtin "splice");
    ("toLocaleString", Builtin "Array.prototype.toLocaleString");
    ("toReversed", Builtin "toReversed");
    ("toSorted", Builtin "toSorted");
    ("toSpliced", Builtin "toSpliced");
    ("toString", Builtin "Array.prototype.toString");
    ("unshift", Builtin "unshift");
    ("values", Builtin "values");
    ("with", Builtin "with");
    ("__proto__", Builtin "Array.prototype") ].

(** [a[k]] on an array of [length] elements, all strings, given by its
    elements under their indices. *)
Definition get_array (elements : gmap string string) (length : N) (k : string)
  : property :=
  match elements !! k with
  | Some s => Str s
  | None =>
      if (k =? "length")%string then Num length
      else match assoc k Array_prototype with
           | Some v => v
           | None =>
               match assoc k Object_prototype with
               | Some v => v
               | None => Undefined
               end
           end
  end.

(** [o[k]] on an object given by its own enumerable properties and its
    shape. *)
Definition read (o : gmap string string) (s : shape) (k : string) : property :=
  match s with
  | PlainShape => get o k
  | ArrayShape length => get_array o length k
  end.

Definition property_truthy (v : property) : bool :=
  match v with
  | Undefined => false
  | Str s => Js.truthy s
  | Num n => negb (n =? 0)%N
  | Builtin _ => true
  end.

(** [a || b] *)
Definition or_else (a b : property) : property :=
  if property_truthy a then a else b.

(** ** The built-in extension table *)

Definition mimes_literal : list (string * string) :=
  [ ("3gp", "video/3gpp");
    ("3gpp", "video/3gpp");
    ("7z", "application/x-7z-compressed");
    ("ai", "application/postscript");
    ("asf", "video/x-ms-asf");
    ("asx", "video/x-ms-asf");
    ("atom", "application/atom+xml");
    ("avi", "video/x-msvideo");
    ("bin", "application/octet-stream");
    ("bmp", "image/x-ms-bmp");
    ("cco", "application/x-cocoa");
    ("crt", "application/x-x509-ca-cert");
    ("css", "text/css");
    ("deb", "application/octet-stream");
    ("der", "application/x-x509-ca-cert");
    ("dll", "application/octet-stream");
    ("dmg", "application/octet-stream");
    ("doc", "application/msword");
    ("docx", "application/vnd.openxmlformats-officedocument.wordprocessingml.document");
    ("ear", "application/java-archive");
    ("eot", "application/vnd.ms-fontobject");
    ("eps", "application/postscript");
    ("exe", "application/octet-stream");
    ("flv", "video/x-flv");
    ("gif", "image/gif");
    ("hqx", "application/mac-binhex40");
    ("htc", "text/x-component");
    ("htm", "text/html");
    ("html", "text/html");
    ("ico", "image/x-icon");
    ("img", "application/octet-stream");
    ("iso", "application/octet-stream");
    ("jad", "text/vnd.sun.j2me.app-descriptor");
    ("jar", "application/java-archive");
    ("jardiff", "application/x-java-archive-diff");
    ("jng", "image/x-jng");
    ("jnlp", "application/x-java-jnlp-file");
    ("jpeg", "image/jpeg");
    ("jpg", "image/jpeg");
    ("js", "application/javascript");
    ("json", "application/json");
    ("kar", "audio/midi");
    ("kml", "application/vnd.google-earth.kml+xml");
    ("kmz", "application/vnd.google-earth.kmz");
    ("m3u8", "application/vnd.apple.mpegurl");
    ("m4a", "audio/x-m4a");
    ("m4v", "video/x-m4v");
    ("mid", "audio/midi");
    ("midi", "audio/midi");
    ("mml", "text/mathml");
    ("mng", "video/x-mng");
    ("mov", "video/quicktime");
    ("mp3", "audio/mpeg");
    ("mp4", "video/mp4");
    ("mpeg", "video/mpeg");
    ("mpg", "video/mpeg");
    ("msi", "application/octet-stream");
    ("msm", "application/octet-stream");
    ("msp", "application/octet-stream");
    ("ogg", "audio/ogg");
    ("pdb", "application/x-pilot");
    ("pdf", "application/pdf");
    ("pem", "application/x-x509-ca-cert");
    ("pl", "application/x-perl");
    ("pm", "application/x-perl");
    ("png", "image/png");
    ("ppt", "application/vnd.ms-powerpoint");
    ("pptx", "application/vnd.openxmlformats-officedocument.presentationml.presentation");
    ("prc", "application/x-pilot");
    ("ps", "application/postscript");
    ("ra", "audio/x-realaudio");
    ("rar", "application/x-rar-compressed");
    ("rpm", "application/x-redhat-package-manager");
    ("rss", "application/rss+xml");
    ("rtf", "application/rtf");
    ("run", "application/x-makeself");
    ("sea", "application/x-sea");
    ("shtml", "text/html");
    ("sit", "application/x-stuffit");
    ("svg", "image/svg+xml");
    ("svgz", "image/svg+xml");
    ("swf", "application/x-shockwave-flash");
    ("tcl", "application/x-tcl");
    ("tif", "image/tiff");
    ("tiff", "image/tiff");
    ("tk", "application/x-tcl");
    ("ts", "video/mp2t");
    ("txt", "text/plain");
    ("war", "application/java-archive");
    ("wbmp", "image/vnd.wap.wbmp");
    ("webm", "video/webm");
    ("webp", "image/webp");
    ("wml", "text/vnd.wap.wml");
    ("wmlc", "application/vnd.wap.wmlc");
    ("wmv", "video/x-ms-wmv");
    ("woff", "application/font-woff");
    ("xhtml", "application/xhtml+xml");
    ("xls", "application/vnd.ms-excel");
    ("xlsx", "application/vnd.openxmlformats-officedocument.spreadsheetml.sheet");
    ("xml", "text/xml");
    ("xpi", "application/x-xpinstall");
    ("xspf", "application/xspf+xml");
    ("zip", "application/zip") ].

(** [const mimes = {...}] followed by the two assignments
    [mimes['js'] = ...] and [mimes['log'] = ...]. *)
Definition mimes : gmap string string :=
  <["log" := "text/plain"]>
    (<["js" := "text/javascript"]> (list_to_map mimes_literal)).

(** * The file system and the effects of a handler *)

(** What a failing [fs] call throws: [err.code], [err.message] and the
    rendering [String(err)]. *)
Record FsError := {
  code : string;
  message : string;
  text : string
}.

Inductive Kind := File | Directory | Other.

Definition isFile (k : Kind) : bool :=
  match k with File => true | _ => false end.
Definition isDirectory (k : Kind) : bool :=
  match k with Directory => true | _ => false end.

(** [fs.Stats]: the kind, [size] and [ctime.toISOString()]. *)
Record Stats := {
  stat_kind : Kind;
  stat_size : N;
  stat_ctime : string
}.

(** [fs.Dirent]: [name] and the kind recorded in the directory. *)
Record Dirent := {
  dirent_name : string;
  dirent_kind : Kind
}.

(** The state of the file system as the server observes it.  Each oracle
    answers one call; a failure is the error the call throws. *)
Record FileSystem := {
  (** the access check behind [fs.existsSync]: [None] when the path can be
      reached *)
  fs_access : string -> option FsError;
  fs_stat : string -> FsError + Stats;
  fs_readdir : string -> FsError + list Dirent;
  (** [fs.createReadStream]: the chunks delivered, then [end] ([None]) or
      [error] *)
  fs_read : string -> list string * option FsError;
  (** [fs.mkdirSync(p, { recursive: true })]: [None] when the directory
      exists afterwards *)
  fs_mkdir : string -> option FsError
}.

(** What is thrown. *)
Inductive Exception :=
| FsException (e : FsError)
| ConfigException (e : Config.ConfigError)
| ErrorException (msg : string).

Definition exn_code (e : Exception) : string :=
  match e with
  | FsException e => code e
  | _ => EmptyString
  end.

Definition exn_message (e : Exception) : string :=
  match e with
  | FsException e => message e
  | ConfigException _ => "config"
  | ErrorException m => m
  end.

(** The observable steps of the server: calls of [this.log] and
    [this.debug] (the sinks and the time stamps are outside the model),
    file system calls, and writes to the response. *)
Inductive Event :=
| Log (msg : string)
| Debug (msg : string)
| DebugConfig (c : Config.t)
| DebugError (e : FsError)
| ExistsSync (path : string)
| StatSync (path : string)
| ReaddirSync (path : string)
| MkdirSync (path : string)
| CreateLog (path : string)
| CreateReadStream (path : string)
| Listen (port : Z)
| WriteHead (status : N) (headers : gmap string property)
| Write (chunk : string)
| End_ (body : option string).

(** A computation: the events it performed, in order, and its result or
    the exception that ended it. *)
Definition M (A : Type) : Type := list Event * (Exception + A).

Definition ret {A} (a : A) : M A := ([], inr a).

Definition throw {A} (e : Exception) : M A := ([], inl e).

Definition emit (ev : Event) : M unit := ([ev], inr tt).

Definition bind {A B} (m : M A) (k : A -> M B) : M B :=
  match m with
  | (tr, inl e) => (tr, inl e)
  | (tr, inr a) => let '(tr', r) := k a in ((tr ++ tr')%list, r)
  end.

(** [try { m } catch (err) { h err }] *)
Definition catch {A} (m : M A) (h : Exception -> M A) : M A :=
  match m with
  | (tr, inl e) => let '(tr', r) := h e in ((tr ++ tr')%list, r)
  | (tr, inr a) => (tr, inr a)
  end.

Declare Scope js_scope.
Delimit Scope js_scope with js.
Notation "x <- m ;; k" := (bind m (fun x => k))
  (at level 20, m at level 99, k at level 200, only parsing) : js_scope.
Notation "m ;; k" := (bind m (fun _ => k))
  (at level 100, k at level 200, only parsing, right associativity) : js_scope.

Local Open Scope js_scope.

(** [for (const x of xs) acc = step acc x], stopping at a throw. *)
Fixpoint foldM {A B} (step : A -> B -> M A) (acc : A) (xs : list B) : M A :=
  match xs with
  | [] => ret acc
  | x :: rest => acc' <- step acc x ;; foldM step acc' rest
  end.

Definition trace {A} (m : M A) : list Event := fst m.
Definition outcome {A} (m : M A) : Exception + A := snd m.

Module Fs.

(** What [fs.existsSync(p)] returns: a failing access check is [false]. *)
Definition reachable (fs : FileSystem) (p : string) : bool :=
  match fs_access fs p with
  | None => true
  | Some _ => false
  end.

(** [fs.existsSync(p)]: it never throws. *)
Definition existsSync (fs : FileSystem) (p : string) : M bool :=
  emit (ExistsSync p) ;;
  ret (reachable fs p).

Definition statSync (fs : FileSystem) (p : string) : M Stats :=
  emit (StatSync p) ;;
  match fs_stat fs p with
  | inl e => throw (FsException e)
  | inr s => ret s
  end.

Definition readdirSync (fs : FileSystem) (p : string) : M (list Dirent) :=
  emit (ReaddirSync p) ;;
  match fs_readdir fs p with
  | inl e => throw (FsException e)
  | inr l => ret l
  end.

End Fs.

(** * The directory listing *)

Module View.

Import Js.

Definition unlines (l : list string) : string := String.concat nl l.

(** [(num / den).toFixed(2)] for [den > 0] and a quotient below 10^21:
    the integer [n] nearest to [100 * num / den], the larger one at a tie,
    printed with its last two digits after the point. *)
Definition toFixed2 (num den : N) : string :=
  let n := ((200 * num + den) / (2 * den))%N in
  toString (n / 100) +:+ "." +:+
  toString (n mod 100 / 10) +:+ toString (n mod 10).

(** [s.split('/')] *)
Fixpoint split (s : string) : list string :=
  match s with
  | EmptyString => [EmptyString]
  | String c t =>
      if Ascii.eqb c "/" then EmptyString :: split t
      else match split t with
           | h :: r => String c h :: r
           | [] => [String c EmptyString]
           end
  end.

(** [l.join('/')] *)
Definition join (l : list string) : string := String.concat "/" l.

(** [s.lastIndexOf('/')], [None] for -1. *)
Fixpoint lastIndexOf_slash (s : string) : option nat :=
  match s with
  | EmptyString => None
  | String c t =>
      match lastIndexOf_slash t with
      | Some i => Some (S i)
      | None => if Ascii.eqb c "/" then Some 0 else None
      end
  end.

End View.

Import Js View.

Definition formatBytes (b : N) : string :=
  if (b <? 1024)%N then toString b +:+ " B"
  else if (b <? 1024 * 1024)%N then toFixed2 b 1024 +:+ " K"
  else if (b <? 1024 * 1024 * 1024)%N then toFixed2 b (1024 * 1024) +:+ " M"
  else toFixed2 b (1024 * 1024 * 1024) +:+ " G".

(** The [size] of a directory item: the number of its children or ['N/A']. *)
Inductive DirSize :=
| Count (n : nat)
| NA.

(** The items [sendDir] collects: [type] is ['file'], ['dir'] or ['etc']. *)
Inductive Item :=
| ItemFile (name : string) (size : N) (time : string)
| ItemDir (name : string) (size : DirSize) (time : string)
| ItemEtc (name : string).

Definition item_name (i : Item) : string :=
  match i with
  | ItemFile n _ _ => n
  | ItemDir n _ _ => n
  | ItemEtc n => n
  end.

Definition style : string :=
  unlines
    [ "        * {";
      "            margin: 0;";
      "            padding: 0;";
      "            box-sizing: border-box;";
      "        }";
      "        ";
      "        body {";
      "            background-color: #ededed;";
      "            font-family: monospace;";
      "            font-size: 1.25em;";
      "        }";
      "        ";
      "        .main {";
      "            display: flex;";
      "            flex-flow: column nowrap;";
      "            max-width: 1280px;";
      "            margin: 0 auto;";
      "        }";
      "        ";
      "        a {";
      "            text-decoration: none;";
      "            color: rgb(50, 50, 50);";
      "        }";
      "        ";
      "        hr {";
      "            margin: 0 0 15px 0;";
      "            height: 1px;";
      "            color: rgba(129,129,129,0.5);";
      "        }";
      "        ";
      "        .breadcrumbs {";
      "            margin: 15px 0;";
      "            line-height: 20px;";
      "        }";
      "        ";
      "        .breadcrumbs a, .breadcrumbs span {";
      "            color: rgba(129,129,129,0.5);";
      "        }";
      "        ";
      "        .breadcrumbs a:hover, .breadcrumbs a:last-child {";
      "            color: rgb(50, 50, 50);";
      "        }";
      "        ";
      "        table {";
      "            /*border: 1px solid #333;*/";
      "            width: 100%;";
      "            max-width: 1280px;";
      "            border-spacing: 0;";
      "            margin-bottom: 50px;";
      "        }";
      "        ";
      "        tr {";
      "            /*border-top: 1px solid #333;*/";
      "        }";
      "        ";
      "        tr:nth-child(even) {";
      "            background-color: #e5e5e5;";
      "        }";
      "        ";
      "        tr:hover {";
      "            background-color: #fff;";
      "        }";
      "        ";
      "        td {";
      "            text-align: left;";
      "            padding: 0;";
      "            white-space:nowrap;";
      "        }";
      "        ";
      "        td:first-child {";
      "            width: 100%;";
      "        }";
      "        ";
      "        td:nth-child(2n) {";
      "            padding-right: 15px;";
      "            text-align: right;";
      "        }";
      "        ";
      "        td:nth-child(3n) {";
      "            text-align: right;";
      "        }";
      "        ";
      "        td a {";
      "            display: block;";
      "            width: 100%;";
      "            /*padding-right: 50px;*/";
      "        }";
      "        ";
      "        .bold {";
      "            font-weight: bold;";
      "        }";
      "        ";
      "        .gray {";
      "            color: rgba(129,129,129,0.5);";
      "        }" ].


Section Dirview.

Variable rt : Runtime.

Let formatDate := formatDate rt.

(** The row of a directory whose children could be counted. *)
Definition dir_row (href name size time : string) : string :=
  unlines
    [ EmptyString;
      "                <tr>";
      "                    <td class=" +:+ dq +:+ "bold" +:+ dq +:+ ">";
      "                        <a href=" +:+ dq +:+ href +:+ dq +:+ ">" +:+ name +:+ "</a>";
      "                    </td>";
      "                    <td class=" +:+ dq +:+ "bold" +:+ dq +:+ ">";
      "                        <a href=" +:+ dq +:+ href +:+ dq +:+ ">" +:+ size +:+ "</a>";
      "                    </td>";
      "                    <td class=" +:+ dq +:+ "bold" +:+ dq +:+ ">";
      "                        <a href=" +:+ dq +:+ href +:+ dq +:+ ">" +:+ formatDate time +:+ "</a>";
      "                    </td>";
      "                </tr>" ].

(** The row of a directory whose children could not be listed. *)
Definition dir_row_gray (name size time : string) : string :=
  unlines
    [ EmptyString;
      "                <tr>";
      "                    <td class=" +:+ dq +:+ "bold gray" +:+ dq +:+ ">";
      "                        " +:+ name;
      "                    </td>";
      "                    <td class=" +:+ dq +:+ "bold gray" +:+ dq +:+ ">";
      "                        " +:+ size;
      "                    </td>";
      "                    <td class=" +:+ dq +:+ "bold gray" +:+ dq +:+ ">";
      "                        " +:+ formatDate time;
      "                    </td>";
      "                </tr>" ].

Definition file_row (href name : string) (size : N) (time : string) : string :=
  unlines
    [ EmptyString;
      "            <tr>";
      "                <td class=" +:+ dq +:+ "name" +:+ dq +:+ ">";
      "                    <a class=" +:+ dq +:+ "file" +:+ dq +:+ " href=" +:+ dq +:+ href +:+ dq +:+ ">" +:+ name +:+ "</a>";
      "                </td>";
      "                <td>";
      "                    <a class=" +:+ dq +:+ "file" +:+ dq +:+ " href=" +:+ dq +:+ href +:+ dq +:+ ">" +:+ formatBytes size +:+ "</a>";
      "                </td>";
      "                <td class=" +:+ dq +:+ "date" +:+ dq +:+ ">";
      "                    <a class=" +:+ dq +:+ "file date" +:+ dq +:+ " href=" +:+ dq +:+ href +:+ dq +:+ ">" +:+ formatDate time;
      "                </td>";
      "            </tr>" ].

Definition up_row (href : string) : string :=
  "<tr><td colspan=" +:+ dq +:+ "3" +:+ dq +:+ " class=" +:+ dq +:+ "name" +:+ dq +:+
  "><a href=" +:+ dq +:+ href +:+ dq +:+ ">..</a></td></tr>".

(** The three accumulators of the loop over the items. *)
Record Rows := {
  dirs : string;
  files : string;
  etc : string
}.

(** One round of [for (const item of items)]. *)
Definition add_item (base relpath : string) (acc : Rows) (item : Item) : Rows :=
  let href := base +:+ (if truthy relpath
                        then "/" +:+ relpath +:+ "/" +:+ item_name item
                        else "/" +:+ item_name item) in
  match item with
  | ItemDir name (Count n) time =>
      {| dirs := dirs acc +:+ dir_row href name (toString (N.of_nat n)) time;
         files := files acc; etc := etc acc |}
  | ItemDir name NA time =>
      {| dirs := dirs acc +:+ dir_row_gray name "N/A" time;
         files := files acc; etc := etc acc |}
  | ItemFile name size time =>
      {| dirs := dirs acc;
         files := files acc +:+ file_row href name size time;
         etc := etc acc |}
  | ItemEtc _ => acc
  end.

Definition rows (base relpath : string) (items : list Item) : Rows :=
  fold_left (add_item base relpath) items
    {| dirs := EmptyString; files := EmptyString; etc := EmptyString |}.

Definition base_url (config : Config.t) : string :=
  if truthy (Config.baseurl config)
  then "http://localhost:" +:+ toString (Z.to_N (Config.port config)) +:+ "/" +:+
       Config.baseurl config
  else "http://localhost:" +:+ toString (Z.to_N (Config.port config)).

Definition anchor (href text : string) : string :=
  "<a href=" +:+ dq +:+ href +:+ dq +:+ ">" +:+ text +:+ "</a>".

(** The links of the path components: the loop over [split]. *)
Fixpoint crumbs (root base : string) (parts : list string) (i : nat) (segs : list string)
  : string :=
  match segs with
  | [] => EmptyString
  | seg :: rest =>
      let href := base +:+ "/" +:+ join (firstn (S i) parts) in
      let text := if ((root =? "/")%string && Nat.eqb i 0)%bool then seg
                  else "/" +:+ seg in
      anchor href text +:+ crumbs root base parts (S i) rest
  end.

Definition breadcrumbs (root base relpath : string) : string :=
  "<div class=" +:+ dq +:+ "breadcrumbs" +:+ dq +:+ ">" +:+
  anchor base root +:+
  (if truthy relpath
   then crumbs root base (split relpath) 0 (split relpath)
   else EmptyString) +:+
  "</div>".

(** The parent link: empty at the listing root. *)
Definition up (base relpath : string) : string :=
  if truthy relpath then
    up_row (base +:+ match lastIndexOf_slash relpath with
                     | Some i => "/" +:+ String.substring 0 i relpath
                     | None => EmptyString
                     end)
  else EmptyString.

Definition page (relpath breadcrumbs up dirs files etc : string) : string :=
  unlines
    [ "<!DOCTYPE html>";
      "<html lang=" +:+ dq +:+ "en" +:+ dq +:+ ">";
      "<head>";
      "    <meta charset=" +:+ dq +:+ "UTF-8" +:+ dq +:+ ">";
      "    <meta name=" +:+ dq +:+ "viewport" +:+ dq +:+ " content=" +:+ dq +:+ "width=device-width, initial-scale=1" +:+ dq +:+ ">";
      "    <title>" +:+ (if truthy relpath then relpath else "/") +:+ "</title>";
      "    <style>";
      style;
      "    </style>";
      "</head>";
      "<body>";
      EmptyString;
      "    <div class=" +:+ dq +:+ "main" +:+ dq +:+ ">";
      "        " +:+ breadcrumbs;
      "        <hr>";
      "        <table>";
      "            <tbody>";
      "                " +:+ up;
      "                " +:+ dirs;
      "                " +:+ files;
      "                " +:+ etc;
      "            </tbody>";
      "        </table>   ";
      "    </div>";
      "     ";
      "</body>";
      "</html>" ].

Definition dirview (config : Config.t) (relpath : string) (items : list Item) : string :=
  let root := Config.root config in
  let base := base_url config in
  let r := rows base relpath items in
  page relpath (breadcrumbs root base relpath) (up base relpath)
       (dirs r) (files r) (etc r).

End Dirview.

(** * R: the per-request context *)

Record Request := {
  method : string;
  url : string
}.

Local Open Scope js_scope.

Module R.

Record t := Make {
  id : string;
  req : Request;
  headers : gmap string property;
  (** relative path of the item in [config.root]; no leading or trailing
      slashes *)
  rel : string;
  (** absolute path of the item *)
  abs : string
}.

(** The URL the resolver works on: the decoded one, or the raw one when
    decoding throws. *)
Definition decoded (url : string) : string :=
  match decodeURIComponent url with
  | Some u => u
  | None => url
  end.

(** [url.replace(baseurl, '').replace(/\/{2,}/g, '/').replace(/^\//g, '')
        .replace(/\/$/g, '')] *)
Definition relative (baseurl url : string) : string :=
  strip_trailing_slash
    (strip_leading_slash (collapse_slashes (remove_first baseurl url))).

(** [rel ? `${root}/${rel}` : root], then the leading slash of a result
    that starts with two is dropped. *)
Definition absolute (root rel : string) : string :=
  let abs := if truthy rel then root +:+ "/" +:+ rel else root in
  if startsWith abs "//" then slice 1 abs else abs.

(** [this.headers = {}], then [this.headers[key] = config.headers[key]] for
    every key of the configured headers.  The assignment under
    [__proto__] goes to the setter every object inherits, which ignores a
    string: that key is not copied. *)
Definition copied (headers : gmap string string) : gmap string property :=
  Str <$> delete "__proto__" headers.

Definition constructor (fs : FileSystem) (config : Config.t) (req : Request)
    (id : string) : M t :=
  let headers := copied (Config.headers config) in
  let url := decoded (url req) in
  let rel := relative (Config.baseurl config) url in
  let abs := absolute (Config.root config) rel in
  index <- (if Config.autoindex config
            then Fs.existsSync fs (abs +:+ "/index.html")
            else ret false) ;;
  if index : bool then
    ret {| id := id; req := req; headers := headers;
           rel := if truthy rel then rel +:+ "/index.html" else "index.html";
           abs := abs +:+ "/index.html" |}
  else
    ret {| id := id; req := req; headers := headers; rel := rel; abs := abs |}.

End R.

(** * RXFS: the server *)

Module RXFS.

Record t := Make {
  config : Config.t;
  reqcount : N
}.

(** [this.reqcount++] on a number: exact up to 2^53, where adding one
    rounds back to 2^53. *)
Definition increment (c : N) : N :=
  if (c <? 2 ^ 53)%N then (c + 1)%N else c.

Section Server.

Variable rt : Runtime.
Variable fs : FileSystem.

(** [new RXFS(opts)].  Of the two calls that set up the log file only
    [mkdirSync] can throw: [createWriteStream] returns a stream and opens
    the file later, so that a file that cannot be opened is reported after
    the constructor has returned. *)
Definition constructor (opts : list (string * value)) : M t :=
  match Config.constructor rt opts with
  | inl e => throw (ConfigException e)
  | inr config =>
    emit (DebugConfig config) ;;
    root_exists <- Fs.existsSync fs (Config.root config) ;;
    if negb root_exists
    then throw (ErrorException ("no such directory: " +:+ Config.root config))
    else
      stats <- Fs.statSync fs (Config.root config) ;;
      if negb (isDirectory (stat_kind stats))
      then throw (ErrorException ("not a directory: " +:+ Config.root config))
      else
        (if truthy (Config.logfile config) then
           let dir := path_dir rt (Config.logfile config) in
           emit (MkdirSync dir) ;;
           match fs_mkdir fs dir with
           | Some err =>
               throw (ErrorException
                        ("failed to create log file: " +:+ Config.logfile config
                         +:+ ": " +:+ (if truthy (message err) then message err
                                       else text err)))
           | None => emit (CreateLog (Config.logfile config))
           end
         else ret tt) ;;
        emit (Listen (Config.port config)) ;;
        emit (Log ("dir: " +:+ Config.root config)) ;;
        emit (Log ("url: http://localhost:"
                   +:+ toString (Z.to_N (Config.port config))
                   +:+ (if (Config.baseurl config =? "/")%string then EmptyString
                        else "/" +:+ Config.baseurl config))) ;;
        ret {| config := config; reqcount := 0 |}
  end.

Definition sendStatus (r : R.t) (status : N) (msg : string) : M unit :=
  emit (Log ("RES #" +:+ R.id r +:+ " [status] " +:+ toString status
             +:+ " " +:+ msg)) ;;
  emit (WriteHead status (<["content-type" := Str "text/plain"]> (R.headers r))) ;;
  emit (End_ (Some (toString status +:+ " : " +:+ msg))).

(** The value [sendFile] stores under [content-type]. *)
Definition content_type (config : Config.t) (ext : string) : property :=
  or_else (or_else (read (Config.mimes config) (Config.mimes_shape config) ext)
                   (get mimes ext))
          (Str "application/octet-stream").

(** The stream callbacks of [sendFile]: [data] for every chunk, then
    [error] or [end]. *)
Definition stream (r : R.t) (chunks : list string) (fin : option FsError) : M unit :=
  foldM (fun _ chunk => emit (Write chunk)) tt chunks ;;
  match fin with
  | Some err =>
      emit (End_ None) ;;
      emit (DebugError err) ;;
      emit (Log ("RES #" +:+ R.id r +:+ " [file] error: "
                 +:+ (if truthy (message err) then message err else text err)))
  | None =>
      emit (End_ None) ;;
      emit (Log ("RES #" +:+ R.id r +:+ " [file] OK"))
  end.

Definition sendFile (this : t) (r : R.t) : M unit :=
  let ext := toLowerCase rt (slice 1 (path_ext rt (R.abs r))) in
  emit (WriteHead 200 (<["content-type" := content_type (config this) ext]>
                         (R.headers r))) ;;
  emit (CreateReadStream (R.abs r)) ;;
  let '(chunks, fin) := fs_read fs (R.abs r) in
  stream r chunks fin.

(** One round of the loop over the directory entries. *)
Definition collect (dir : string) (items : list Item) (dirent : Dirent)
  : M (list Item) :=
  let name := dirent_name dirent in
  if isFile (dirent_kind dirent) || isDirectory (dirent_kind dirent) then
    stat <- Fs.statSync fs (dir +:+ "/" +:+ name) ;;
    if isFile (dirent_kind dirent) then
      ret (items ++ [ItemFile name (stat_size stat) (stat_ctime stat)])%list
    else if isDirectory (dirent_kind dirent) then
      size <- catch (children <- Fs.readdirSync fs (dir +:+ "/" +:+ name) ;;
                     ret (Count (List.length children)))
                    (fun _ => ret NA) ;;
      ret (items ++ [ItemDir name size (stat_ctime stat)])%list
    else ret items
  else
    ret (items ++ [ItemEtc name])%list.

Definition sendDir (this : t) (r : R.t) : M unit :=
  dirents <- Fs.readdirSync fs (R.abs r) ;;
  items <- foldM (collect (R.abs r)) [] dirents ;;
  emit (WriteHead 200 (<["content-type" := Str "text/html"]> (R.headers r))) ;;
  emit (End_ (Some (dirview rt (config this) (R.rel r) items))) ;;
  emit (Log ("RES #" +:+ R.id r +:+ " [dir] OK")).

(** The request listener after the counter has been read. *)
Definition respond (this : t) (req : Request) (id : string) : M unit :=
  emit (Log ("REQ #" +:+ id +:+ " " +:+ method req +:+ " " +:+ url req)) ;;
  r <- R.constructor fs (config this) req id ;;
  emit (Debug ("url: " +:+ url (R.req r) +:+ nl +:+ "rel: " +:+ R.rel r +:+ nl
               +:+ "abs: " +:+ R.abs r)) ;;
  if negb (method req =? "GET")%string then
    sendStatus r 405 ("method not allowed: " +:+ method req)
  else if negb (startsWith (url req) ("/" +:+ Config.baseurl (config this)))
          && negb (url req =? "/" +:+ Config.baseurl (config this) +:+ "/")%string
  then sendStatus r 404 "not found"
  else
    stats <- catch (s <- Fs.statSync fs (R.abs r) ;; ret (Some s))
                   (fun err =>
                      (if (exn_code err =? "ENOENT")%string
                       then sendStatus r 404 "not found"
                       else sendStatus r 500 (exn_message err)) ;;
                      ret None) ;;
    match stats with
    | None => ret tt
    | Some stats =>
        if isFile (stat_kind stats) then sendFile this r
        else if isDirectory (stat_kind stats) then
          if Config.servedir (config this) then sendDir this r
          else sendStatus r 400 "the server is not configured to serve directories"
        else sendStatus r 400 "the requested item is not a file or directory"
    end.

(** [const id = (this.reqcount++).toString().padStart(3, '0')]: the id and
    the instance with the counter advanced. *)
Definition next_id (this : t) : string * t :=
  (padStart3 (toString (reqcount this)),
   {| config := config this; reqcount := increment (reqcount this) |}).

(** [handle]: the new state of the instance, and what the request did. *)
Definition handle (this : t) (req : Request) : t * M unit :=
  let '(id, this') := next_id this in
  (this', respond this' req id).

(** Requests served one after the other: the instance at the end and what
    [handle] did for each request it was called with.  An exception that
    leaves [handle] is uncaught: it ends the process, and the remaining
    requests are not served. *)
Fixpoint serve (this : t) (reqs : list Request) : t * list (M unit) :=
  match reqs with
  | [] => (this, [])
  | req :: rest =>
      let '(this', m) := handle this req in
      match outcome m with
      | inl _ => (this', [m])
      | inr _ =>
          let '(final, ms) := serve this' rest in
          (final, m :: ms)
      end
  end.

End Server.

End RXFS.

(** * Objects with ordered own properties, and [xdArgvParse] *)

Module Obj.

(** The number a string of decimal digits denotes; [None] for the empty
    string and for a string with another character. *)
Fixpoint digits_value (acc : N) (s : string) : option N :=
  match s with
  | EmptyString => Some acc
  | String c t =>
      let n := N_of_ascii c in
      if ((48 <=? n) && (n <=? 57))%N then digits_value (10 * acc + (n - 48)) t
      else None
  end.

(** An array index: the canonical decimal form of an integer below
    2^32 - 1.  Such keys are enumerated first, in ascending order. *)
Definition array_index (k : string) : option N :=
  match k with
  | EmptyString => None
  | String _ _ =>
      match digits_value 0 k with
      | Some n =>
          if ((toString n =? k)%string && (n <? 4294967295)%N)%bool then Some n
          else None
      | None => None
      end
  end.

Definition has {A} (k : string) (o : list (string * A)) : bool :=
  match assoc k o with Some _ => true | None => false end.

(** Overwrite the value of an existing property, keeping its place. *)
Fixpoint replace {A} (k : string) (v : A) (o : list (string * A)) : list (string * A) :=
  match o with
  | [] => []
  | (k', v') :: rest =>
      if (k' =? k)%string then (k, v) :: rest else (k', v') :: replace k v rest
  end.

(** Add the array index [n] under its place among the indices. *)
Fixpoint insert_index {A} (n : N) (k : string) (v : A) (o : list (string * A))
  : list (string * A) :=
  match o with
  | [] => [(k, v)]
  | (k', v') :: rest =>
      match array_index k' with
      | Some m => if (m <? n)%N then (k', v') :: insert_index n k v rest
                  else (k, v) :: o
      | None => (k, v) :: o
      end
  end.

(** [o[k] = v] on the own properties of an ordinary object, in the order
    [for ... in] and [Object.entries] enumerate them. *)
Definition set {A} (k : string) (v : A) (o : list (string * A)) : list (string * A) :=
  if has k o then replace k v o
  else match array_index k with
       | Some n => insert_index n k v o
       | None => (o ++ [(k, v)])%list
       end.

End Obj.

Module Argv.

(** [str.replace(/^-+/, '')] *)
Fixpoint strip_dashes (s : string) : string :=
  match s with
  | String c t => if Ascii.eqb c "-" then strip_dashes t else s
  | EmptyString => EmptyString
  end.

(** [str.slice(0, str.indexOf('='))] and [str.slice(str.indexOf('=') + 1)];
    [None] when [indexOf] is -1. *)
Fixpoint split_at_equals (s : string) : option (string * string) :=
  match s with
  | EmptyString => None
  | String c t =>
      if Ascii.eqb c "=" then Some (EmptyString, t)
      else match split_at_equals t with
           | Some (k, v) => Some (String c k, v)
           | None => None
           end
  end.

(** [opts[key] = v] for a boolean or a string [v]: the assignment to
    [__proto__] reaches the setter of [Object.prototype], which ignores a
    value that is neither an object nor [null]. *)
Definition assign (key : string) (v : value) (opts : list (string * value))
  : list (string * value) :=
  if (key =? "__proto__")%string then opts else Obj.set key v opts.

Record parsed := {
  args : list string;
  opts : list (string * value)
}.

(** One round of [for (let str of argv)]. *)
Definition step (acc : parsed) (str : string) : parsed :=
  if negb (startsWith str "-") then
    {| args := (args acc ++ [str])%list; opts := opts acc |}
  else if startsWith str "---" then
    {| args := args acc; opts := assign (slice 3 str) (VBool false) (opts acc) |}
  else
    let str := strip_dashes str in
    match split_at_equals str with
    | None => {| args := args acc; opts := assign str (VBool true) (opts acc) |}
    | Some (key, val) =>
        {| args := args acc; opts := assign key (VString val) (opts acc) |}
    end.

End Argv.

Definition xdArgvParse (argv : list string) : Argv.parsed :=
  fold_left Argv.step argv {| Argv.args := []; Argv.opts := [] |}.

(** * [xdDatetimeFormat] *)

Module Datetime.

(** What the getters of a valid [Date] return, in local time, with a time
    zone offset of whole minutes.  The day of the month, the minutes, the
    seconds and the milliseconds are only printed; the hours, the month and
    the day of the week also index a table, and carry their range.  An
    invalid [Date], whose getters return [NaN], is not covered. *)
Record Date := {
  getFullYear : Z;
  getMonth : N;
  getDate : N;
  getHours : N;
  getMinutes : N;
  getSeconds : N;
  getMilliseconds : N;
  getDay : N;
  getTimezoneOffset : Z;
  month_range : (getMonth <? 12)%N = true;
  hours_range : (getHours <? 24)%N = true;
  day_range : (getDay <? 7)%N = true
}.

(** [n.toString()] for an integer. *)
Definition toStringZ (z : Z) : string := pretty z.

(** A string of [n] zeros. *)
Fixpoint zeros (n : nat) : string :=
  match n with
  | O => EmptyString
  | S n' => String "0" (zeros n')
  end.

(** [s.padStart(n, '0')] *)
Definition padStart (n : nat) (s : string) : string :=
  zeros (n - String.length s) +:+ s.

Definition h12 : list N :=
  [12; 1; 2; 3; 4; 5; 6; 7; 8; 9; 10; 11; 12; 1; 2; 3; 4; 5; 6; 7; 8; 9; 10; 11]%N.

Definition mon : list string :=
  ["jan"; "feb"; "mar"; "apr"; "may"; "jun"; "jul"; "aug"; "sep"; "oct"; "nov"; "dec"].

Definition month : list string :=
  ["january"; "february"; "march"; "april"; "may"; "june"; "july"; "august";
   "september"; "october"; "november"; "december"].

Definition wday : list string :=
  ["sun"; "mon"; "tue"; "wed"; "thu"; "fri"; "sat"; "sun"].

Definition weekday : list string :=
  ["sunday"; "monday"; "tuesday"; "wednesday"; "thursday"; "friday"; "saturday";
   "sunday"].

(** [table[i]] for an index inside the table. *)
Definition at_ {A} (table : list A) (i : N) (default : A) : A :=
  nth (N.to_nat i) table default.

(** [Math.floor(Math.abs(offset) / 60)] and [Math.abs(offset) % 60]. *)
Definition tz_hours (d : Date) : N := (Z.to_N (Z.abs (getTimezoneOffset d)) / 60)%N.
Definition tz_minutes (d : Date) : N := (Z.to_N (Z.abs (getTimezoneOffset d)) mod 60)%N.

(** The table of tokens.  Every key starts with a brace, as does every
    string it is looked up with, so that no property of [Object.prototype]
    is ever found in its place. *)
Definition funTokens : list (string * (Date -> string)) :=
  [ ("{yy}", fun date => slice 2 (toStringZ (getFullYear date)));
    ("{yyyy}", fun date => toStringZ (getFullYear date));
    ("{M}", fun date => toString (getMonth date + 1));
    ("{MM}", fun date => padStart 2 (toString (getMonth date + 1)));
    ("{d}", fun date => toString (getDate date));
    ("{dd}", fun date => padStart 2 (toString (getDate date)));
    ("{h24}", fun date => toString (getHours date));
    ("{hh24}", fun date => padStart 2 (toString (getHours date)));
    ("{h12}", fun date => toString (at_ h12 (getHours date) 0%N));
    ("{hh12}", fun date => padStart 2 (toString (at_ h12 (getHours date) 0%N)));
    ("{m}", fun date => toString (getMinutes date));
    ("{mm}", fun date => padStart 2 (toString (getMinutes date)));
    ("{s}", fun date => toString (getSeconds date));
    ("{ss}", fun date => padStart 2 (toString (getSeconds date)));
    ("{ms}", fun date => toString (getMilliseconds date));
    ("{msmsms}", fun date => padStart 3 (toString (getMilliseconds date)));
    ("{p}", fun date => if (getHours date <? 12)%N then "am" else "pm");
    ("{mon}", fun date => at_ mon (getMonth date) EmptyString);
    ("{month}", fun date => at_ month (getMonth date) EmptyString);
    ("{wday}", fun date => at_ wday (getDay date) EmptyString);
    ("{weekday}", fun date => at_ weekday (getDay date) EmptyString);
    ("{tzs}", fun date => if (getTimezoneOffset date >? 0)%Z then "-" else "+");
    ("{tzh}", fun date => toString (tz_hours date));
    ("{tzhh}", fun date => padStart 2 (toString (tz_hours date)));
    ("{tzm}", fun date => toString (tz_minutes date));
    ("{tzmm}", fun date => padStart 2 (toString (tz_minutes date))) ].

(** A line terminator starts here: LF, CR, U+2028 or U+2029 (the last two
    in their three bytes).  The dot of a regular expression does not match
    these. *)
Definition terminator_at (c : ascii) (t : string) : bool :=
  let n := N_of_ascii c in
  if ((n =? 10) || (n =? 13))%N then true
  else if (n =? 226)%N then
    match t with
    | String c1 (String c2 _) =>
        ((N_of_ascii c1 =? 128) && ((N_of_ascii c2 =? 168) || (N_of_ascii c2 =? 169)))%N
    | _ => false
    end
  else false.

(** [format.match(/{.*?}/g)]: from an opening brace to the first closing
    brace after it, when no line terminator stands between; the matches do
    not overlap.  [cur] is the match begun and not yet closed. *)
Fixpoint scan (cur : option string) (s : string) : list string :=
  match s with
  | EmptyString => []
  | String c t =>
      if terminator_at c t then scan None t
      else match cur with
           | None => if Ascii.eqb c "{" then scan (Some "{") t else scan None t
           | Some acc =>
               if Ascii.eqb c "}" then (acc +:+ "}") :: scan None t
               else scan (Some (acc +:+ String c EmptyString)) t
           end
  end.

(** The replacement text of [replace] with a string pattern: [$$] is a
    dollar, [$&] the match, [$`] the text before it, [$'] the text after it;
    any other dollar stands for itself. *)
Fixpoint expand (rep matched before after : string) : string :=
  match rep with
  | EmptyString => EmptyString
  | String c t =>
      if Ascii.eqb c "$" then
        match t with
        | String c' t' =>
            if Ascii.eqb c' "$" then String "$" (expand t' matched before after)
            else if Ascii.eqb c' "&" then matched +:+ expand t' matched before after
            else if Ascii.eqb c' "`" then before +:+ expand t' matched before after
            else if Ascii.eqb c' "'" then after +:+ expand t' matched before after
            else String c (expand t matched before after)
        | EmptyString => String c EmptyString
        end
      else String c (expand t matched before after)
  end.

(** [s.replace(pat, rep)] with a string pattern: the first occurrence of
    [pat] is replaced; [before] is what has been passed over. *)
Fixpoint replace_from (pat rep before s : string) : string :=
  if prefix pat s then
    before +:+ expand rep pat before (slice (String.length pat) s)
    +:+ slice (String.length pat) s
  else match s with
       | EmptyString => before
       | String c t => replace_from pat rep (before +:+ String c EmptyString) t
       end.

Definition replace (pat rep s : string) : string :=
  replace_from pat rep EmptyString s.

Section Format.

(** [s.toLowerCase()] and [s.toUpperCase()] of the runtime. *)
Variable toLowerCase : string -> string.
Variable toUpperCase : string -> string.

(** One round of [for (const token of formatTokens)]. *)
Definition substitute (date : Date) (output token : string) : Exception + string :=
  match assoc token funTokens with
  | Some f => inr (replace token (f date) output)
  | None =>
      match assoc (toLowerCase token) funTokens with
      | Some f =>
          let out := f date in
          if (token =? toUpperCase token)%string
          then inr (replace token (toUpperCase out) output)
          else match out with
               | String c rest =>
                   inr (replace token
                          (toUpperCase (String c EmptyString) +:+ rest) output)
               | EmptyString =>
                   (* [out[0]] is [undefined]: a [TypeError], in the
                      wording of V8 *)
                   inl (ErrorException
                          "Cannot read properties of undefined (reading 'toUpperCase')")
               end
      | None =>
          inl (ErrorException
                 ("unrecognized token in the format string: " +:+ token))
      end
  end.

Fixpoint substitute_all (date : Date) (output : string) (tokens : list string)
  : Exception + string :=
  match tokens with
  | [] => inr output
  | token :: rest =>
      match substitute date output token with
      | inl e => inl e
      | inr output' => substitute_all date output' rest
      end
  end.

Definition xdDatetimeFormat (date : Date) (format : string) : Exception + string :=
  match scan None format with
  | [] => inl (ErrorException ("no tokens in the format string: " +:+ format))
  | tokens => substitute_all date format tokens
  end.

(** [formatDate(d)], once [d] is a [Date]. *)
Definition formatDate (d : Date) : Exception + string :=
  xdDatetimeFormat d "{yyyy}-{MM}-{dd} {hh24}:{mm}:{ss} ({tzs}{tzhh}:{tzmm})".

End Format.

End Datetime.

(** * Paths as the operating system reads them *)

Module Path.

(** The components of a path with [.] and [..] resolved lexically, as the
    kernel resolves them when no component is a symbolic link. *)
Fixpoint walk (stack : list string) (segs : list string) : list string :=
  match segs with
  | [] => rev stack
  | seg :: rest =>
      if (negb (truthy seg) || (seg =? ".")%string)%bool then walk stack rest
      else if (seg =? "..")%string then walk (tl stack) rest
      else walk (seg :: stack) rest
  end.

Definition canonical (p : string) : string :=
  "/" +:+ join (walk [] (split p)).

(** [p] names [root] or something below it. *)
Definition inside (root p : string) : bool :=
  ((canonical p =? canonical root)%string
   || startsWith (canonical p) (canonical root +:+ "/"))%bool.

End Path.

(** * A concrete runtime and concrete file systems

    Used to run the model on inputs. *)

Module Sample.

(** [path.parse(p).ext] on POSIX: the last component from its last dot on,
    empty when there is no dot, when the only dot starts the component, or
    when the component is [..]. *)
Fixpoint last_dot (s : string) : option nat :=
  match s with
  | EmptyString => None
  | String c t =>
      match last_dot t with
      | Some i => Some (S i)
      | None => if Ascii.eqb c "." then Some 0 else None
      end
  end.

Definition basename (p : string) : string :=
  List.last (List.filter truthy (split p)) EmptyString.

Definition ext (p : string) : string :=
  let b := basename p in
  match last_dot b with
  | None | Some 0 => EmptyString
  | Some i => if (b =? "..")%string then EmptyString else slice i b
  end.

Definition lower_char (c : ascii) : ascii :=
  let n := N_of_ascii c in
  if ((65 <=? n) && (n <=? 90))%N then ascii_of_N (n + 32) else c.

(** [toLowerCase] on ASCII letters. *)
Fixpoint lower (s : string) : string :=
  match s with
  | EmptyString => EmptyString
  | String c t => String (lower_char c) (lower t)
  end.

(** [path.parse(p).dir] on POSIX, for a path that does not end in a
    slash: what stands before the last slash, or the root. *)
Definition dir (p : string) : string :=
  match lastIndexOf_slash p with
  | None => EmptyString
  | Some 0 => "/"
  | Some i => String.substring 0 i p
  end.

(** A server started in [/srv] on POSIX, in the UTC time zone. *)
Definition runtime : Runtime :=
  {| path_resolve := fun p =>
       Path.canonical (if startsWith p "/" then p else "/srv/" +:+ p);
     win32 := false;
     path_ext := ext;
     path_dir := dir;
     toLowerCase := lower;
     formatDate := fun iso =>
       String.substring 0 10 iso +:+ " " +:+ String.substring 11 8 iso
       +:+ " (+00:00)" |}.

Inductive Node :=
| FileNode (chunks : list string)
| DirNode (readable : bool) (entries : list Dirent)
| OtherNode.

Definition error (c what p : string) : FsError :=
  {| code := c;
     message := c +:+ ": " +:+ what +:+ " '" +:+ p +:+ "'";
     text := "Error: " +:+ c +:+ ": " +:+ what +:+ " '" +:+ p +:+ "'" |}.

Definition enoent := error "ENOENT" "no such file or directory".
Definition eacces := error "EACCES" "permission denied".
Definition enotdir := error "ENOTDIR" "not a directory".
Definition eisdir := error "EISDIR" "illegal operation on a directory".

Definition node_stats (n : Node) : Stats :=
  {| stat_kind := match n with
                  | FileNode _ => File
                  | DirNode _ _ => Directory
                  | OtherNode => Other
                  end;
     stat_size := match n with
                  | FileNode chunks =>
                      N.of_nat (String.length (String.concat EmptyString chunks))
                  | _ => 4096
                  end;
     stat_ctime := "2021-04-12T23:42:00.000Z" |}.

(** A file system given by the nodes at canonical paths. *)
Definition mkfs (nodes : list (string * Node)) : FileSystem :=
  let find p := assoc (Path.canonical p) nodes in
  {| fs_access := fun p =>
       match find p with Some _ => None | None => Some (enoent p) end;
     fs_stat := fun p =>
       match find p with
       | Some n => inr (node_stats n)
       | None => inl (enoent p)
       end;
     fs_readdir := fun p =>
       match find p with
       | Some (DirNode true entries) => inr entries
       | Some (DirNode false _) => inl (eacces p)
       | Some _ => inl (enotdir p)
       | None => inl (enoent p)
       end;
     fs_read := fun p =>
       match find p with
       | Some (FileNode chunks) => (chunks, None)
       | Some (DirNode _ _) => ([], Some (eisdir p))
       | Some OtherNode => ([], Some (eacces p))
       | None => ([], Some (enoent p))
       end;
     fs_mkdir := fun p =>
       let segs := Path.walk [] (split p) in
       let taken k :=
         match assoc ("/" +:+ join (firstn k segs)) nodes with
         | Some (DirNode _ _) | None => false
         | Some _ => true
         end in
       if taken (List.length segs)
       then Some (error "EEXIST" "file already exists, mkdir" p)
       else if existsb taken (seq 1 (List.length segs))
       then Some (error "ENOTDIR" "not a directory, mkdir" p)
       else None |}.

Definition dirent (name : string) (k : Kind) : Dirent :=
  {| dirent_name := name; dirent_kind := k |}.

(** [/srv] with a page, a file whose name holds a percent escape, a
    directory that cannot be listed and a socket; [/etc/passwd] outside. *)
Definition disk : FileSystem :=
  mkfs [ ("/", DirNode true [dirent "srv" Directory; dirent "etc" Directory]);
         ("/srv", DirNode true [dirent "index.html" File;
                                dirent "a%20b.txt" File;
                                dirent "private" Directory;
                                dirent "docs" Directory;
                                dirent "run.sock" Other;
                                dirent "x.constructor" File]);
         ("/srv/index.html", FileNode ["<h1>home</h1>"]);
         ("/srv/a%20b.txt", FileNode ["percent"]);
         ("/srv/private", DirNode false []);
         ("/srv/docs", DirNode true [dirent "readme.txt" File]);
         ("/srv/docs/readme.txt", FileNode ["read"; "me"]);
         ("/srv/run.sock", OtherNode);
         ("/srv/x.constructor", FileNode ["data"]);
         ("/etc", DirNode true [dirent "passwd" File]);
         ("/etc/passwd", FileNode ["root:x:0:0"]) ].

(** The configuration [new Config({})] builds in [/srv]. *)
Definition config : Config.t :=
  {| Config.root := "/srv"; Config.port := 1234; Config.baseurl := EmptyString;
     Config.autoindex := false; Config.servedir := true;
     Config.headers := {[ "cache-control" := "public, max-age=604800, immutable" ]};
     Config.mimes := ∅; Config.mimes_shape := PlainShape;
     Config.logfile := EmptyString; Config.verbose := true; Config.debug := false |}.

(** The same with [autoindex: true, servedir: false]. *)
Definition config_autoindex : Config.t :=
  {| Config.root := "/srv"; Config.port := 1234; Config.baseurl := EmptyString;
     Config.autoindex := true; Config.servedir := false;
     Config.headers := {[ "cache-control" := "public, max-age=604800, immutable" ]};
     Config.mimes := ∅; Config.mimes_shape := PlainShape;
     Config.logfile := EmptyString; Config.verbose := true; Config.debug := false |}.

Definition server (c : Config.t) (n : N) : RXFS.t :=
  {| RXFS.config := c; RXFS.reqcount := n |}.

Definition GET (u : string) : Request := {| method := "GET"; url := u |}.
Definition POST (u : string) : Request := {| method := "POST"; url := u |}.

End Sample.

(** * Notions the specification uses *)

Module Spec.

Fixpoint no_double_slash (s : string) : bool :=
  match s with
  | EmptyString => true
  | String c t =>
      match t with
      | String c' _ =>
          negb (Ascii.eqb c "/" && Ascii.eqb c' "/") && no_double_slash t
      | EmptyString => true
      end
  end.

Fixpoint ends_with_slash (s : string) : bool :=
  match s with
  | EmptyString => false
  | String c t =>
      match t with
      | EmptyString => Ascii.eqb c "/"
      | String _ _ => ends_with_slash t
      end
  end.

(** A relative path in the form [R.rel] has: not empty, no leading or
    trailing slash, no two slashes in a row. *)
Definition valid_relative (p : string) : bool :=
  truthy p && negb (startsWith p "/") && negb (ends_with_slash p)
  && no_double_slash p.

(** A run of [n] slashes. *)
Fixpoint slashes (n : nat) : string :=
  match n with
  | O => EmptyString
  | S n' => String "/" (slashes n')
  end.

Fixpoint no_percent (s : string) : bool :=
  match s with
  | EmptyString => true
  | String c t => negb (Ascii.eqb c "%") && no_percent t
  end.

(** The request for the item at [p]: the URL [baseurl + "/" + p]. *)
Definition request_for (c : Config.t) (p : string) : Request :=
  {| method := "GET"; url := Config.baseurl c +:+ "/" +:+ p |}.

(** The round trip as the specification words it: resolving the request
    for [p] gives [p] and [root + "/" + p]. *)
Definition round_trip (fs : FileSystem) (c : Config.t) (p : string) : Prop :=
  forall id, exists tr r,
    R.constructor fs c (request_for c p) id = (tr, inr r)
    /\ R.rel r = p
    /\ R.abs r = Config.root c +:+ "/" +:+ p.

(** The root joined with a relative path by one slash, the root alone for
    the empty path. *)
Definition joined (root rel : string) : string :=
  if truthy rel then root +:+ "/" +:+ rel else root.

(** The resolution as the specification words it: the relative path is the
    normalised decoded URL and the absolute path is the root joined with
    it. *)
Definition plain_resolution (fs : FileSystem) (c : Config.t) (req : Request) : Prop :=
  forall id, exists tr r,
    R.constructor fs c req id = (tr, inr r)
    /\ R.rel r = R.relative (Config.baseurl c) (R.decoded (url req))
    /\ R.abs r = joined (Config.root c) (R.rel r).

(** The segments of a path that are not empty. *)
Definition segments (s : string) : list string :=
  List.filter truthy (split s).

(** Two paths with the same first segment and the same non-empty later
    segments. *)
Definition same_parts (a b : string) : Prop :=
  hd EmptyString (split a) = hd EmptyString (split b)
  /\ List.filter truthy (tl (split a)) = List.filter truthy (tl (split b)).

(** Calls into the file system. *)
Definition is_fs_access (ev : Event) : bool :=
  match ev with
  | ExistsSync _ | StatSync _ | ReaddirSync _ | CreateReadStream _
  | MkdirSync _ | CreateLog _ => true
  | _ => false
  end.

Definition is_response (ev : Event) : bool :=
  match ev with
  | WriteHead _ _ | Write _ | End_ _ => true
  | _ => false
  end.

(** The events before the first write to the response. *)
Fixpoint before_response (tr : list Event) : list Event :=
  match tr with
  | [] => []
  | ev :: rest => if is_response ev then [] else ev :: before_response rest
  end.

(** The response of a trace is the status [status] with the body
    [status : msg]. *)
Definition responds (tr : list Event) (status : N) (msg : string) : Prop :=
  exists headers,
    List.filter is_response tr
    = [WriteHead status headers; End_ (Some (toString status +:+ " : " +:+ msg))].

(** The method check as the specification words it: a 405 that names the
    method, and no call into the file system before it. *)
Definition rejected_before_fs (rt : Runtime) (fs : FileSystem) (this : RXFS.t)
    (req : Request) : Prop :=
  let m := snd (RXFS.handle rt fs this req) in
  outcome m = inr tt
  /\ responds (trace m) 405 ("method not allowed: " +:+ method req)
  /\ List.filter is_fs_access (before_response (trace m)) = [].

(** [sub] occurs in [s]. *)
Fixpoint contains (sub s : string) : bool :=
  if prefix sub s then true
  else match s with
       | EmptyString => false
       | String _ t => contains sub t
       end.

(** The link target of an item in the listing of [relpath]. *)
Definition href_of (base relpath name : string) : string :=
  base +:+ (if truthy relpath then "/" +:+ relpath +:+ "/" +:+ name
            else "/" +:+ name).

(** The rows of the directories among [items], in the order of [items]. *)
Fixpoint dir_rows (rt : Runtime) (base relpath : string) (items : list Item) : string :=
  match items with
  | [] => EmptyString
  | ItemDir name (Count n) time :: rest =>
      dir_row rt (href_of base relpath name) name (toString (N.of_nat n)) time
      +:+ dir_rows rt base relpath rest
  | ItemDir name NA time :: rest =>
      dir_row_gray rt name "N/A" time +:+ dir_rows rt base relpath rest
  | _ :: rest => dir_rows rt base relpath rest
  end.

(** The rows of the files among [items], in the order of [items]. *)
Fixpoint file_rows (rt : Runtime) (base relpath : string) (items : list Item) : string :=
  match items with
  | [] => EmptyString
  | ItemFile name size time :: rest =>
      file_row rt (href_of base relpath name) name size time
      +:+ file_rows rt base relpath rest
  | _ :: rest => file_rows rt base relpath rest
  end.

Definition is_etc (i : Item) : bool :=
  match i with ItemEtc _ => true | _ => false end.

(** A decimal string without the zeros in front of its last digit. *)
Fixpoint strip_zeros (s : string) : string :=
  match s with
  | EmptyString => EmptyString
  | String c t =>
      if Ascii.eqb c "0"
      then match t with
           | EmptyString => s
           | String _ _ => strip_zeros t
           end
      else s
  end.

(** The ids a fresh sequence of [n] requests gets from the counter value
    [c] on. *)
Definition ids_from (c : N) (n : nat) : list string :=
  map (fun k => padStart3 (toString (c + N.of_nat k))) (seq 0 n).

(** A digit character. *)
Definition is_digit (c : ascii) : bool :=
  ((48 <=? N_of_ascii c) && (N_of_ascii c <=? 57))%N.

Fixpoint digits (s : string) : bool :=
  match s with
  | EmptyString => true
  | String c t => is_digit c && digits t
  end.

(** What stands before the first space. *)
Fixpoint first_word (s : string) : string :=
  match s with
  | EmptyString => EmptyString
  | String c t => if Ascii.eqb c " " then EmptyString else String c (first_word t)
  end.

(** The id [handle] gave a request, read from the line it logs first,
    [REQ #id method url]. *)
Definition assigned_id (m : M unit) : option string :=
  match trace m with
  | Log msg :: _ =>
      if startsWith msg "REQ #" then Some (first_word (slice 5 msg)) else None
  | _ => None
  end.

(** C9 as stated: the ids given to the requests served are the values of
    the counter from its value at the start on, one after the other, no id
    is given twice, and the counter has moved by one per request. *)
Definition sequential_ids (rt : Runtime) (fs : FileSystem) (this : RXFS.t)
    (reqs : list Request) : Prop :=
  let served := snd (RXFS.serve rt fs this reqs) in
  let final := fst (RXFS.serve rt fs this reqs) in
  map assigned_id served
  = map Some (ids_from (RXFS.reqcount this) (List.length served))
  /\ List.NoDup (map assigned_id served)
  /\ RXFS.reqcount final
     = (RXFS.reqcount this + N.of_nat (List.length served))%N.

Definition digit_value (c : ascii) : N := (N_of_ascii c - 48)%N.

(** [s] has the shape [q.dd unit] and reads as the hundredths [n]. *)
Definition two_decimals (s : string) (n : N) (unit : string) : Prop :=
  exists d1 d2,
    s = toString (n / 100) +:+ "." +:+ String d1 (String d2 (" " +:+ unit))
    /\ is_digit d1 = true /\ is_digit d2 = true
    /\ (n mod 100 = 10 * digit_value d1 + digit_value d2)%N.

(** [n] hundredths is the two-decimal value nearest to [b / scale], the
    larger one at a tie. *)
Definition nearest_hundredth (b scale n : N) : Prop :=
  (2 * (n * scale) <= 2 * (100 * b) + scale
   /\ 2 * (100 * b) < 2 * (n * scale) + scale)%N.

(** Both flags are set in the options. *)
Definition both_flags (opts : list (string * value)) : Prop :=
  List.NoDup (map fst opts)
  /\ In ("autoindex", VBool true) opts
  /\ In ("servedir", VBool true) opts.

End Spec.

(** * Notions used by the further properties *)

Module Props.

(** A path in normal form: no slash in front, none at the end, no two in a
    row.  The empty path is in normal form. *)
Definition normal (s : string) : bool :=
  negb (startsWith s "/") && negb (Spec.ends_with_slash s)
  && Spec.no_double_slash s.

(** The [typeof] of the default of a recognised option. *)
Definition default_typeof (key : string) : option string :=
  if (key =? "root")%string then Some "string"
  else if (key =? "port")%string then Some "number"
  else if (key =? "baseurl")%string then Some "string"
  else if (key =? "autoindex")%string then Some "boolean"
  else if (key =? "servedir")%string then Some "boolean"
  else if (key =? "headers")%string then Some "object"
  else if (key =? "mimes")%string then Some "object"
  else if (key =? "logfile")%string then Some "string"
  else if (key =? "verbose")%string then Some "boolean"
  else if (key =? "debug")%string then Some "boolean"
  else None.

(** The writes to the response, in order. *)
Definition response_of (tr : list Event) : list Event :=
  List.filter Spec.is_response tr.

(** What [handle] does once the context [r] exists: the method check, the
    base URL check, and the dispatch on what [statSync] says. *)
Definition dispatch (rt : Runtime) (fs : FileSystem) (this : RXFS.t)
    (req : Request) (r : R.t) : M unit :=
  (if negb (method req =? "GET")%string then
     RXFS.sendStatus r 405 ("method not allowed: " +:+ method req)
   else if negb (startsWith (url req) ("/" +:+ Config.baseurl (RXFS.config this)))
           && negb (url req =? "/" +:+ Config.baseurl (RXFS.config this) +:+ "/")%string
   then RXFS.sendStatus r 404 "not found"
   else
     stats <- catch (s <- Fs.statSync fs (R.abs r) ;; ret (Some s))
                    (fun err =>
                       (if (exn_code err =? "ENOENT")%string
                        then RXFS.sendStatus r 404 "not found"
                        else RXFS.sendStatus r 500 (exn_message err)) ;;
                       ret None) ;;
     match stats with
     | None => ret tt
     | Some stats =>
         if isFile (stat_kind stats) then RXFS.sendFile rt fs this r
         else if isDirectory (stat_kind stats) then
           if Config.servedir (RXFS.config this) then RXFS.sendDir rt fs this r
           else RXFS.sendStatus r 400
                  "the server is not configured to serve directories"
         else RXFS.sendStatus r 400
                "the requested item is not a file or directory"
     end)%js.

(** The absolute path the resolver gives the request. *)
Definition resolved_abs (fs : FileSystem) (c : Config.t) (req : Request) : string :=
  match outcome (R.constructor fs c req EmptyString) with
  | inr r => R.abs r
  | inl _ => EmptyString
  end.

(** The relative path the resolver gives the request. *)
Definition resolved_rel (fs : FileSystem) (c : Config.t) (req : Request) : string :=
  match outcome (R.constructor fs c req EmptyString) with
  | inr r => R.rel r
  | inl _ => EmptyString
  end.

(** The request is a GET whose URL starts with [/baseurl]. *)
Definition in_scope (c : Config.t) (req : Request) : Prop :=
  method req = "GET"
  /\ startsWith (url req) ("/" +:+ Config.baseurl c) = true.

(** The item of one directory entry: from the entry alone for what is
    neither file nor directory, else from [statSync] of the child, and for a
    directory from [readdirSync] of the child, ['N/A'] when that fails.
    [None] when [statSync] of the child fails. *)
Definition item_of (fs : FileSystem) (dir : string) (d : Dirent) : option Item :=
  let name := dirent_name d in
  match dirent_kind d with
  | Other => Some (ItemEtc name)
  | File =>
      match fs_stat fs (dir +:+ "/" +:+ name) with
      | inr st => Some (ItemFile name (stat_size st) (stat_ctime st))
      | inl _ => None
      end
  | Directory =>
      match fs_stat fs (dir +:+ "/" +:+ name) with
      | inr st =>
          Some (ItemDir name
                  match fs_readdir fs (dir +:+ "/" +:+ name) with
                  | inr children => Count (List.length children)
                  | inl _ => NA
                  end
                  (stat_ctime st))
      | inl _ => None
      end
  end.

Fixpoint has_slash (s : string) : bool :=
  match s with
  | EmptyString => false
  | String c t => Ascii.eqb c "/" || has_slash t
  end.

(** The option one command line word sets, if it sets one. *)
Definition option_of (str : string) : option (string * value) :=
  if negb (startsWith str "-") then None
  else if startsWith str "---" then Some (slice 3 str, VBool false)
  else match Argv.split_at_equals (Argv.strip_dashes str) with
       | None => Some (Argv.strip_dashes str, VBool true)
       | Some (key, val) => Some (key, VString val)
       end.

(** The options the words of a command line set, in their order. *)
Fixpoint named_options (argv : list string) : list (string * value) :=
  match argv with
  | [] => []
  | str :: rest =>
      match option_of str with
      | Some kv => kv :: named_options rest
      | None => named_options rest
      end
  end.

(** A boolean or a string. *)
Definition flag_or_text (v : value) : bool :=
  match v with
  | VBool _ | VString _ => true
  | _ => false
  end.

(** The label of the link of component [i] of a listed path. *)
Definition label (root : string) (i : nat) (seg : string) : string :=
  if ((root =? "/")%string && Nat.eqb i 0)%bool then seg else "/" +:+ seg.

(** The links of the components of a listed path, in order: link [i] is
    addressed to the first [i + 1] components under the base. *)
Definition trail (root base : string) (segs : list string) : list string :=
  map (fun i => anchor (base +:+ "/" +:+ join (firstn (S i) segs))
                       (label root i (nth i segs EmptyString)))
      (seq 0 (List.length segs)).

(** [toUpperCase] on ASCII letters. *)
Definition upper_char (c : ascii) : ascii :=
  let n := N_of_ascii c in
  if ((97 <=? n) && (n <=? 122))%N then ascii_of_N (n - 32) else c.

Fixpoint upper (s : string) : string :=
  match s with
  | EmptyString => EmptyString
  | String c t => String (upper_char c) (upper t)
  end.

(** The character [c] occurs in [s]. *)
Fixpoint has_char (c : ascii) (s : string) : bool :=
  match s with
  | EmptyString => false
  | String c' t => Ascii.eqb c' c || has_char c t
  end.

(** Neither an opening brace nor a dollar occurs in [s]. *)
Definition plain (s : string) : bool :=
  negb (has_char "{" s) && negb (has_char "$" s).

(** A format string cut into pieces: plain text and tokens. *)
Inductive piece :=
  | Text (s : string)
  | Token (name : string).

Definition is_token (p : piece) : bool :=
  match p with
  | Text _ => false
  | Token _ => true
  end.

(** A piece as it is written in the format string. *)
Definition written (p : piece) : string :=
  match p with
  | Text s => s
  | Token name => name
  end.

(** A piece as it is shown for a date: a token of the table by its value. *)
Definition shown (d : Datetime.Date) (p : piece) : string :=
  match p with
  | Text s => s
  | Token name =>
      match assoc name Datetime.funTokens with
      | Some f => f d
      | None => name
      end
  end.

Definition concat (l : list string) : string :=
  fold_right String.append EmptyString l.

(** The format string of the pieces, its tokens, and what it shows for a
    date. *)
Definition format (ps : list piece) : string := concat (map written ps).
Definition tokens (ps : list piece) : list string :=
  map written (List.filter is_token ps).
Definition rendering (d : Datetime.Date) (ps : list piece) : string :=
  concat (map (shown d) ps).

(** Text without an opening brace, or a token spelled as in the table. *)
Definition well_formed (p : piece) : bool :=
  match p with
  | Text s => negb (has_char "{" s)
  | Token name =>
      match assoc name Datetime.funTokens with
      | Some _ => true
      | None => false
      end
  end.

(** The table knows the token neither as it is nor in lower case. *)
Definition unknown (toLowerCase : string -> string) (token : string) : bool :=
  match assoc token Datetime.funTokens,
        assoc (toLowerCase token) Datetime.funTokens with
  | None, None => true
  | _, _ => false
  end.

(** The format string of [formatDate], in pieces. *)
Definition date_pieces : list piece :=
  [ Token "{yyyy}"; Text "-"; Token "{MM}"; Text "-"; Token "{dd}"; Text " ";
    Token "{hh24}"; Text ":"; Token "{mm}"; Text ":"; Token "{ss}"; Text " (";
    Token "{tzs}"; Token "{tzhh}"; Text ":"; Token "{tzmm}"; Text ")" ].

(** A date of four-digit year, with the day of the month, the minutes and
    the seconds below one hundred, and a time zone offset below one hundred
    hours. *)
Definition four_digit_year (d : Datetime.Date) : Prop :=
  (1000 <= Datetime.getFullYear d <= 9999)%Z
  /\ (Datetime.getDate d < 100)%N
  /\ (Datetime.getMinutes d < 100)%N
  /\ (Datetime.getSeconds d < 100)%N
  /\ (Z.abs (Datetime.getTimezoneOffset d) < 6000)%Z.

(** Thursday 15 October 2020, 13:37:00.000, one hour east of Greenwich. *)
Definition october_15 : Datetime.Date :=
  {| Datetime.getFullYear := 2020;
     Datetime.getMonth := 9;
     Datetime.getDate := 15;
     Datetime.getHours := 13;
     Datetime.getMinutes := 37;
     Datetime.getSeconds := 0;
     Datetime.getMilliseconds := 0;
     Datetime.getDay := 4;
     Datetime.getTimezoneOffset := -60;
     Datetime.month_range := eq_refl;
     Datetime.hours_range := eq_refl;
     Datetime.day_range := eq_refl |}.

End Props.

(** * Facts about the string primitives *)

#[local] Arguments String.append !_ _ / : simpl nomatch.

Section StringFacts.

Lemma append_assoc (a b c : string) : (a +:+ b) +:+ c = a +:+ (b +:+ c).
Proof. induction a as [|x a IH]; simpl; [reflexivity | now rewrite IH]. Qed.

Lemma prefix_append (b s : string) : prefix b (b +:+ s) = true.
Proof.
  induction b as [|x b IH]; simpl; [reflexivity|].
  now rewrite Ascii.eqb_refl.
Qed.

Lemma startsWith_slash (c : ascii) (t : string) :
  startsWith (String c t) "/" = Ascii.eqb c "/".
Proof.
  unfold startsWith. cbn [prefix]. rewrite andb_true_r. apply Ascii.eqb_sym.
Qed.

Lemma startsWith_slashes (a b : ascii) (t : string) :
  startsWith (String a (String b t)) "//" = Ascii.eqb a "/" && Ascii.eqb b "/".
Proof.
  unfold startsWith. cbn [prefix]. rewrite andb_true_r.
  now rewrite (Ascii.eqb_sym "/" a), (Ascii.eqb_sym "/" b).
Qed.

Lemma slice_append (b s : string) : slice (String.length b) (b +:+ s) = s.
Proof. induction b as [|x b IH]; simpl; [reflexivity | exact IH]. Qed.

(** The base URL in front of a URL is the occurrence that is removed. *)
Lemma remove_first_append (b s : string) : remove_first b (b +:+ s) = s.
Proof.
  destruct b as [|x b].
  - now destruct s.
  - change (String x b +:+ s) with (String x (b +:+ s)).
    unfold remove_first; fold remove_first.
    change (prefix (String x b) (String x (b +:+ s)))
      with (Ascii.eqb x x && prefix b (b +:+ s)).
    rewrite Ascii.eqb_refl, prefix_append. simpl.
    apply slice_append.
Qed.

Lemma no_double_slash_cons (a b : ascii) (t : string) :
  Spec.no_double_slash (String a (String b t))
  = negb (Ascii.eqb a "/" && Ascii.eqb b "/") && Spec.no_double_slash (String b t).
Proof. reflexivity. Qed.

Lemma collapse_no_double (s : string) :
  Spec.no_double_slash s = true -> collapse_slashes s = s.
Proof.
  induction s as [|c t IH]; simpl; [reflexivity|].
  destruct t as [|c' t']; [reflexivity|].
  intros H. apply andb_true_iff in H as [H1 H2].
  apply negb_true_iff in H1. rewrite H1. now rewrite IH.
Qed.

(** A run of two or more slashes collapses to one slash. *)
Lemma collapse_run (n : nat) (s : string) :
  startsWith s "/" = false ->
  collapse_slashes (Spec.slashes (S (S n)) +:+ s) = "/" +:+ collapse_slashes s.
Proof.
  intros Hs. induction n as [|n IH].
  - destruct s as [|c t]; [reflexivity|].
    rewrite startsWith_slash in Hs.
    cbn [Spec.slashes String.append collapse_slashes Ascii.eqb Bool.eqb andb].
    now rewrite Hs.
  - exact IH.
Qed.

Lemma strip_trailing_id (s : string) :
  Spec.ends_with_slash s = false -> strip_trailing_slash s = s.
Proof.
  induction s as [|c t IH]; simpl; [reflexivity|].
  destruct t as [|c' t']; intros H; [now rewrite H|].
  now rewrite IH.
Qed.

Lemma map_option_some {A B} (f : A -> B) (o : option A) (a : A) :
  o = Some a -> f <$> o = Some (f a).
Proof. now intros ->. Qed.

(** Without a percent sign there is nothing to decode. *)
Lemma decode_no_percent (s : string) :
  Spec.no_percent s = true -> decodeURIComponent s = Some s.
Proof.
  induction s as [|c t IH]; simpl; [reflexivity|].
  intros H. apply andb_true_iff in H as [H1 H2].
  rewrite H1. now rewrite (IH H2).
Qed.

Lemma decoded_no_percent (s : string) :
  Spec.no_percent s = true -> R.decoded s = s.
Proof. intros H. unfold R.decoded. now rewrite decode_no_percent. Qed.

Lemma no_percent_append (a b : string) :
  Spec.no_percent (a +:+ b) = Spec.no_percent a && Spec.no_percent b.
Proof.
  induction a as [|c a IH]; simpl; [reflexivity|].
  now rewrite IH, andb_assoc.
Qed.

End StringFacts.

(** * The path resolver *)

Section Resolver.

Variable fs : FileSystem.
Variable c : Config.t.

(** What the constructor of [R] computes, in one equation. *)
Lemma constructor_eq (req : Request) (id : string) :
  let rel0 := R.relative (Config.baseurl c) (R.decoded (url req)) in
  let abs0 := R.absolute (Config.root c) rel0 in
  let headers := R.copied (Config.headers c) in
  R.constructor fs c req id =
  ((if Config.autoindex c then [ExistsSync (abs0 +:+ "/index.html")] else []),
   inr (if Config.autoindex c && Fs.reachable fs (abs0 +:+ "/index.html")
        then {| R.id := id; R.req := req; R.headers := headers;
                R.rel := if truthy rel0 then rel0 +:+ "/index.html"
                         else "index.html";
                R.abs := abs0 +:+ "/index.html" |}
        else {| R.id := id; R.req := req; R.headers := headers;
                R.rel := rel0; R.abs := abs0 |})).
Proof.
  intros rel0 abs0 headers. unfold R.constructor.
  fold rel0. fold abs0. fold headers.
  destruct (Config.autoindex c); simpl; [|reflexivity].
  unfold Fs.existsSync, bind, emit, ret. simpl.
  destruct (Fs.reachable fs (abs0 +:+ "/index.html")); reflexivity.
Qed.

Lemma relative_of_item (p : string) :
  Spec.valid_relative p = true ->
  R.relative (Config.baseurl c) (Config.baseurl c +:+ "/" +:+ p) = p.
Proof.
  unfold Spec.valid_relative. intros H.
  apply andb_true_iff in H as [H Hnd].
  apply andb_true_iff in H as [H Hend].
  apply andb_true_iff in H as [Hne Hlead].
  apply negb_true_iff in Hend, Hlead.
  unfold R.relative. rewrite remove_first_append.
  destruct p as [|x p]; [discriminate|].
  assert (Ascii.eqb x "/" = false) as Hx.
  { now rewrite startsWith_slash in Hlead. }
  rewrite collapse_no_double.
  - change (strip_leading_slash ("/" +:+ String x p)) with (String x p).
    now apply strip_trailing_id.
  - change ("/" +:+ String x p) with (String "/" (String x p)).
    rewrite no_double_slash_cons, Hx. exact Hnd.
Qed.

(** The same for the URL a client sends, [/baseurl/p], when the base URL
    is not empty and does not start with a slash (the form [Config] gives
    it). *)
Lemma relative_of_mounted_item (p : string) :
  Spec.valid_relative p = true ->
  truthy (Config.baseurl c) = true ->
  startsWith (Config.baseurl c) "/" = false ->
  R.relative (Config.baseurl c) ("/" +:+ Config.baseurl c +:+ "/" +:+ p) = p.
Proof.
  intros Hp Hb Hlead.
  unfold R.relative.
  destruct (Config.baseurl c) as [|x b] eqn:Hbase; [discriminate|].
  rewrite startsWith_slash in Hlead.
  change ("/" +:+ String x b +:+ "/" +:+ p)
    with (String "/" (String x b +:+ "/" +:+ p)).
  unfold remove_first at 1; fold remove_first.
  assert (prefix (String x b) (String "/" (String x b +:+ "/" +:+ p)) = false) as ->.
  { cbn [prefix]. rewrite Hlead. reflexivity. }
  rewrite remove_first_append.
  change (String "/" ("/" +:+ p)) with (Spec.slashes 2 +:+ p).
  rewrite collapse_run.
  - destruct p as [|y p]; [discriminate|].
    unfold Spec.valid_relative in Hp.
    apply andb_true_iff in Hp as [Hp Hnd]. apply andb_true_iff in Hp as [Hp Hend].
    apply andb_true_iff in Hp as [_ Hl]. apply negb_true_iff in Hend.
    rewrite (collapse_no_double _ Hnd).
    change (strip_leading_slash ("/" +:+ String y p)) with (String y p).
    now apply strip_trailing_id.
  - unfold Spec.valid_relative in Hp.
    apply andb_true_iff in Hp as [Hp _]. apply andb_true_iff in Hp as [Hp _].
    apply andb_true_iff in Hp as [_ Hl]. now apply negb_true_iff in Hl.
Qed.

Lemma absolute_of_item (p : string) :
  Spec.valid_relative p = true ->
  Config.root c <> "/" -> startsWith (Config.root c) "//" = false ->
  R.absolute (Config.root c) p = Config.root c +:+ "/" +:+ p.
Proof.
  unfold Spec.valid_relative. intros H Hroot Hss.
  apply andb_true_iff in H as [H _].
  apply andb_true_iff in H as [H _].
  apply andb_true_iff in H as [Hne Hlead].
  apply negb_true_iff in Hlead.
  unfold R.absolute. rewrite Hne.
  destruct p as [|x p]; [discriminate|].
  rewrite startsWith_slash in Hlead.
  assert (startsWith (Config.root c +:+ "/" +:+ String x p) "//" = false) as ->;
    [|reflexivity].
  destruct (Config.root c) as [|a [|b r]].
  - cbn [String.append]. rewrite startsWith_slashes, Hlead. apply andb_false_r.
  - cbn [String.append]. rewrite startsWith_slashes.
    destruct (Ascii.eqb_spec a "/") as [->|]; [congruence | reflexivity].
  - cbn [String.append]. rewrite startsWith_slashes.
    now rewrite startsWith_slashes in Hss.
Qed.

End Resolver.

(** * Path segments under normalisation *)

Section Segments.

Lemma split_slash (t : string) : split (String "/" t) = EmptyString :: split t.
Proof. reflexivity. Qed.

Lemma split_eta (s : string) : split s = hd EmptyString (split s) :: tl (split s).
Proof.
  induction s as [|c t IH]; [reflexivity|].
  cbn [split]. destruct (Ascii.eqb c "/"); [reflexivity|].
  now destruct (split t).
Qed.

Lemma split_other (c : ascii) (t : string) :
  Ascii.eqb c "/" = false ->
  split (String c t) = String c (hd EmptyString (split t)) :: tl (split t).
Proof.
  intros Hc. cbn [split]. rewrite Hc.
  rewrite (split_eta t) at 1. reflexivity.
Qed.

Lemma same_parts_segments (a b : string) :
  Spec.same_parts a b -> Spec.segments a = Spec.segments b.
Proof.
  intros [Hh Ht]. unfold Spec.segments.
  rewrite (split_eta a), (split_eta b). cbn [List.filter].
  now rewrite Hh, Ht.
Qed.

Lemma same_parts_cons (c : ascii) (a b : string) :
  Spec.same_parts a b -> Spec.same_parts (String c a) (String c b).
Proof.
  intros H. destruct (Ascii.eqb c "/") eqn:Hc.
  - apply Ascii.eqb_eq in Hc as ->.
    unfold Spec.same_parts. rewrite !split_slash. cbn [hd tl].
    split; [reflexivity|]. exact (same_parts_segments _ _ H).
  - unfold Spec.same_parts. rewrite !(split_other _ _ Hc). cbn [hd tl].
    destruct H as [-> ->]. now split.
Qed.

Lemma collapse_cons (c c' : ascii) (t : string) :
  collapse_slashes (String c (String c' t))
  = if Ascii.eqb c "/" && Ascii.eqb c' "/" then collapse_slashes (String c' t)
    else String c (collapse_slashes (String c' t)).
Proof. reflexivity. Qed.

Lemma strip_trailing_cons (c c' : ascii) (t : string) :
  strip_trailing_slash (String c (String c' t))
  = String c (strip_trailing_slash (String c' t)).
Proof. reflexivity. Qed.

Lemma collapse_same_parts (s : string) : Spec.same_parts (collapse_slashes s) s.
Proof.
  induction s as [|c t IH]; [now split|].
  destruct t as [|c' t']; [now split|].
  rewrite collapse_cons.
  destruct (Ascii.eqb c "/" && Ascii.eqb c' "/") eqn:Hcc.
  - apply andb_true_iff in Hcc as [Hc Hc'].
    apply Ascii.eqb_eq in Hc as ->. apply Ascii.eqb_eq in Hc' as ->.
    destruct IH as [Hh Ht]. unfold Spec.same_parts.
    rewrite Hh, Ht. rewrite !split_slash. cbn [hd tl List.filter truthy].
    now split.
  - now apply same_parts_cons.
Qed.

Lemma strip_trailing_same_parts (s : string) :
  Spec.same_parts (strip_trailing_slash s) s.
Proof.
  induction s as [|c t IH]; [now split|].
  destruct t as [|c' t'].
  - cbn [strip_trailing_slash]. destruct (Ascii.eqb c "/") eqn:Hc; [|now split].
    apply Ascii.eqb_eq in Hc as ->. now split.
  - rewrite strip_trailing_cons. now apply same_parts_cons.
Qed.

Lemma strip_leading_segments (s : string) :
  Spec.segments (strip_leading_slash s) = Spec.segments s.
Proof.
  destruct s as [|c t]; [reflexivity|]. cbn [strip_leading_slash].
  destruct (Ascii.eqb c "/") eqn:Hc; [|reflexivity].
  apply Ascii.eqb_eq in Hc as ->. reflexivity.
Qed.

(** Normalisation drops empty segments and nothing else: every other
    segment of the URL, [..] included, stays where it is. *)
Lemma relative_segments (baseurl u : string) :
  Spec.segments (R.relative baseurl u) = Spec.segments (remove_first baseurl u).
Proof.
  unfold R.relative.
  rewrite (same_parts_segments _ _ (strip_trailing_same_parts _)).
  rewrite strip_leading_segments.
  apply same_parts_segments, collapse_same_parts.
Qed.

End Segments.

(** * Claims about the path resolver *)

(** C4. With autoindex enabled and [index.html] reachable inside the resolved
    absolute path, the relative path becomes [<relative>/index.html] (just
    [index.html] at the root) and the absolute path gets [/index.html]
    appended; when the access check fails with any error (no such file, an
    unreadable directory) nothing is substituted; in every case the
    constructor returns and does not throw. *)
Theorem autoindex_substitution (fs : FileSystem) (c : Config.t) (req : Request)
    (id : string) :
  let rel0 := R.relative (Config.baseurl c) (R.decoded (url req)) in
  let abs0 := R.absolute (Config.root c) rel0 in
  exists tr r,
    R.constructor fs c req id = (tr, inr r)
    /\ (Config.autoindex c = true ->
        fs_access fs (abs0 +:+ "/index.html") = None ->
        R.rel r = (if truthy rel0 then rel0 +:+ "/index.html" else "index.html")
        /\ R.abs r = abs0 +:+ "/index.html")
    /\ (forall e, fs_access fs (abs0 +:+ "/index.html") = Some e ->
        R.rel r = rel0 /\ R.abs r = abs0).
Proof.
  intros rel0 abs0. rewrite constructor_eq. fold rel0. fold abs0.
  eexists _, _. split; [reflexivity|]. split.
  - intros Ha Hacc. unfold Fs.reachable. rewrite Ha, Hacc. simpl. now split.
  - intros e Hacc. unfold Fs.reachable. rewrite Hacc, andb_false_r. now split.
Qed.

Lemma autoindex_substitution_witness :
  exists tr r,
    R.constructor Sample.disk Sample.config_autoindex (Sample.GET "/docs/") "000"
    = (tr, inr r)
    /\ fs_access Sample.disk "/srv/index.html" = None
    /\ fs_access Sample.disk "/srv/docs/index.html"
       = Some (Sample.enoent "/srv/docs/index.html")
    /\ R.rel r = "docs" /\ R.abs r = "/srv/docs".
Proof.
  destruct (autoindex_substitution Sample.disk Sample.config_autoindex
              (Sample.GET "/docs/") "000") as (tr & r & Heq & _ & Hno).
  exists tr, r. split; [exact Heq|].
  split; [reflexivity|]. split; [reflexivity|].
  exact (Hno (Sample.enoent "/srv/docs/index.html") eq_refl).
Defined.

(** C1 as stated fails: the file [a%20b.txt] in the root is a valid relative
    path, and the request for it resolves to [a b.txt]. *)
Lemma round_trip_counterexample :
  Spec.valid_relative "a%20b.txt" = true
  /\ ~ Spec.round_trip Sample.disk Sample.config "a%20b.txt".
Proof.
  split; [reflexivity|]. intros H.
  destruct (H "000") as (tr & r & Heq & Hrel & _).
  rewrite constructor_eq in Heq. vm_compute in Heq.
  injection Heq as _ <-. vm_compute in Hrel. discriminate.
Qed.

(** C1, amended.  For a valid relative path [p] (not empty, no leading or
    trailing slash, no doubled slash), resolving the request URL
    [baseurl + "/" + p] gives the relative path [p] and the absolute path
    [root + "/" + p], provided that decoding leaves the URL unchanged (it has
    no percent escape that decodes), the root is not ["/"] and does not start
    with two slashes, and the index substitution does not fire (autoindex is
    off, or the access check of [index.html] inside the item fails). *)
Theorem round_trip_amended (fs : FileSystem) (c : Config.t) (p : string) :
  Spec.valid_relative p = true ->
  R.decoded (url (Spec.request_for c p)) = url (Spec.request_for c p) ->
  Config.root c <> "/" ->
  startsWith (Config.root c) "//" = false ->
  (Config.autoindex c = false
   \/ exists e, fs_access fs (Config.root c +:+ "/" +:+ p +:+ "/index.html") = Some e) ->
  Spec.round_trip fs c p.
Proof.
  intros Hp Hdec Hroot Hss Hidx id.
  rewrite constructor_eq, Hdec. cbn [url Spec.request_for].
  rewrite (relative_of_item c p Hp), (absolute_of_item c p Hp Hroot Hss).
  eexists _, _. split; [reflexivity|].
  assert (Config.autoindex c
          && Fs.reachable fs ((Config.root c +:+ "/" +:+ p) +:+ "/index.html")
          = false) as ->.
  { destruct Hidx as [-> | [e He]]; [reflexivity|].
    unfold Fs.reachable. rewrite !append_assoc.
    rewrite He. apply andb_false_r. }
  now split.
Qed.

Lemma round_trip_amended_witness :
  Spec.round_trip Sample.disk Sample.config_autoindex "docs/readme.txt".
Proof.
  apply round_trip_amended.
  - reflexivity.
  - reflexivity.
  - discriminate.
  - reflexivity.
  - right. eexists. reflexivity.
Defined.

(** C10 as stated fails: with autoindex on and [/srv/index.html] present,
    the request for [/] resolves to the relative path [index.html], which is
    not the normalised URL (the empty path). *)
Lemma plain_resolution_counterexample :
  ~ Spec.plain_resolution Sample.disk Sample.config_autoindex (Sample.GET "/").
Proof.
  intros H. destruct (H "000") as (tr & r & Heq & Hrel & _).
  rewrite constructor_eq in Heq. vm_compute in Heq.
  injection Heq as _ <-. vm_compute in Hrel. discriminate.
Qed.

(** C10, amended.  For every request URL: the constructor returns; the
    normalised path [rel0] is the decoded URL (the raw URL when decoding
    throws) with the base URL removed, slash runs collapsed and one leading
    and one trailing slash stripped; [abs0] is the root joined with [rel0]
    by one slash (the root alone for the empty path), with the first slash
    dropped when that starts with two; when autoindex is on and
    [index.html] is reachable inside [abs0], the relative path is
    [rel0/index.html] ([index.html] at the root) and the absolute path is
    [abs0/index.html], otherwise they are [rel0] and [abs0].  Normalisation
    keeps every non-empty segment of the URL, [..] included, and nothing
    checks containment: the request [/%2e%2e/etc/passwd] resolves to
    [/srv/../etc/passwd], outside the root [/srv], and the file is served. *)
Theorem resolution_amended :
  (forall (fs : FileSystem) (c : Config.t) (req : Request) (id : string),
     let rel0 := R.relative (Config.baseurl c) (R.decoded (url req)) in
     let abs0 := R.absolute (Config.root c) rel0 in
     exists tr r,
       R.constructor fs c req id = (tr, inr r)
       /\ abs0 = (if startsWith (Spec.joined (Config.root c) rel0) "//"
                  then slice 1 (Spec.joined (Config.root c) rel0)
                  else Spec.joined (Config.root c) rel0)
       /\ (if Config.autoindex c && Fs.reachable fs (abs0 +:+ "/index.html")
           then R.rel r = (if truthy rel0 then rel0 +:+ "/index.html"
                           else "index.html")
                /\ R.abs r = abs0 +:+ "/index.html"
           else R.rel r = rel0 /\ R.abs r = abs0)
       /\ Spec.segments rel0
          = Spec.segments (remove_first (Config.baseurl c) (R.decoded (url req))))
  /\ (exists tr r,
        R.constructor Sample.disk Sample.config
          (Sample.GET "/%2e%2e/etc/passwd") "000" = (tr, inr r)
        /\ R.rel r = "../etc/passwd"
        /\ R.abs r = "/srv/../etc/passwd"
        /\ Path.inside (Config.root Sample.config) (R.abs r) = false
        /\ In (Write "root:x:0:0")
              (trace (snd (RXFS.handle Sample.runtime Sample.disk
                             (Sample.server Sample.config 0)
                             (Sample.GET "/%2e%2e/etc/passwd"))))).
Proof.
  split.
  - intros fs c req id rel0 abs0. rewrite constructor_eq. fold rel0. fold abs0.
    eexists _, _. split; [reflexivity|]. split; [reflexivity|]. split.
    + destruct (Config.autoindex c && Fs.reachable fs (abs0 +:+ "/index.html"));
        now split.
    + apply relative_segments.
  - rewrite constructor_eq. eexists _, _. split; [reflexivity|].
    repeat split; try reflexivity.
    vm_compute. tauto.
Qed.

(** * Claims about the request dispatcher *)

Section Dispatcher.

Variable rt : Runtime.
Variable fs : FileSystem.

(** The whole trace of a request whose method is not GET. *)
Lemma handle_other_method (this : RXFS.t) (req : Request) :
  method req <> "GET" ->
  let c := RXFS.config this in
  let id := padStart3 (toString (RXFS.reqcount this)) in
  let rel0 := R.relative (Config.baseurl c) (R.decoded (url req)) in
  let abs0 := R.absolute (Config.root c) rel0 in
  exists rel abs,
    snd (RXFS.handle rt fs this req)
    = ((Log ("REQ #" +:+ id +:+ " " +:+ method req +:+ " " +:+ url req)
        :: (if Config.autoindex c then [ExistsSync (abs0 +:+ "/index.html")]
            else []))
       ++ [ Debug ("url: " +:+ url req +:+ nl +:+ "rel: " +:+ rel +:+ nl
                   +:+ "abs: " +:+ abs);
            Log ("RES #" +:+ id +:+ " [status] 405 method not allowed: "
                 +:+ method req);
            WriteHead 405 (<["content-type" := Str "text/plain"]>
                             (R.copied (Config.headers c)));
            End_ (Some ("405 : method not allowed: " +:+ method req)) ],
       inr tt)%list.
Proof.
  intros Hm c id rel0 abs0.
  apply String.eqb_neq in Hm.
  unfold RXFS.handle, RXFS.next_id, RXFS.respond.
  cbn [snd RXFS.config]. fold c. fold id.
  rewrite constructor_eq. fold c. fold rel0. fold abs0.
  destruct (Config.autoindex c);
    [destruct (Fs.reachable fs (abs0 +:+ "/index.html"))|];
    cbn [andb bind emit ret fst snd app R.req R.rel R.abs R.id R.headers];
    rewrite Hm; cbn [negb]; unfold RXFS.sendStatus;
    cbn [bind emit ret fst snd app R.req R.rel R.abs R.id R.headers];
    eexists _, _; reflexivity.
Qed.

(** A failing listing of the requested directory leaves [sendDir] as an
    exception, before anything is written to the response. *)
Lemma sendDir_throws (this : RXFS.t) (r : R.t) (e : FsError) :
  fs_readdir fs (R.abs r) = inl e ->
  RXFS.sendDir rt fs this r = ([ReaddirSync (R.abs r)], inl (FsException e)).
Proof.
  intros H. unfold RXFS.sendDir, Fs.readdirSync. rewrite H. reflexivity.
Qed.

(** C3, amended.  A request whose method is not GET is answered with 405
    and a message that names the method, and handling returns normally.
    With autoindex off, handling makes no call into the file system.  With
    autoindex on it makes exactly one, before the response: the existence
    check of [index.html] inside the resolved path, made while the path is
    resolved; nothing is stat-ed, listed or read. *)
Theorem method_check (this : RXFS.t) (req : Request) :
  method req <> "GET" ->
  let c := RXFS.config this in
  let abs0 := R.absolute (Config.root c)
                (R.relative (Config.baseurl c) (R.decoded (url req))) in
  let m := snd (RXFS.handle rt fs this req) in
  outcome m = inr tt
  /\ Spec.responds (trace m) 405 ("method not allowed: " +:+ method req)
  /\ List.filter Spec.is_fs_access (trace m)
     = (if Config.autoindex c then [ExistsSync (abs0 +:+ "/index.html")] else [])
  /\ List.filter Spec.is_fs_access (Spec.before_response (trace m))
     = List.filter Spec.is_fs_access (trace m).
Proof.
  intros Hm c abs0 m.
  destruct (handle_other_method this req Hm) as (rel & abs & Heq).
  fold c in Heq. fold abs0 in Heq. subst m. rewrite Heq.
  unfold trace, outcome, Spec.responds. cbn [fst snd].
  split; [reflexivity|].
  destruct (Config.autoindex c);
    cbn [app List.filter Spec.is_fs_access Spec.is_response Spec.before_response];
    (split; [eexists; reflexivity | split; reflexivity]).
Qed.

End Dispatcher.

(** C3 as stated fails: with autoindex on, a POST is answered with 405 only
    after the resolver has asked the file system whether [/srv/index.html]
    exists. *)
Lemma method_check_counterexample :
  method (Sample.POST "/") <> "GET"
  /\ ~ Spec.rejected_before_fs Sample.runtime Sample.disk
        (Sample.server Sample.config_autoindex 0) (Sample.POST "/").
Proof.
  split; [discriminate|].
  intros (_ & _ & H). vm_compute in H. discriminate.
Qed.

Lemma method_check_witness :
  let m := snd (RXFS.handle Sample.runtime Sample.disk
                  (Sample.server Sample.config_autoindex 0) (Sample.POST "/docs")) in
  outcome m = inr tt
  /\ Spec.responds (trace m) 405 "method not allowed: POST"
  /\ List.filter Spec.is_fs_access (trace m) = [ExistsSync "/srv/docs/index.html"]
  /\ List.filter Spec.is_fs_access (Spec.before_response (trace m))
     = List.filter Spec.is_fs_access (trace m).
Proof.
  apply (method_check Sample.runtime Sample.disk
           (Sample.server Sample.config_autoindex 0) (Sample.POST "/docs")).
  discriminate.
Defined.

(** C2 fails on the code: a GET for a directory that can be stat-ed but not
    listed leaves [handle] with the exception of [readdirSync]; no response
    is written. *)
Lemma unreadable_directory_throws :
  let m := snd (RXFS.handle Sample.runtime Sample.disk
                  (Sample.server Sample.config 0) (Sample.GET "/private")) in
  outcome m = inl (FsException (Sample.eacces "/srv/private"))
  /\ trace m = [ Log "REQ #000 GET /private";
                 Debug ("url: /private" +:+ nl +:+ "rel: private" +:+ nl
                        +:+ "abs: /srv/private");
                 StatSync "/srv/private";
                 ReaddirSync "/srv/private" ].
Proof. vm_compute. split; reflexivity. Qed.

(** With the overrides in an object literal, for an extension that names
    nothing on [Object.prototype], the content type is the override when
    there is a non-empty one, else the built-in entry when there is a
    non-empty one, else [application/octet-stream]. *)
Lemma content_type_plain (c : Config.t) (ext : string) :
  Config.mimes_shape c = PlainShape ->
  assoc ext Object_prototype = None ->
  RXFS.content_type c ext
  = match Config.mimes c !! ext with
    | Some (String a s) => Str (String a s)
    | _ => match mimes !! ext with
           | Some (String a s) => Str (String a s)
           | _ => Str "application/octet-stream"
           end
    end.
Proof.
  intros Hs Hp. unfold RXFS.content_type, read, get. rewrite Hs, Hp.
  destruct (Config.mimes c !! ext) as [[|a s]|];
    destruct (mimes !! ext) as [[|b t]|]; reflexivity.
Qed.

(** C6 fails on the code: the extension [constructor] is a key of neither
    table, and the content type of [/srv/x.constructor] is the function
    [Object] that every object inherits under that name. *)
Lemma inherited_property_as_content_type :
  Config.mimes Sample.config !! "constructor" = None
  /\ mimes !! "constructor" = None
  /\ RXFS.content_type Sample.config "constructor" = Builtin "Object"
  /\ exists headers,
       In (WriteHead 200 headers)
          (trace (snd (RXFS.handle Sample.runtime Sample.disk
                         (Sample.server Sample.config 0)
                         (Sample.GET "/x.constructor"))))
       /\ headers !! "content-type" = Some (Builtin "Object").
Proof.
  split; [reflexivity|]. split; [vm_compute; reflexivity|].
  split; [vm_compute; reflexivity|].
  eexists. split.
  - vm_compute. repeat first [left; reflexivity | right].
  - vm_compute. reflexivity.
Qed.


(** * Request ids *)

Section Ids.

Lemma pretty_go_head (x : N) (s : string) :
  (0 < x)%N -> exists c t, pretty_N_go x s = String c t /\ c <> "0"%char.
Proof.
  revert s. induction (N.lt_wf_0 x) as [x _ IH]. intros s Hx.
  rewrite pretty_N_go_step by exact Hx.
  destruct (N.eq_dec (x / 10)%N 0%N) as [Hq|Hq].
  - rewrite Hq, pretty_N_go_0. eexists _, _. split; [reflexivity|].
    assert (x < 10)%N as Hlt by (apply N.div_small_iff in Hq; lia).
    rewrite N.mod_small by exact Hlt.
    assert (x = 1 \/ x = 2 \/ x = 3 \/ x = 4 \/ x = 5 \/ x = 6 \/ x = 7
            \/ x = 8 \/ x = 9)%N as Hc by lia.
    intuition (subst; discriminate).
  - apply IH; [apply N.div_lt; lia | now apply N.neq_0_lt_0].
Qed.

Lemma toString_head (n : N) :
  n <> 0%N -> exists c t, toString n = String c t /\ c <> "0"%char.
Proof.
  intros Hn. unfold toString, pretty, pretty_N.
  destruct (decide (n = 0%N)) as [|_]; [contradiction|].
  apply pretty_go_head. lia.
Qed.

Lemma strip_zeros_head (c : ascii) (t : string) :
  c <> "0"%char -> Spec.strip_zeros (String c t) = String c t.
Proof.
  intros Hc. cbn [Spec.strip_zeros].
  now rewrite (proj2 (Ascii.eqb_neq c "0") Hc).
Qed.

(** Padding adds zeros in front only, so the number can be read back. *)
Lemma strip_zeros_pad (n : N) :
  Spec.strip_zeros (padStart3 (toString n)) = toString n.
Proof.
  destruct (N.eq_dec n 0%N) as [->|Hn]; [reflexivity|].
  destruct (toString_head n Hn) as (c & t & -> & Hc).
  unfold padStart3.
  destruct (String.length (String c t)) as [|[|[|k]]];
    cbn [String.append Spec.strip_zeros Ascii.eqb Bool.eqb];
    now rewrite (proj2 (Ascii.eqb_neq c "0") Hc).
Qed.

Lemma id_inj (a b : N) :
  padStart3 (toString a) = padStart3 (toString b) -> a = b.
Proof.
  intros H. apply (f_equal Spec.strip_zeros) in H.
  rewrite !strip_zeros_pad in H. unfold toString in H.
  now apply pretty_N_inj in H.
Qed.

Lemma ids_from_NoDup (c : N) (n : nat) : List.NoDup (Spec.ids_from c n).
Proof.
  unfold Spec.ids_from. apply Finite.Injective_map_NoDup; [|apply List.seq_NoDup].
  intros j k H. apply id_inj in H. lia.
Qed.

Lemma ids_from_cons (c : N) (n : nat) :
  Spec.ids_from c (S n) = padStart3 (toString c) :: Spec.ids_from (c + 1) n.
Proof.
  unfold Spec.ids_from. cbn [seq map]. rewrite N.add_0_r. f_equal.
  rewrite <- seq_shift, map_map. apply map_ext. intros k.
  do 2 f_equal. lia.
Qed.

Lemma digits_pretty_go (x : N) (s : string) :
  Spec.digits s = true -> Spec.digits (pretty_N_go x s) = true.
Proof.
  revert s. induction (N.lt_wf_0 x) as [x _ IH]. intros s Hs.
  destruct (N.eq_dec x 0%N) as [->|Hx]; [now rewrite pretty_N_go_0|].
  rewrite pretty_N_go_step by lia.
  apply IH; [apply N.div_lt; lia|].
  cbn [Spec.digits]. rewrite Hs, andb_true_r.
  pose proof (N.mod_lt x 10 ltac:(lia)) as Hm.
  set (d := (x mod 10)%N) in *. clearbody d.
  assert (d = 0 \/ d = 1 \/ d = 2 \/ d = 3 \/ d = 4 \/ d = 5 \/ d = 6
          \/ d = 7 \/ d = 8 \/ d = 9)%N as Hc by lia.
  intuition (subst; reflexivity).
Qed.

Lemma digits_toString (n : N) : Spec.digits (toString n) = true.
Proof.
  unfold toString, pretty, pretty_N.
  destruct (decide (n = 0%N)); [reflexivity|].
  now apply digits_pretty_go.
Qed.

Lemma digits_id (n : N) : Spec.digits (padStart3 (toString n)) = true.
Proof.
  pose proof (digits_toString n) as H. unfold padStart3.
  destruct (String.length (toString n)) as [|[|[|k]]];
    cbn [String.append Spec.digits]; exact H.
Qed.

Lemma first_word_digits (id rest : string) :
  Spec.digits id = true -> Spec.first_word (id +:+ String " " rest) = id.
Proof.
  induction id as [|c t IH]; intros H; [reflexivity|].
  cbn [Spec.digits] in H. apply andb_true_iff in H as [Hc Ht].
  cbn [String.append Spec.first_word].
  destruct (Ascii.eqb_spec c " ") as [->|_]; [discriminate|].
  now rewrite IH.
Qed.

Variable rt : Runtime.
Variable fs : FileSystem.

Lemma emit_first {B} (ev : Event) (k : unit -> M B) :
  trace (bind (emit ev) k) = ev :: trace (k tt).
Proof. unfold bind, emit, trace. now destruct (k tt). Qed.

(** [handle] logs the request line first, with the id it was given. *)
Lemma respond_first (this : RXFS.t) (req : Request) (id : string) :
  exists rest,
    trace (RXFS.respond rt fs this req id)
    = Log ("REQ #" +:+ id +:+ " " +:+ method req +:+ " " +:+ url req) :: rest.
Proof.
  unfold RXFS.respond. rewrite emit_first. eexists. reflexivity.
Qed.

Lemma assigned_respond (this : RXFS.t) (req : Request) (id : string) :
  Spec.digits id = true ->
  Spec.assigned_id (RXFS.respond rt fs this req id) = Some id.
Proof.
  intros Hd. destruct (respond_first this req id) as [rest Hr].
  unfold Spec.assigned_id. rewrite Hr.
  change (startsWith ("REQ #" +:+ id +:+ " " +:+ method req +:+ " " +:+ url req)
            "REQ #") with true.
  change (slice 5 ("REQ #" +:+ id +:+ " " +:+ method req +:+ " " +:+ url req))
    with (id +:+ String " " (method req +:+ " " +:+ url req)).
  now rewrite first_word_digits.
Qed.

(** The request gets the value of the counter, printed and padded, and the
    instance it is handled by has the counter advanced. *)
Lemma handle_eq (this : RXFS.t) (req : Request) :
  RXFS.handle rt fs this req
  = (snd (RXFS.next_id this),
     RXFS.respond rt fs (snd (RXFS.next_id this)) req
       (padStart3 (toString (RXFS.reqcount this)))).
Proof. reflexivity. Qed.

Lemma handle_counter (this : RXFS.t) (req : Request) :
  (RXFS.reqcount this < 2 ^ 53)%N ->
  RXFS.reqcount (fst (RXFS.handle rt fs this req)) = (RXFS.reqcount this + 1)%N
  /\ RXFS.config (fst (RXFS.handle rt fs this req)) = RXFS.config this.
Proof.
  intros H. unfold RXFS.handle, RXFS.next_id, RXFS.increment. cbn [fst RXFS.reqcount].
  now rewrite (proj2 (N.ltb_lt _ _) H).
Qed.

Lemma handle_assigned (this : RXFS.t) (req : Request) :
  Spec.assigned_id (snd (RXFS.handle rt fs this req))
  = Some (padStart3 (toString (RXFS.reqcount this))).
Proof. rewrite handle_eq. cbn [snd]. apply assigned_respond, digits_id. Qed.

Lemma serve_ids (reqs : list Request) (this : RXFS.t) :
  (RXFS.reqcount this + N.of_nat (List.length reqs) <= 2 ^ 53)%N ->
  let served := snd (RXFS.serve rt fs this reqs) in
  let final := fst (RXFS.serve rt fs this reqs) in
  map Spec.assigned_id served
  = map Some (Spec.ids_from (RXFS.reqcount this) (List.length served))
  /\ RXFS.reqcount final = (RXFS.reqcount this + N.of_nat (List.length served))%N
  /\ List.length served <= List.length reqs.
Proof.
  revert this. induction reqs as [|req rest IH]; intros this Hc.
  - cbn. repeat split; [lia | lia].
  - cbn [RXFS.serve].
    pose proof (handle_counter this req ltac:(cbn [List.length] in Hc; lia)) as [Hn _].
    pose proof (handle_assigned this req) as Ha.
    destruct (RXFS.handle rt fs this req) as [this' m] eqn:Hh.
    cbn [fst snd] in Hn, Ha.
    destruct (outcome m).
    + cbn [fst snd List.length map]. rewrite ids_from_cons, Ha. cbn.
      repeat split; [lia | lia].
    + specialize (IH this' ltac:(cbn [List.length] in Hc; lia)).
      destruct (RXFS.serve rt fs this' rest) as [final served].
      cbn [fst snd] in *. destruct IH as (Hids & Hfin & Hlen).
      cbn [List.length map]. rewrite ids_from_cons, Ha.
      repeat split.
      * cbn [map]. f_equal. rewrite Hids. now rewrite Hn.
      * lia.
      * lia.
Qed.

Lemma NoDup_map_Some (l : list string) :
  List.NoDup l -> List.NoDup (map Some l).
Proof.
  intros H. apply Finite.Injective_map_NoDup; [|exact H].
  now intros a b [= ->].
Qed.

(** C9, amended.  Over any sequence of requests served by one instance that
    keeps the counter within 2^53, the range in which a number counts
    exactly: every request is given the value the counter has when it
    arrives, printed in decimal and padded to three digits, and that id is
    in the line logged for it; the ids are the counter values one after the
    other, no two requests get the same id, and the counter moves by one
    per request. *)
Theorem request_ids_amended (reqs : list Request) (this : RXFS.t) :
  (RXFS.reqcount this + N.of_nat (List.length reqs) <= 2 ^ 53)%N ->
  Spec.sequential_ids rt fs this reqs
  /\ (forall this' req, (RXFS.reqcount this' < 2 ^ 53)%N ->
        let id := padStart3 (toString (RXFS.reqcount this')) in
        let next := fst (RXFS.handle rt fs this' req) in
        snd (RXFS.handle rt fs this' req) = RXFS.respond rt fs next req id
        /\ Spec.assigned_id (snd (RXFS.handle rt fs this' req)) = Some id
        /\ RXFS.reqcount next = (RXFS.reqcount this' + 1)%N).
Proof.
  intros Hc. split.
  - unfold Spec.sequential_ids. cbv zeta.
    destruct (serve_ids reqs this Hc) as (Hids & Hfin & _). cbv zeta in Hids, Hfin.
    split; [exact Hids|]. split; [|exact Hfin].
    rewrite Hids. apply NoDup_map_Some, ids_from_NoDup.
  - intros this' req Hlt. cbv zeta. split; [reflexivity|].
    split; [apply handle_assigned | now apply handle_counter].
Qed.

End Ids.

(** C9 fails as stated: a number cannot count past 2^53, where adding one
    gives 2^53 again.  From there on every request gets the same id. *)
Lemma request_ids_counterexample :
  let this := Sample.server Sample.config (2 ^ 53) in
  let reqs := [Sample.GET "/nothing"; Sample.GET "/nothing"] in
  map Spec.assigned_id (snd (RXFS.serve Sample.runtime Sample.disk this reqs))
  = [Some "9007199254740992"; Some "9007199254740992"]
  /\ ~ Spec.sequential_ids Sample.runtime Sample.disk this reqs.
Proof.
  cbv zeta. split; [vm_compute; reflexivity|].
  intros (_ & Hnd & _).
  assert (map Spec.assigned_id
            (snd (RXFS.serve Sample.runtime Sample.disk
                    (Sample.server Sample.config (2 ^ 53))
                    [Sample.GET "/nothing"; Sample.GET "/nothing"]))
          = [Some "9007199254740992"; Some "9007199254740992"]) as Heq
    by (vm_compute; reflexivity).
  rewrite Heq in Hnd. inversion Hnd as [|x l Hin _]. apply Hin. now left.
Qed.

Lemma request_ids_amended_witness :
  map Spec.assigned_id
    (snd (RXFS.serve Sample.runtime Sample.disk (Sample.server Sample.config 98)
            [Sample.GET "/"; Sample.POST "/"; Sample.GET "/docs"; Sample.GET "/nothing"]))
  = [Some "098"; Some "099"; Some "100"; Some "101"]
  /\ RXFS.reqcount
       (fst (RXFS.serve Sample.runtime Sample.disk (Sample.server Sample.config 98)
               [Sample.GET "/"; Sample.POST "/"; Sample.GET "/docs";
                Sample.GET "/nothing"]))
     = 102%N.
Proof.
  destruct (request_ids_amended Sample.runtime Sample.disk
    [Sample.GET "/"; Sample.POST "/"; Sample.GET "/docs"; Sample.GET "/nothing"]
    (Sample.server Sample.config 98) ltac:(vm_compute; discriminate))
    as ((Hids & _ & Hfin) & _).
  split; [rewrite Hids | rewrite Hfin]; vm_compute; reflexivity.
Defined.
(** * Configuration *)

Section ConfigFacts.

Import Config.

(** Decide which of the recognised names [key] is. *)
Ltac key_cases key :=
  unfold assign;
  destruct (key =? "root")%string eqn:?;
  [|destruct (key =? "port")%string eqn:?;
  [|destruct (key =? "baseurl")%string eqn:?;
  [|destruct (key =? "autoindex")%string eqn:?;
  [|destruct (key =? "servedir")%string eqn:?;
  [|destruct (key =? "headers")%string eqn:?;
  [|destruct (key =? "mimes")%string eqn:?;
  [|destruct (key =? "logfile")%string eqn:?;
  [|destruct (key =? "verbose")%string eqn:?;
  [|destruct (key =? "debug")%string eqn:?]]]]]]]]].

Ltac key_is key name :=
  match goal with
  | H : (key =? name)%string = true |- _ => apply String.eqb_eq in H; subst key
  end.

Lemma assign_autoindex (this this' : fields) (b : bool) :
  assign this "autoindex" (VBool b) = inr this' ->
  f_autoindex this' = b /\ f_servedir this' = f_servedir this.
Proof. destruct this. cbn. intros [= <-]. now split. Qed.

Lemma assign_servedir (this this' : fields) (b : bool) :
  assign this "servedir" (VBool b) = inr this' ->
  f_servedir this' = b /\ f_autoindex this' = f_autoindex this.
Proof. destruct this. cbn. intros [= <-]. now split. Qed.

(** Another option leaves both flags as they are. *)
Lemma assign_other (this this' : fields) (key : string) (v : value) :
  key <> "autoindex" -> key <> "servedir" ->
  assign this key v = inr this' ->
  f_autoindex this' = f_autoindex this /\ f_servedir this' = f_servedir this.
Proof.
  intros Ha Hs. destruct this.
  key_cases key; try discriminate;
    try (key_is key "autoindex"; contradiction);
    try (key_is key "servedir"; contradiction);
    destruct v; cbn; intros [= <-]; now split.
Qed.

Lemma merge_other (opts : list (string * value)) (this this' : fields) :
  ~ In "autoindex" (map fst opts) -> ~ In "servedir" (map fst opts) ->
  merge this opts = inr this' ->
  f_autoindex this' = f_autoindex this /\ f_servedir this' = f_servedir this.
Proof.
  revert this. induction opts as [|[k v] rest IH]; intros this Ha Hs.
  - cbn. intros [= <-]. now split.
  - cbn [merge]. destruct (assign this k v) as [e|mid] eqn:Hk; [discriminate|].
    intros Hm. cbn [map fst In] in Ha, Hs.
    apply assign_other in Hk as [Hk1 Hk2]; [|intros ->; tauto..].
    apply IH in Hm as [Hm1 Hm2]; [|tauto..].
    split; congruence.
Qed.

Lemma merge_autoindex_only (opts : list (string * value)) (this this' : fields) :
  List.NoDup (map fst opts) -> In ("autoindex", VBool true) opts ->
  ~ In "servedir" (map fst opts) ->
  merge this opts = inr this' ->
  f_autoindex this' = true /\ f_servedir this' = f_servedir this.
Proof.
  revert this. induction opts as [|[k v] rest IH]; intros this Hnd Hin Hs; [easy|].
  cbn [merge]. destruct (assign this k v) as [e|mid] eqn:Hk; [discriminate|].
  intros Hm. cbn [map fst] in Hnd, Hs. inversion Hnd as [|? ? Hfresh Hnd']; subst.
  cbn [In] in Hs. destruct Hin as [[= -> ->]|Hin].
  - apply assign_autoindex in Hk as [Hk1 Hk2].
    apply merge_other in Hm as [Hm1 Hm2]; [|tauto..].
    split; congruence.
  - assert (k <> "autoindex") as Hka.
    { intros ->. apply Hfresh. now apply (in_map fst) in Hin. }
    apply assign_other in Hk as [Hk1 Hk2]; [|tauto..].
    apply IH in Hm as [Hm1 Hm2]; [|tauto..].
    split; congruence.
Qed.

Lemma merge_servedir_only (opts : list (string * value)) (this this' : fields) :
  List.NoDup (map fst opts) -> In ("servedir", VBool true) opts ->
  ~ In "autoindex" (map fst opts) ->
  merge this opts = inr this' ->
  f_servedir this' = true /\ f_autoindex this' = f_autoindex this.
Proof.
  revert this. induction opts as [|[k v] rest IH]; intros this Hnd Hin Hs; [easy|].
  cbn [merge]. destruct (assign this k v) as [e|mid] eqn:Hk; [discriminate|].
  intros Hm. cbn [map fst] in Hnd, Hs. inversion Hnd as [|? ? Hfresh Hnd']; subst.
  cbn [In] in Hs. destruct Hin as [[= -> ->]|Hin].
  - apply assign_servedir in Hk as [Hk1 Hk2].
    apply merge_other in Hm as [Hm1 Hm2]; [|tauto..].
    split; congruence.
  - assert (k <> "servedir") as Hka.
    { intros ->. apply Hfresh. now apply (in_map fst) in Hin. }
    apply assign_other in Hk as [Hk1 Hk2]; [|tauto..].
    apply IH in Hm as [Hm1 Hm2]; [|tauto..].
    split; congruence.
Qed.

(** After the merging loop both fields hold what the options say. *)
Lemma merge_both_flags (opts : list (string * value)) (this this' : fields) :
  Spec.both_flags opts ->
  merge this opts = inr this' ->
  f_autoindex this' = true /\ f_servedir this' = true.
Proof.
  intros (Hnd & Ha & Hs). revert this.
  induction opts as [|[k v] rest IH]; intros this; [easy|].
  cbn [merge]. destruct (assign this k v) as [e|mid] eqn:Hk; [discriminate|].
  intros Hm. cbn [map fst] in Hnd. inversion Hnd as [|? ? Hfresh Hnd']; subst.
  destruct Ha as [[= -> ->]|Ha]; destruct Hs as [[= ]|Hs].
  - apply assign_autoindex in Hk as [Hk1 Hk2].
    apply merge_servedir_only in Hm as [Hm1 Hm2]; [| assumption..].
    split; congruence.
  - subst. apply assign_servedir in Hk as [Hk1 Hk2].
    apply merge_autoindex_only in Hm as [Hm1 Hm2]; [| assumption..].
    split; congruence.
  - now apply (IH Hnd' Ha Hs mid).
Qed.

(** No configuration with both flags leaves the constructor. *)
Lemma constructed_exclusive (rt : Runtime) (opts : list (string * value)) (c : t) :
  constructor rt opts = inr c -> autoindex c && servedir c = false.
Proof.
  unfold constructor.
  destruct (merge defaults opts) as [e|this]; [discriminate|].
  destruct (negb (truthy (f_root this))); [discriminate|].
  destruct (f_port this) as [p|]; [|discriminate].
  destruct ((p <? 1)%Z || (p >? 65535)%Z); [discriminate|].
  destruct (f_autoindex this && f_servedir this) eqn:Hx; [discriminate|].
  destruct (check_values "headers" (f_headers this)); [discriminate|].
  destruct (check_values "mimes" (f_mimes this)); [discriminate|].
  intros [= <-]. exact Hx.
Qed.

End ConfigFacts.

(** C7.  When the options set both [autoindex] and [servedir] to true, the
    constructor of [Config] throws for every such input; [new RXFS(opts)]
    ends with that error before any other step (nothing is probed, nothing
    listens); and no configuration with both flags true is ever built. *)
Theorem exclusive_flags (rt : Runtime) (opts : list (string * value)) :
  Spec.both_flags opts ->
  (exists e : Config.ConfigError,
     Config.constructor rt opts = inl e
     /\ forall fs, RXFS.constructor rt fs opts = ([], inl (ConfigException e)))
  /\ (forall opts' c, Config.constructor rt opts' = inr c ->
        Config.autoindex c && Config.servedir c = false).
Proof.
  intros Hb. split; [|intros opts' c; apply constructed_exclusive].
  destruct (Config.constructor rt opts) as [e|c] eqn:Hc.
  - exists e. split; [reflexivity|]. intros fs.
    unfold RXFS.constructor. now rewrite Hc.
  - exfalso. pose proof (constructed_exclusive rt opts c Hc) as Hx.
    unfold Config.constructor in Hc.
    destruct (Config.merge Config.defaults opts) as [e|this] eqn:Hm; [discriminate|].
    destruct (merge_both_flags opts _ _ Hb Hm) as [Ha Hs].
    destruct (negb (truthy (Config.f_root this))); [discriminate|].
    destruct (Config.f_port this) as [p|]; [|discriminate].
    destruct ((p <? 1)%Z || (p >? 65535)%Z); [discriminate|].
    rewrite Ha, Hs in Hc. discriminate.
Qed.

Lemma exclusive_flags_witness :
  Config.constructor Sample.runtime
    [("port", VNumber (Int 8080)); ("autoindex", VBool true); ("servedir", VBool true)]
  = inl Config.MutuallyExclusive.
Proof.
  destruct (exclusive_flags Sample.runtime
    [("port", VNumber (Int 8080)); ("autoindex", VBool true); ("servedir", VBool true)])
    as [(e & He & _) _].
  - split; [|split].
    + repeat constructor; cbn; intuition discriminate.
    + cbn. tauto.
    + cbn. tauto.
  - rewrite He. vm_compute in He. now injection He as <-.
Defined.

(** * The listing renderer *)

Section Bytes.

Lemma toString_digit (d : N) :
  (d < 10)%N -> toString d = String (pretty_N_char d) EmptyString.
Proof.
  intros H.
  assert (d = 0 \/ d = 1 \/ d = 2 \/ d = 3 \/ d = 4 \/ d = 5 \/ d = 6 \/ d = 7
          \/ d = 8 \/ d = 9)%N as Hc by lia.
  intuition (subst; reflexivity).
Qed.

Lemma digit_char (d : N) :
  (d < 10)%N ->
  Spec.is_digit (pretty_N_char d) = true /\ Spec.digit_value (pretty_N_char d) = d.
Proof.
  intros H.
  assert (d = 0 \/ d = 1 \/ d = 2 \/ d = 3 \/ d = 4 \/ d = 5 \/ d = 6 \/ d = 7
          \/ d = 8 \/ d = 9)%N as Hc by lia.
  intuition (subst; split; reflexivity).
Qed.

(** The last two decimal digits of a number. *)
Lemma last_two_digits (n : N) :
  (n mod 100 / 10 < 10
   /\ n mod 10 < 10
   /\ n mod 100 = 10 * (n mod 100 / 10) + n mod 10)%N.
Proof.
  change 100%N with (10 * 10)%N. rewrite N.Div0.mod_mul_r.
  pose proof (N.mod_lt n 10 ltac:(discriminate)) as Ha.
  pose proof (N.mod_lt (n / 10) 10 ltac:(discriminate)) as Hq.
  set (a := (n mod 10)%N) in *. set (q := ((n / 10) mod 10)%N) in *.
  clearbody a q.
  assert ((a + 10 * q) / 10 = q)%N as ->.
  { symmetry. apply (N.div_unique _ _ q a); lia. }
  lia.
Qed.

(** [toFixed(2)] prints the hundredths nearest to the quotient. *)
Lemma toFixed2_spec (num den : N) (unit : string) :
  den <> 0%N ->
  let n := ((200 * num + den) / (2 * den))%N in
  Spec.two_decimals (toFixed2 num den +:+ " " +:+ unit) n unit
  /\ Spec.nearest_hundredth num den n.
Proof.
  intros Hden n. split.
  - destruct (last_two_digits n) as (H1 & H2 & H3).
    exists (pretty_N_char (n mod 100 / 10)), (pretty_N_char (n mod 10)).
    destruct (digit_char _ H1) as [Hd1 Hv1]. destruct (digit_char _ H2) as [Hd2 Hv2].
    split; [|split; [exact Hd1 | split; [exact Hd2 | now rewrite Hv1, Hv2]]].
    unfold toFixed2. fold n.
    rewrite (toString_digit _ H1), (toString_digit _ H2).
    now rewrite !append_assoc.
  - unfold Spec.nearest_hundredth.
    pose proof (N.div_mod (200 * num + den) (2 * den) ltac:(lia)) as H1.
    pose proof (N.mod_lt (200 * num + den) (2 * den) ltac:(lia)) as H2.
    fold n in H1. set (r := ((200 * num + den) mod (2 * den))%N) in *.
    clearbody n r. nia.
Qed.

End Bytes.

(** C8.  [formatBytes] gives ["512 B"], ["2.00 K"], ["1.00 M"] and
    ["1.00 G"] on 512, 2048, 1048576 and 1073741824; below 1024 it prints
    the count and the unit B; from 1024 on it prints the quotient by 1024,
    1024^2 or 1024^3 (units K, M, G) rounded to the nearest hundredth, with
    exactly two digits after the point. *)
Theorem formatBytes_spec :
  formatBytes 512 = "512 B"
  /\ formatBytes 2048 = "2.00 K"
  /\ formatBytes 1048576 = "1.00 M"
  /\ formatBytes 1073741824 = "1.00 G"
  /\ (forall b, (b < 1024)%N -> formatBytes b = toString b +:+ " B")
  /\ (forall b, (1024 <= b)%N ->
        exists n unit scale,
          Spec.two_decimals (formatBytes b) n unit
          /\ Spec.nearest_hundredth b scale n
          /\ ((unit = "K" /\ scale = 1024 /\ b < 1024 * 1024)
              \/ (unit = "M" /\ scale = 1024 * 1024
                  /\ 1024 * 1024 <= b < 1024 * 1024 * 1024)
              \/ (unit = "G" /\ scale = 1024 * 1024 * 1024
                  /\ 1024 * 1024 * 1024 <= b))%N).
Proof.
  split; [reflexivity|]. split; [reflexivity|].
  split; [reflexivity|]. split; [reflexivity|]. split.
  - intros b Hb. unfold formatBytes. now rewrite (proj2 (N.ltb_lt _ _) Hb).
  - intros b Hb. unfold formatBytes.
    rewrite (proj2 (N.ltb_ge _ _) Hb).
    destruct (N.ltb_spec b (1024 * 1024)) as [HK|HK];
      [|destruct (N.ltb_spec b (1024 * 1024 * 1024)) as [HM|HM]].
    + destruct (toFixed2_spec b 1024 "K" ltac:(discriminate)) as [H1 H2].
      eexists _, "K", 1024%N. split; [exact H1|]. split; [exact H2|].
      left. repeat split; lia.
    + destruct (toFixed2_spec b (1024 * 1024) "M" ltac:(discriminate)) as [H1 H2].
      eexists _, "M", (1024 * 1024)%N. split; [exact H1|]. split; [exact H2|].
      right. left. repeat split; lia.
    + destruct (toFixed2_spec b (1024 * 1024 * 1024) "G" ltac:(discriminate))
        as [H1 H2].
      eexists _, "G", (1024 * 1024 * 1024)%N. split; [exact H1|]. split; [exact H2|].
      right. right. repeat split; lia.
Qed.

Section Listing.

Variable rt : Runtime.

Lemma append_empty_r (s : string) : s +:+ EmptyString = s.
Proof. induction s as [|c s IH]; [reflexivity|]. cbn. now rewrite IH. Qed.

Lemma rows_fold (base relpath : string) (items : list Item) (acc : Rows) :
  fold_left (add_item rt base relpath) items acc
  = {| dirs := dirs acc +:+ Spec.dir_rows rt base relpath items;
       files := files acc +:+ Spec.file_rows rt base relpath items;
       etc := etc acc |}.
Proof.
  revert acc. induction items as [|item rest IH]; intros acc.
  - cbn. rewrite !append_empty_r. now destruct acc.
  - cbn [fold_left]. rewrite IH.
    destruct item as [name size time | name [n|] time | name];
      cbn [add_item dirs files etc item_name Spec.dir_rows Spec.file_rows];
      fold (Spec.href_of base relpath name);
      now rewrite ?append_assoc.
Qed.

(** The directory rows come first and the file rows second, each group in
    the order of the listing; the third group is always empty. *)
Lemma rows_spec (base relpath : string) (items : list Item) :
  rows rt base relpath items
  = {| dirs := Spec.dir_rows rt base relpath items;
       files := Spec.file_rows rt base relpath items;
       etc := EmptyString |}.
Proof. unfold rows. now rewrite rows_fold. Qed.

Lemma rows_without_etc (base relpath : string) (items : list Item) :
  rows rt base relpath items
  = rows rt base relpath (List.filter (fun i => negb (Spec.is_etc i)) items).
Proof.
  rewrite !rows_spec. f_equal.
  - induction items as [|[name size time | name [n|] time | name] rest IH];
      cbn; now rewrite ?IH.
  - induction items as [|[name size time | name [n|] time | name] rest IH];
      cbn; now rewrite ?IH.
Qed.

End Listing.

(** C5 fails on the code: an entry that is neither a file nor a directory
    is collected by [sendDir] and gets no row.  The page is the one of the
    listing without such entries, whatever the listing; and the listing of
    [/srv], which has the socket [run.sock], names [docs] and [index.html]
    and does not name [run.sock]. *)
Lemma other_entries_have_no_row :
  (forall rt c relpath items,
     dirview rt c relpath items
     = dirview rt c relpath (List.filter (fun i => negb (Spec.is_etc i)) items))
  /\ (forall rt base relpath items, etc (rows rt base relpath items) = EmptyString)
  /\ exists body,
       In (End_ (Some body))
          (trace (snd (RXFS.handle Sample.runtime Sample.disk
                         (Sample.server Sample.config 0) (Sample.GET "/"))))
       /\ Spec.contains "index.html" body = true
       /\ Spec.contains "docs" body = true
       /\ Spec.contains "run.sock" body = false.
Proof.
  split.
  { intros rt c relpath items. unfold dirview. now rewrite rows_without_etc. }
  split.
  { intros rt base relpath items. now rewrite rows_spec. }
  eexists. split.
  - vm_compute. repeat first [left; reflexivity | right].
  - vm_compute. repeat split.
Qed.

(** * Further properties: configuration *)

Section NormalForm.

Lemma collapse_head (c : ascii) (t : string) :
  exists u, collapse_slashes (String c t) = String c u.
Proof.
  revert c. induction t as [|c' t IH]; intros c; [now exists EmptyString|].
  rewrite collapse_cons.
  destruct (Ascii.eqb c "/" && Ascii.eqb c' "/") eqn:Hcc; [|eauto].
  apply andb_true_iff in Hcc as [Hc Hc'].
  apply Ascii.eqb_eq in Hc as ->. apply Ascii.eqb_eq in Hc' as ->.
  apply IH.
Qed.

Lemma collapse_is_collapsed (s : string) :
  Spec.no_double_slash (collapse_slashes s) = true.
Proof.
  induction s as [|c t IH]; [reflexivity|].
  destruct t as [|c' t']; [reflexivity|].
  rewrite collapse_cons.
  destruct (Ascii.eqb c "/" && Ascii.eqb c' "/") eqn:Hcc; [exact IH|].
  destruct (collapse_head c' t') as [u Hu]. rewrite Hu in *.
  now rewrite no_double_slash_cons, Hcc, IH.
Qed.

Lemma no_double_tail (c : ascii) (t : string) :
  Spec.no_double_slash (String c t) = true -> Spec.no_double_slash t = true.
Proof.
  destruct t as [|c' t']; [reflexivity|].
  rewrite no_double_slash_cons. intros H. now apply andb_true_iff in H as [_ H].
Qed.

Lemma strip_leading_normal (s : string) :
  Spec.no_double_slash s = true ->
  Spec.no_double_slash (strip_leading_slash s) = true
  /\ startsWith (strip_leading_slash s) "/" = false.
Proof.
  destruct s as [|c t]; [now split|]. intros H. cbn [strip_leading_slash].
  destruct (Ascii.eqb c "/") eqn:Hc.
  - split; [now apply no_double_tail in H|].
    destruct t as [|c' t']; [reflexivity|].
    rewrite no_double_slash_cons, Hc in H. rewrite startsWith_slash.
    destruct (Ascii.eqb c' "/"); [discriminate | reflexivity].
  - split; [exact H|]. now rewrite startsWith_slash.
Qed.

Lemma strip_trailing_normal (s : string) :
  Spec.no_double_slash s = true ->
  Spec.no_double_slash (strip_trailing_slash s) = true
  /\ Spec.ends_with_slash (strip_trailing_slash s) = false
  /\ (startsWith s "/" = false -> startsWith (strip_trailing_slash s) "/" = false).
Proof.
  induction s as [|c t IH]; [now repeat split|].
  destruct t as [|c' t'].
  - intros _. cbn [strip_trailing_slash].
    destruct (Ascii.eqb c "/") eqn:Hc; [now repeat split|].
    repeat split; [exact Hc | now intros].
  - intros H. rewrite strip_trailing_cons.
    pose proof (no_double_tail _ _ H) as Ht.
    destruct (IH Ht) as (IH1 & IH2 & _).
    rewrite no_double_slash_cons in H. apply andb_true_iff in H as [Hcc _].
    destruct (strip_trailing_slash (String c' t')) as [|d u] eqn:Hs.
    + (* the tail was a single slash *)
      assert (Ascii.eqb c' "/" = true) as Hc'.
      { destruct t' as [|c'' t'']; cbn [strip_trailing_slash] in Hs.
        - destruct (Ascii.eqb c' "/"); [reflexivity | discriminate].
        - discriminate. }
      rewrite Hc', andb_true_r in Hcc. apply negb_true_iff in Hcc.
      repeat split; [exact Hcc | now rewrite !startsWith_slash].
    + assert (d = c') as ->.
      { destruct t' as [|c'' t'']; cbn [strip_trailing_slash] in Hs.
        - destruct (Ascii.eqb c' "/"); [discriminate | now injection Hs].
        - now injection Hs. }
      repeat split.
      * rewrite no_double_slash_cons. now rewrite Hcc, IH1.
      * exact IH2.
      * now rewrite !startsWith_slash.
Qed.

(** The three replacements that normalise [baseurl] and [rel] always end in
    a normal form. *)
Lemma normalised (s : string) :
  Props.normal (strip_trailing_slash (strip_leading_slash (collapse_slashes s)))
  = true.
Proof.
  pose proof (collapse_is_collapsed s) as H0.
  destruct (strip_leading_normal _ H0) as [H1 H2].
  destruct (strip_trailing_normal _ H1) as (H3 & H4 & H5).
  unfold Props.normal. now rewrite (H5 H2), H4, H3.
Qed.

(** A normal form is a fixed point of the three replacements. *)
Lemma normal_fixed (s : string) :
  Props.normal s = true ->
  strip_trailing_slash (strip_leading_slash (collapse_slashes s)) = s.
Proof.
  unfold Props.normal. intros H.
  apply andb_true_iff in H as [H Hnd]. apply andb_true_iff in H as [Hl He].
  apply negb_true_iff in Hl, He.
  rewrite (collapse_no_double _ Hnd).
  destruct s as [|c t]; [reflexivity|].
  rewrite startsWith_slash in Hl. cbn [strip_leading_slash]. rewrite Hl.
  now apply strip_trailing_id.
Qed.

End NormalForm.

Section ConfigInvariants.

Import Config.

Variable rt : Runtime.

(** Everything the constructor checks, read off a successful run. *)
Lemma constructor_inv (opts : list (string * value)) (c : t) :
  constructor rt opts = inr c ->
  exists this,
    merge defaults opts = inr this
    /\ truthy (f_root this) = true
    /\ f_port this = Int (port c)
    /\ (1 <= port c <= 65535)%Z
    /\ baseurl c = normalize_baseurl (f_baseurl this)
    /\ root c = resolve rt (f_root this)
    /\ check_values "headers" (f_headers this) = inr (headers c)
    /\ check_values "mimes" (f_mimes this) = inr (mimes c).
Proof.
  unfold constructor.
  destruct (merge defaults opts) as [e|this]; [discriminate|].
  destruct (truthy (f_root this)) eqn:Hroot; [|discriminate]. cbn [negb].
  destruct (f_port this) as [p|] eqn:Hport; [|discriminate].
  destruct ((p <? 1)%Z || (p >? 65535)%Z) eqn:Hp; [discriminate|].
  destruct (f_autoindex this && f_servedir this); [discriminate|].
  destruct (check_values "headers" (f_headers this)) as [|h] eqn:Hh; [discriminate|].
  destruct (check_values "mimes" (f_mimes this)) as [|m] eqn:Hmi; [discriminate|].
  intros [= <-]. exists this. cbn.
  apply orb_false_iff in Hp as [Hlo Hhi].
  apply Z.ltb_ge in Hlo. rewrite Z.gtb_ltb in Hhi. apply Z.ltb_ge in Hhi.
  repeat split; try reflexivity; assumption.
Qed.

(** The merging loop fails as soon as one option is not acceptable. *)
Lemma assign_rejects (this : fields) (key : string) (v : value) :
  Props.default_typeof key <> Some (typeof v) ->
  exists e, assign this key v = inl e.
Proof.
  unfold Props.default_typeof, assign. destruct this.
  repeat match goal with
         | |- context [(key =? ?name)%string] =>
             destruct (key =? name)%string
         end;
    intros H; destruct v; cbn in *; try congruence; eauto.
Qed.

Lemma merge_rejects (opts : list (string * value)) (this : fields)
    (key : string) (v : value) :
  In (key, v) opts ->
  Props.default_typeof key <> Some (typeof v) ->
  exists e, merge this opts = inl e.
Proof.
  revert this. induction opts as [|[k w] rest IH]; intros this Hin Hbad; [easy|].
  cbn [merge]. destruct Hin as [[= -> ->]|Hin].
  - destruct (assign_rejects this key v Hbad) as [e ->]. eauto.
  - destruct (assign this k w) as [e|mid]; [eauto|]. now apply IH.
Qed.

Lemma assign_keeps_port (this this' : fields) (key : string) (v : value) :
  key <> "port" -> assign this key v = inr this' -> f_port this' = f_port this.
Proof.
  intros Hk. unfold assign. destruct this.
  destruct (key =? "root")%string;
    [destruct v; cbn; try discriminate; now intros [= <-]|].
  destruct (key =? "port")%string eqn:Hp;
    [apply String.eqb_eq in Hp; contradiction|].
  repeat match goal with
         | |- context [(key =? ?name)%string] =>
             destruct (key =? name)%string
         end;
    destruct v; cbn; try discriminate; now intros [= <-].
Qed.

Lemma merge_keeps_port (opts : list (string * value)) (this this' : fields) :
  ~ In "port" (map fst opts) ->
  merge this opts = inr this' -> f_port this' = f_port this.
Proof.
  revert this. induction opts as [|[k v] rest IH]; intros this Hk.
  - cbn. congruence.
  - cbn [merge]. destruct (assign this k v) as [e|mid] eqn:Ha; [discriminate|].
    intros Hm. cbn [map fst In] in Hk.
    apply assign_keeps_port in Ha; [|intros ->; tauto].
    apply IH in Hm; [congruence | tauto].
Qed.

Lemma merge_port (opts : list (string * value)) (this this' : fields) (n : number) :
  List.NoDup (map fst opts) -> In ("port", VNumber n) opts ->
  merge this opts = inr this' -> f_port this' = n.
Proof.
  revert this. induction opts as [|[k v] rest IH]; intros this Hnd Hin; [easy|].
  cbn [merge]. destruct (assign this k v) as [e|mid] eqn:Ha; [discriminate|].
  intros Hm. cbn [map fst] in Hnd. inversion Hnd as [|? ? Hfresh Hnd']; subst.
  destruct Hin as [[= -> ->]|Hin].
  - apply merge_keeps_port in Hm; [|exact Hfresh].
    destruct this. cbn in Ha. injection Ha as <-. exact Hm.
  - now apply (IH mid).
Qed.

Lemma constructed_baseurl_normal (opts : list (string * value)) (c : t) :
  constructor rt opts = inr c ->
  Props.normal (baseurl c) = true /\ normalize_baseurl (baseurl c) = baseurl c.
Proof.
  intros H. destruct (constructor_inv opts c H) as (this & _ & _ & _ & _ & Hb & _).
  rewrite Hb. unfold normalize_baseurl. split.
  - apply normalised.
  - apply normal_fixed, normalised.
Qed.

End ConfigInvariants.

(** X1.  The base URL of every configuration the constructor builds is in
    normal form: it has no slash in front, none at the end and no two
    slashes in a row; normalising it once more changes nothing. *)
Theorem constructed_baseurl (rt : Runtime) (opts : list (string * value))
    (c : Config.t) :
  Config.constructor rt opts = inr c ->
  Props.normal (Config.baseurl c) = true
  /\ Config.normalize_baseurl (Config.baseurl c) = Config.baseurl c.
Proof.
  apply constructed_baseurl_normal.
Qed.

Lemma constructed_baseurl_witness :
  exists c,
    Config.constructor Sample.runtime [("baseurl", VString "//blog///v2/")] = inr c
    /\ Config.baseurl c = "blog/v2"
    /\ Props.normal (Config.baseurl c) = true.
Proof.
  destruct (Config.constructor Sample.runtime [("baseurl", VString "//blog///v2/")])
    as [e|c] eqn:Hc; [vm_compute in Hc; discriminate|].
  exists c. split; [reflexivity|]. split.
  - vm_compute in Hc. now injection Hc as <-.
  - exact (proj1 (constructed_baseurl _ _ _ Hc)).
Defined.

(** X2.  The port of every configuration the constructor builds is an
    integer from 1 to 65535, and it is the [port] option when the options
    have one: a port option that is not an integer, or is outside that
    range, never yields a configuration. *)
Theorem constructed_port (rt : Runtime) (opts : list (string * value))
    (c : Config.t) :
  Config.constructor rt opts = inr c ->
  (1 <= Config.port c <= 65535)%Z
  /\ (forall n, List.NoDup (map fst opts) -> In ("port", VNumber n) opts ->
        n = Int (Config.port c)).
Proof.
  intros H.
  destruct (constructor_inv rt opts c H) as (this & Hm & _ & Hp & Hr & _).
  split; [exact Hr|]. intros n Hnd Hin.
  rewrite <- Hp. symmetry. exact (merge_port opts _ _ n Hnd Hin Hm).
Qed.

Lemma constructed_port_witness :
  exists c,
    Config.constructor Sample.runtime [("port", VNumber (Int 8080))] = inr c
    /\ (1 <= Config.port c <= 65535)%Z
    /\ Int 8080 = Int (Config.port c).
Proof.
  destruct (Config.constructor Sample.runtime [("port", VNumber (Int 8080))])
    as [e|c] eqn:Hc; [vm_compute in Hc; discriminate|].
  exists c. split; [reflexivity|].
  destruct (constructed_port _ _ _ Hc) as [Hr Hn]. split; [exact Hr|].
  apply Hn; [repeat constructor; cbn; tauto | cbn; tauto].
Defined.

(** X3.  An option whose name is not one of the ten fields, or whose value
    has another [typeof] than the default of its field, makes the
    constructor throw, wherever it stands among the options. *)
Theorem rejects_bad_option (rt : Runtime) (opts : list (string * value))
    (key : string) (v : value) :
  In (key, v) opts ->
  Props.default_typeof key <> Some (typeof v) ->
  exists e, Config.constructor rt opts = inl e.
Proof.
  intros Hin Hbad. unfold Config.constructor.
  destruct (merge_rejects opts Config.defaults key v Hin Hbad) as [e ->]. eauto.
Qed.

Lemma rejects_bad_option_witness :
  exists e,
    Config.constructor Sample.runtime
      [("root", VString "www"); ("port", VString "8080")] = inl e.
Proof.
  apply (rejects_bad_option Sample.runtime _ "port" (VString "8080")).
  - cbn. tauto.
  - discriminate.
Defined.

(** * Further properties: the request context *)

Section RelInvariant.

Lemma startsWith_append (s t : string) :
  truthy s = true -> startsWith (s +:+ t) "/" = startsWith s "/".
Proof.
  destruct s as [|c s]; [discriminate|]. intros _.
  cbn [String.append]. now rewrite !startsWith_slash.
Qed.

Lemma ends_with_slash_append (s : string) (c : ascii) (t : string) :
  Spec.ends_with_slash (s +:+ String c t) = Spec.ends_with_slash (String c t).
Proof.
  induction s as [|a s IH]; [reflexivity|].
  cbn [String.append]. cbn [Spec.ends_with_slash].
  destruct (s +:+ String c t) eqn:Hs; [now destruct s|].
  exact IH.
Qed.

Lemma no_double_append (s t : string) :
  Spec.no_double_slash s = true -> Spec.no_double_slash t = true ->
  Spec.ends_with_slash s = false ->
  Spec.no_double_slash (s +:+ t) = true.
Proof.
  induction s as [|a s IH]; [easy|].
  intros Hs Ht He. destruct s as [|b s].
  - cbn [String.append]. destruct t as [|d t]; [reflexivity|].
    rewrite no_double_slash_cons, Ht. cbn [Spec.ends_with_slash] in He.
    now rewrite He.
  - change (String a (String b s) +:+ t) with (String a (String b (s +:+ t))).
    rewrite no_double_slash_cons in *. apply andb_true_iff in Hs as [-> Hs].
    now apply IH.
Qed.

Lemma normal_append_index (s : string) :
  Props.normal s = true -> truthy s = true ->
  Props.normal (s +:+ "/index.html") = true.
Proof.
  unfold Props.normal. intros H Hne.
  apply andb_true_iff in H as [H Hnd]. apply andb_true_iff in H as [Hl He].
  apply negb_true_iff in He.
  rewrite (startsWith_append _ _ Hne), Hl.
  rewrite ends_with_slash_append.
  now rewrite (no_double_append s "/index.html" Hnd eq_refl He).
Qed.

End RelInvariant.

(** X4.  The invariant the source states for [rel] holds for every request,
    whatever the URL, the configuration and the file system: the relative
    path has no leading slash, no trailing slash and no two slashes in a
    row, also after the index substitution. *)
Theorem rel_normal (fs : FileSystem) (c : Config.t) (req : Request) (id : string) :
  exists tr r,
    R.constructor fs c req id = (tr, inr r) /\ Props.normal (R.rel r) = true.
Proof.
  rewrite constructor_eq. eexists _, _. split; [reflexivity|].
  pose proof (normalised (remove_first (Config.baseurl c) (R.decoded (url req))))
    as Hn. fold (R.relative (Config.baseurl c) (R.decoded (url req))) in Hn.
  destruct (Config.autoindex c && Fs.reachable fs _); cbn [R.rel]; [|exact Hn].
  destruct (truthy (R.relative (Config.baseurl c) (R.decoded (url req)))) eqn:Ht;
    [now apply normal_append_index | reflexivity].
Qed.

(** X5.  For a configuration built by the constructor with a non-empty base
    URL, the request a client sends for the item [p], [/baseurl/p], passes
    the base URL guard and resolves to the relative path [p] and the
    absolute path [root/p], when decoding leaves the URL unchanged, the root
    is not ["/"] and does not start with two slashes, and the index
    substitution does not fire. *)
Theorem mounted_round_trip (rt : Runtime) (fs : FileSystem)
    (opts : list (string * value)) (c : Config.t) (p m id : string) :
  Config.constructor rt opts = inr c ->
  truthy (Config.baseurl c) = true ->
  Spec.valid_relative p = true ->
  R.decoded ("/" +:+ Config.baseurl c +:+ "/" +:+ p)
  = "/" +:+ Config.baseurl c +:+ "/" +:+ p ->
  Config.root c <> "/" ->
  startsWith (Config.root c) "//" = false ->
  (Config.autoindex c = false
   \/ exists e, fs_access fs (Config.root c +:+ "/" +:+ p +:+ "/index.html") = Some e) ->
  let req := {| method := m; url := "/" +:+ Config.baseurl c +:+ "/" +:+ p |} in
  startsWith (url req) ("/" +:+ Config.baseurl c) = true
  /\ exists tr r,
       R.constructor fs c req id = (tr, inr r)
       /\ R.rel r = p
       /\ R.abs r = Config.root c +:+ "/" +:+ p.
Proof.
  intros Hc Hb Hp Hdec Hroot Hss Hidx req.
  destruct (constructed_baseurl_normal rt opts c Hc) as [Hn _].
  unfold Props.normal in Hn. apply andb_true_iff in Hn as [Hn _].
  apply andb_true_iff in Hn as [Hl _]. apply negb_true_iff in Hl.
  split.
  - unfold startsWith, req. cbn [url].
    change ("/" +:+ Config.baseurl c +:+ "/" +:+ p)
      with (("/" +:+ Config.baseurl c) +:+ "/" +:+ p).
    apply prefix_append.
  - rewrite constructor_eq. subst req. cbn [url]. rewrite Hdec.
    rewrite (relative_of_mounted_item c p Hp Hb Hl).
    rewrite (absolute_of_item c p Hp Hroot Hss).
    eexists _, _. split; [reflexivity|].
    assert (Config.autoindex c
            && Fs.reachable fs ((Config.root c +:+ "/" +:+ p) +:+ "/index.html")
            = false) as ->.
    { destruct Hidx as [-> | [e He]]; [reflexivity|].
      unfold Fs.reachable. rewrite !append_assoc.
      rewrite He. apply andb_false_r. }
    now split.
Qed.

Lemma mounted_round_trip_witness :
  exists c tr r,
    Config.constructor Sample.runtime [("baseurl", VString "/blog/")] = inr c
    /\ R.constructor Sample.disk c (Sample.GET "/blog/docs/readme.txt") "000"
       = (tr, inr r)
    /\ R.rel r = "docs/readme.txt"
    /\ R.abs r = "/srv/docs/readme.txt".
Proof.
  destruct (Config.constructor Sample.runtime [("baseurl", VString "/blog/")])
    as [e|c] eqn:Hc; [vm_compute in Hc; discriminate|].
  assert (Config.baseurl c = "blog" /\ Config.root c = "/srv"
          /\ Config.autoindex c = false) as (Hb & Hr & Ha).
  { vm_compute in Hc. injection Hc as <-. now repeat split. }
  destruct (mounted_round_trip Sample.runtime Sample.disk _ c "docs/readme.txt"
              "GET" "000" Hc) as [_ (tr & r & Heq & Hrel & Habs)].
  - now rewrite Hb.
  - reflexivity.
  - now rewrite Hb.
  - rewrite Hr. discriminate.
  - now rewrite Hr.
  - now left.
  - exists c, tr, r. rewrite Hb in Heq. rewrite Hr in Habs.
    split; [reflexivity|]. split; [exact Heq|]. now split.
Defined.

(** * Further properties: the dispatcher *)

Section DispatchFacts.

Variable rt : Runtime.
Variable fs : FileSystem.

Ltac run :=
  cbv [bind catch emit ret throw trace outcome Props.response_of
       RXFS.sendStatus Fs.statSync Fs.readdirSync];
  cbn [fst snd app List.filter Spec.is_response].

Lemma bind_trace {A B} (m : M A) (k : A -> M B) :
  trace (bind m k)
  = match outcome m with
    | inl _ => trace m
    | inr a => (trace m ++ trace (k a))%list
    end.
Proof.
  destruct m as [tr [e|a]]; cbn [bind trace outcome fst snd]; [reflexivity|].
  now destruct (k a).
Qed.

Lemma bind_outcome {A B} (m : M A) (k : A -> M B) :
  outcome (bind m k)
  = match outcome m with
    | inl e => inl e
    | inr a => outcome (k a)
    end.
Proof.
  destruct m as [tr [e|a]]; cbn [bind trace outcome fst snd]; [reflexivity|].
  now destruct (k a).
Qed.

Lemma pair_eta {A} (m : M A) : m = (trace m, outcome m).
Proof. now destruct m. Qed.

(** [handle] is the request line, the construction of the context, the
    debug line, and then the dispatch. *)
Lemma respond_dispatch (this : RXFS.t) (req : Request) (id : string) :
  let c := RXFS.config this in
  let pre := if Config.autoindex c
             then [ExistsSync (R.absolute (Config.root c)
                                 (R.relative (Config.baseurl c) (R.decoded (url req)))
                               +:+ "/index.html")]
             else [] in
  exists r,
    R.constructor fs c req id = (pre, inr r)
    /\ RXFS.respond rt fs this req id
       = ((Log ("REQ #" +:+ id +:+ " " +:+ method req +:+ " " +:+ url req) :: pre)
          ++ Debug ("url: " +:+ url (R.req r) +:+ nl +:+ "rel: " +:+ R.rel r
                    +:+ nl +:+ "abs: " +:+ R.abs r)
             :: trace (Props.dispatch rt fs this req r),
          outcome (Props.dispatch rt fs this req r))%list.
Proof.
  intros c pre.
  rewrite (pair_eta (RXFS.respond rt fs this req id)).
  unfold RXFS.respond. fold c. rewrite constructor_eq. fold pre.
  set (r := if Config.autoindex c && _ then _ else _).
  exists r. split; [reflexivity|].
  rewrite !bind_trace, !bind_outcome.
  cbn [emit trace outcome fst snd]. cbv beta.
  rewrite !bind_trace, !bind_outcome.
  cbn [emit trace outcome fst snd]. cbv beta.
  fold c. fold (Props.dispatch rt fs this req r).
  cbn [app]. reflexivity.
Qed.

Lemma constructor_fields (c : Config.t) (req : Request) (id : string)
    (pre : list Event) (r : R.t) :
  R.constructor fs c req id = (pre, inr r) ->
  R.headers r = R.copied (Config.headers c)
  /\ R.id r = id
  /\ R.abs r = Props.resolved_abs fs c req
  /\ R.rel r = Props.resolved_rel fs c req.
Proof.
  unfold Props.resolved_abs, Props.resolved_rel.
  rewrite !constructor_eq. cbn [outcome snd]. intros [= _ <-].
  destruct (_ && _); now repeat split.
Qed.

Lemma sendStatus_eq (r : R.t) (status : N) (msg : string) :
  RXFS.sendStatus r status msg
  = ([ Log ("RES #" +:+ R.id r +:+ " [status] " +:+ toString status +:+ " " +:+ msg);
       WriteHead status (<["content-type" := Str "text/plain"]> (R.headers r));
       End_ (Some (toString status +:+ " : " +:+ msg)) ], inr tt).
Proof. reflexivity. Qed.

Lemma writes_eq (chunks : list string) (u : unit) :
  foldM (fun _ chunk => emit (Write chunk)) u chunks = (map Write chunks, inr tt).
Proof.
  revert u. induction chunks as [|c rest IH]; intros []; [reflexivity|].
  cbn [foldM map]. cbv [bind emit]. now rewrite IH.
Qed.

(** The stream callbacks write the chunks in order, end the response and
    log; a read error ends the response too and is not thrown. *)
Lemma stream_eq (r : R.t) (chunks : list string) (fin : option FsError) :
  RXFS.stream r chunks fin
  = ((map Write chunks
      ++ End_ None
         :: match fin with
            | Some err =>
                [ DebugError err;
                  Log ("RES #" +:+ R.id r +:+ " [file] error: "
                       +:+ (if truthy (message err) then message err else text err)) ]
            | None => [ Log ("RES #" +:+ R.id r +:+ " [file] OK") ]
            end)%list, inr tt).
Proof.
  unfold RXFS.stream. rewrite writes_eq. cbv [bind emit].
  now destruct fin.
Qed.

Lemma sendFile_eq (this : RXFS.t) (r : R.t) :
  RXFS.sendFile rt fs this r
  = ((WriteHead 200
        (<["content-type" :=
             RXFS.content_type (RXFS.config this)
               (toLowerCase rt (slice 1 (path_ext rt (R.abs r))))]> (R.headers r))
      :: CreateReadStream (R.abs r)
      :: trace (RXFS.stream r (fst (fs_read fs (R.abs r))) (snd (fs_read fs (R.abs r)))))%list,
     inr tt).
Proof.
  unfold RXFS.sendFile. destruct (fs_read fs (R.abs r)) as [chunks fin].
  cbn [fst snd]. rewrite stream_eq. reflexivity.
Qed.

Lemma filter_writes (chunks : list string) (rest : list Event) :
  List.filter Spec.is_response (map Write chunks ++ rest)
  = (map Write chunks ++ List.filter Spec.is_response rest)%list.
Proof.
  induction chunks as [|c l IH]; [reflexivity|]. cbn. now rewrite IH.
Qed.

Lemma readdirSync_eq (p : string) :
  Fs.readdirSync fs p
  = ([ReaddirSync p],
     match fs_readdir fs p with
     | inl e => inl (FsException e)
     | inr l => inr l
     end).
Proof. unfold Fs.readdirSync. cbv [bind emit throw ret]. now destruct (fs_readdir fs p). Qed.

Lemma statSync_eq (p : string) :
  Fs.statSync fs p
  = ([StatSync p],
     match fs_stat fs p with
     | inl e => inl (FsException e)
     | inr s => inr s
     end).
Proof. unfold Fs.statSync. cbv [bind emit throw ret]. now destruct (fs_stat fs p). Qed.

(** Collecting the items touches the file system only. *)
Lemma collect_quiet (dir : string) (items : list Item) (d : Dirent) :
  List.filter Spec.is_response (trace (RXFS.collect fs dir items d)) = [].
Proof.
  unfold RXFS.collect.
  destruct (isFile (dirent_kind d) || isDirectory (dirent_kind d)); [|reflexivity].
  cbv [Fs.statSync bind emit ret throw].
  destruct (fs_stat fs _) as [e|st]; [reflexivity|].
  destruct (isFile (dirent_kind d)); [reflexivity|].
  destruct (isDirectory (dirent_kind d)); [|reflexivity].
  cbv [Fs.readdirSync catch bind emit ret throw].
  destruct (fs_readdir fs _); reflexivity.
Qed.

Lemma collect_all_quiet (dir : string) (dirents : list Dirent) (items : list Item) :
  List.filter Spec.is_response (trace (foldM (RXFS.collect fs dir) items dirents)) = [].
Proof.
  revert items. induction dirents as [|d rest IH]; intros items; [reflexivity|].
  cbn [foldM]. rewrite bind_trace.
  destruct (outcome (RXFS.collect fs dir items d)) as [e|items'].
  - apply collect_quiet.
  - now rewrite List.filter_app, collect_quiet, IH.
Qed.

(** [sendDir]: when it returns it has written one head and one body, when
    it throws it has written nothing. *)
Lemma sendDir_shape (this : RXFS.t) (r : R.t) :
  match outcome (RXFS.sendDir rt fs this r) with
  | inr _ =>
      exists body,
        Props.response_of (trace (RXFS.sendDir rt fs this r))
        = [ WriteHead 200 (<["content-type" := Str "text/html"]> (R.headers r));
            End_ (Some body) ]
  | inl _ => Props.response_of (trace (RXFS.sendDir rt fs this r)) = []
  end.
Proof.
  unfold RXFS.sendDir, Props.response_of.
  rewrite bind_outcome, bind_trace, readdirSync_eq. cbn [outcome trace fst snd].
  destruct (fs_readdir fs (R.abs r)) as [e|dirents]; [reflexivity|].
  rewrite bind_outcome, bind_trace.
  pose proof (collect_all_quiet (R.abs r) dirents []) as Hq.
  destruct (outcome (foldM (RXFS.collect fs (R.abs r)) [] dirents)) as [e|items].
  - cbn [app List.filter Spec.is_response]. exact Hq.
  - eexists. cbn [app List.filter Spec.is_response].
    rewrite List.filter_app, Hq. reflexivity.
Qed.

(** The shape of every dispatch: one head with the headers of the context
    and a content type, the chunks, one end; or nothing at all when an
    exception leaves the handler. *)
Lemma dispatch_shape (this : RXFS.t) (req : Request) (r : R.t) :
  let m := Props.dispatch rt fs this req r in
  match outcome m with
  | inr _ =>
      exists status v chunks body,
        Props.response_of (trace m)
        = (WriteHead status (<["content-type" := v]> (R.headers r))
           :: map Write chunks ++ [End_ body])%list
        /\ In status [200; 400; 404; 405; 500]%N
  | inl _ => Props.response_of (trace m) = []
  end.
Proof.
  unfold Props.dispatch.
  destruct (negb (method req =? "GET")%string).
  { rewrite sendStatus_eq. eexists 405%N, (Str "text/plain"), [], _.
    split; [reflexivity | cbn; tauto]. }
  destruct (negb (startsWith _ _) && negb _).
  { rewrite sendStatus_eq. eexists 404%N, (Str "text/plain"), [], _.
    split; [reflexivity | cbn; tauto]. }
  cbv [Fs.statSync]. cbv [bind catch emit ret throw].
  destruct (fs_stat fs (R.abs r)) as [e|st].
  { destruct (exn_code (FsException e) =? "ENOENT")%string; rewrite sendStatus_eq.
    - eexists 404%N, (Str "text/plain"), [], _.
      split; [reflexivity | cbn; tauto].
    - eexists 500%N, (Str "text/plain"), [], _.
      split; [reflexivity | cbn; tauto]. }
  destruct (isFile (stat_kind st)).
  { rewrite sendFile_eq, stream_eq. cbn [trace outcome fst snd].
    eexists 200%N, _, (fst (fs_read fs (R.abs r))), None.
    split; [|cbn; tauto].
    unfold Props.response_of. cbn [app List.filter Spec.is_response].
    rewrite filter_writes. now destruct (snd (fs_read fs (R.abs r))). }
  destruct (isDirectory (stat_kind st)).
  { destruct (Config.servedir (RXFS.config this)).
    - pose proof (sendDir_shape this r) as Hd.
      destruct (RXFS.sendDir rt fs this r) as [tr [e|[]]];
        cbn [trace outcome fst snd app] in *.
      + unfold Props.response_of in *. exact Hd.
      + destruct Hd as [body Hb]. exists 200%N, (Str "text/html"), [], (Some body).
        split; [|cbn; tauto]. unfold Props.response_of in *.
        cbn [List.filter Spec.is_response]. exact Hb.
    - rewrite sendStatus_eq. eexists 400%N, (Str "text/plain"), [], _.
      split; [reflexivity | cbn; tauto]. }
  rewrite sendStatus_eq. eexists 400%N, (Str "text/plain"), [], _.
  split; [reflexivity | cbn; tauto].
Qed.

End DispatchFacts.

Section HandleFacts.

Variable rt : Runtime.
Variable fs : FileSystem.

(** What [handle] does, in terms of the resolved context. *)
Lemma handle_dispatch (this : RXFS.t) (req : Request) :
  let c := RXFS.config this in
  let this' := fst (RXFS.handle rt fs this req) in
  exists pre r,
    R.headers r = R.copied (Config.headers c)
    /\ R.abs r = Props.resolved_abs fs c req
    /\ R.rel r = Props.resolved_rel fs c req
    /\ RXFS.config this' = c
    /\ List.filter Spec.is_response pre = []
    /\ List.filter Spec.is_fs_access pre
       = (if Config.autoindex c
          then [ExistsSync (R.absolute (Config.root c)
                              (R.relative (Config.baseurl c) (R.decoded (url req)))
                            +:+ "/index.html")]
          else [])
    /\ snd (RXFS.handle rt fs this req)
       = ((pre ++ trace (Props.dispatch rt fs this' req r))%list,
          outcome (Props.dispatch rt fs this' req r)).
Proof.
  intros c this'. subst this'.
  unfold RXFS.handle, RXFS.next_id. cbn [fst snd].
  set (this' := {| RXFS.config := RXFS.config this; RXFS.reqcount := _ |}).
  set (id := padStart3 _).
  destruct (respond_dispatch rt fs this' req id) as (r & Hc & Heq).
  cbn [RXFS.config] in Hc, Heq. fold c in Hc, Heq.
  destruct (constructor_fields fs c req id _ r Hc) as (Hh & _ & Ha & Hr).
  match type of Heq with
  | _ = (((?l :: ?p) ++ ?d :: _)%list, _) => exists ((l :: p) ++ [d])%list, r
  end.
  split; [exact Hh|]. split; [exact Ha|]. split; [exact Hr|].
  split; [reflexivity|]. rewrite Heq.
  split; [|split].
  - cbn [app List.filter Spec.is_response]. rewrite List.filter_app.
    now destruct (Config.autoindex _).
  - cbn [app List.filter Spec.is_fs_access]. rewrite List.filter_app.
    cbn [List.filter Spec.is_fs_access]. rewrite app_nil_r.
    subst c. cbn [RXFS.config]. now destruct (Config.autoindex _).
  - f_equal. now rewrite <- app_assoc.
Qed.

End HandleFacts.

(** * Further properties: what a request gets *)

Section Responses.

Variable rt : Runtime.
Variable fs : FileSystem.

Lemma guard_redundant (u b : string) :
  negb (startsWith u ("/" +:+ b)) && negb (u =? "/" +:+ b +:+ "/")%string
  = negb (startsWith u ("/" +:+ b)).
Proof.
  destruct (startsWith u ("/" +:+ b)) eqn:Hs; [reflexivity|]. cbn [negb andb].
  destruct (String.eqb_spec u ("/" +:+ b +:+ "/")) as [->|]; [|reflexivity].
  change ("/" +:+ b +:+ "/") with (("/" +:+ b) +:+ "/") in Hs.
  unfold startsWith in Hs. now rewrite prefix_append in Hs.
Qed.

(** The dispatch of a GET inside the base URL starts with [statSync]. *)
Lemma dispatch_in_scope (this : RXFS.t) (req : Request) (r : R.t) :
  Props.in_scope (RXFS.config this) req ->
  Props.dispatch rt fs this req r
  = match fs_stat fs (R.abs r) with
    | inl e =>
        (StatSync (R.abs r)
         :: trace (RXFS.sendStatus r (if (code e =? "ENOENT")%string then 404 else 500)
                     (if (code e =? "ENOENT")%string then "not found" else message e)),
         inr tt)
    | inr st =>
        let m := if isFile (stat_kind st) then RXFS.sendFile rt fs this r
                 else if isDirectory (stat_kind st) then
                   if Config.servedir (RXFS.config this) then RXFS.sendDir rt fs this r
                   else RXFS.sendStatus r 400
                          "the server is not configured to serve directories"
                 else RXFS.sendStatus r 400
                        "the requested item is not a file or directory" in
        (StatSync (R.abs r) :: trace m, outcome m)
    end.
Proof.
  intros [Hm Hs]. unfold Props.dispatch.
  rewrite Hm, String.eqb_refl, guard_redundant, Hs. cbn [negb].
  rewrite statSync_eq. cbv [bind catch ret]. cbn [fst snd].
  destruct (fs_stat fs (R.abs r)) as [e|st].
  - cbn [exn_code exn_message].
    destruct (code e =? "ENOENT")%string; rewrite !sendStatus_eq; reflexivity.
  - cbn [app]. cbv zeta.
    match goal with |- (let '(tr', r0) := ?m in _) = _ => now destruct m end.
Qed.

(** X6.  Whatever the request, the configuration and the file system: when
    [handle] returns, the response got exactly one head, then the chunks,
    then exactly one end; when an exception leaves [handle], nothing was
    written to the response. *)
Theorem response_once (this : RXFS.t) (req : Request) :
  let m := snd (RXFS.handle rt fs this req) in
  match outcome m with
  | inr _ =>
      exists status headers chunks body,
        Props.response_of (trace m)
        = (WriteHead status headers :: map Write chunks ++ [End_ body])%list
  | inl _ => Props.response_of (trace m) = []
  end.
Proof.
  destruct (handle_dispatch rt fs this req)
    as (pre & r & _ & _ & _ & _ & Hq & _ & Heq).
  cbv zeta. rewrite Heq. cbn [trace outcome fst snd].
  pose proof (dispatch_shape rt fs (fst (RXFS.handle rt fs this req)) req r) as Hd.
  cbv zeta in Hd. unfold Props.response_of in *.
  rewrite List.filter_app, Hq. cbn [app].
  destruct (outcome (Props.dispatch rt fs _ req r)); [exact Hd|].
  destruct Hd as (status & v & chunks & body & Hd & _). eauto.
Qed.

(** X7.  Every head that [handle] writes has one of the status codes 200,
    400, 404, 405 and 500, has a content type, and carries every header of
    the configuration other than [content-type] and [__proto__] unchanged;
    a configured header named [__proto__] is never sent. *)
Theorem response_headers (this : RXFS.t) (req : Request) (status : N)
    (h : gmap string property) :
  In (WriteHead status h) (trace (snd (RXFS.handle rt fs this req))) ->
  In status [200; 400; 404; 405; 500]%N
  /\ is_Some (h !! "content-type")
  /\ h !! "__proto__" = None
  /\ (forall k, k <> "content-type" -> k <> "__proto__" ->
        h !! k = Str <$> (Config.headers (RXFS.config this) !! k)).
Proof.
  intros Hin.
  destruct (handle_dispatch rt fs this req)
    as (pre & r & Hh & _ & _ & _ & Hq & _ & Heq).
  rewrite Heq in Hin. cbn [trace fst] in Hin.
  assert (In (WriteHead status h)
             (Props.response_of
                (trace (Props.dispatch rt fs (fst (RXFS.handle rt fs this req)) req r))))
    as Hr.
  { unfold Props.response_of. apply List.filter_In. split; [|reflexivity].
    apply in_app_or in Hin as [Hin|Hin]; [|exact Hin].
    assert (In (WriteHead status h) (List.filter Spec.is_response pre)) as Hp
      by (apply List.filter_In; now split).
    rewrite Hq in Hp. destruct Hp. }
  pose proof (dispatch_shape rt fs (fst (RXFS.handle rt fs this req)) req r) as Hd.
  cbv zeta in Hd.
  destruct (outcome (Props.dispatch rt fs _ req r));
    [rewrite Hd in Hr; destruct Hr|].
  destruct Hd as (status' & v & chunks & body & Hd & Hs). rewrite Hd in Hr.
  destruct Hr as [[= <- <-]|Hr].
  - split; [exact Hs|]. split.
    + rewrite lookup_insert_eq. eauto.
    + rewrite Hh. unfold R.copied. split.
      * rewrite lookup_insert_ne by discriminate.
        now rewrite lookup_fmap, lookup_delete_eq.
      * intros k Hk Hp. rewrite lookup_insert_ne by congruence.
        rewrite lookup_fmap, lookup_delete_ne by congruence. reflexivity.
  - exfalso. apply in_app_or in Hr as [Hr|[Hr|[]]]; [|discriminate].
    apply in_map_iff in Hr as (x & Hx & _). discriminate.
Qed.

(** The outcome and the response of [handle] once the dispatch is known. *)
Lemma handle_via_dispatch (this : RXFS.t) (req : Request) :
  exists pre r this',
    R.headers r = R.copied (Config.headers (RXFS.config this))
    /\ R.abs r = Props.resolved_abs fs (RXFS.config this) req
    /\ R.rel r = Props.resolved_rel fs (RXFS.config this) req
    /\ RXFS.config this' = RXFS.config this
    /\ outcome (snd (RXFS.handle rt fs this req))
       = outcome (Props.dispatch rt fs this' req r)
    /\ Props.response_of (trace (snd (RXFS.handle rt fs this req)))
       = Props.response_of (trace (Props.dispatch rt fs this' req r))
    /\ List.filter Spec.is_fs_access (trace (snd (RXFS.handle rt fs this req)))
       = (List.filter Spec.is_fs_access pre
          ++ List.filter Spec.is_fs_access (trace (Props.dispatch rt fs this' req r)))%list
    /\ List.filter Spec.is_fs_access pre
       = (if Config.autoindex (RXFS.config this)
          then [ExistsSync (R.absolute (Config.root (RXFS.config this))
                              (R.relative (Config.baseurl (RXFS.config this))
                                 (R.decoded (url req))) +:+ "/index.html")]
          else []).
Proof.
  destruct (handle_dispatch rt fs this req)
    as (pre & r & Hh & Ha & Hr & Hc & Hq & Hf & Heq).
  exists pre, r, (fst (RXFS.handle rt fs this req)).
  rewrite Heq. cbn [trace outcome fst snd]. unfold Props.response_of.
  rewrite !List.filter_app, Hq. now repeat split.
Qed.

(** X8.  A GET whose URL does not start with [/baseurl] is answered with
    [404 : not found] whatever the file system holds: nothing is stat-ed,
    listed or read (the only file system call is the index check of the
    resolver under autoindex).  The second comparison of the guard, with
    [/baseurl/], never changes its outcome. *)
Theorem outside_base (this : RXFS.t) (req : Request) :
  method req = "GET" ->
  startsWith (url req) ("/" +:+ Config.baseurl (RXFS.config this)) = false ->
  let c := RXFS.config this in
  let m := snd (RXFS.handle rt fs this req) in
  outcome m = inr tt
  /\ Spec.responds (trace m) 404 "not found"
  /\ List.filter Spec.is_fs_access (trace m)
     = (if Config.autoindex c
        then [ExistsSync (R.absolute (Config.root c)
                            (R.relative (Config.baseurl c) (R.decoded (url req)))
                          +:+ "/index.html")]
        else [])
  /\ (forall u b,
        negb (startsWith u ("/" +:+ b)) && negb (u =? "/" +:+ b +:+ "/")%string
        = negb (startsWith u ("/" +:+ b))).
Proof.
  intros Hm Hs c m. subst c m.
  destruct (handle_via_dispatch this req)
    as (pre & r & this' & _ & _ & _ & Hc & Ho & Hr & Hf & Hp).
  assert (Props.dispatch rt fs this' req r = RXFS.sendStatus r 404 "not found") as Hd.
  { unfold Props.dispatch. rewrite Hm, String.eqb_refl, guard_redundant, Hc, Hs.
    reflexivity. }
  rewrite Hd in *. split; [exact Ho|]. split.
  - unfold Spec.responds. unfold Props.response_of in Hr. rewrite Hr.
    eexists. reflexivity.
  - split; [|exact guard_redundant].
    rewrite Hf, Hp. rewrite sendStatus_eq. cbn [trace fst List.filter Spec.is_fs_access].
    apply app_nil_r.
Qed.

(** X9.  A GET in scope whose path cannot be stat-ed is answered and not
    thrown: [404 : not found] when the error code is [ENOENT], otherwise 500
    with the message of the error. *)
Theorem stat_failure (this : RXFS.t) (req : Request) (e : FsError) :
  Props.in_scope (RXFS.config this) req ->
  fs_stat fs (Props.resolved_abs fs (RXFS.config this) req) = inl e ->
  let m := snd (RXFS.handle rt fs this req) in
  outcome m = inr tt
  /\ Spec.responds (trace m)
       (if (code e =? "ENOENT")%string then 404 else 500)
       (if (code e =? "ENOENT")%string then "not found" else message e).
Proof.
  intros Hs He m. subst m.
  destruct (handle_via_dispatch this req)
    as (pre & r & this' & _ & Ha & _ & Hc & Ho & Hr & _).
  rewrite <- Hc in Hs. rewrite (dispatch_in_scope this' req r Hs) in *.
  rewrite Ha, He in *. split; [exact Ho|].
  unfold Spec.responds. unfold Props.response_of in Hr. rewrite Hr.
  rewrite sendStatus_eq. eexists. reflexivity.
Qed.

(** X10.  A GET in scope for something that is neither a file nor a
    directory, or for a directory when [servedir] is off, is answered with
    400 and the matching message; nothing is listed or read. *)
Theorem not_servable (this : RXFS.t) (req : Request) (st : Stats) :
  Props.in_scope (RXFS.config this) req ->
  fs_stat fs (Props.resolved_abs fs (RXFS.config this) req) = inr st ->
  isFile (stat_kind st) = false ->
  (isDirectory (stat_kind st) = true -> Config.servedir (RXFS.config this) = false) ->
  let m := snd (RXFS.handle rt fs this req) in
  outcome m = inr tt
  /\ Spec.responds (trace m) 400
       (if isDirectory (stat_kind st)
        then "the server is not configured to serve directories"
        else "the requested item is not a file or directory")
  /\ (forall p, ~ In (ReaddirSync p) (trace m) /\ ~ In (CreateReadStream p) (trace m)).
Proof.
  intros Hs Hst Hf Hd m. subst m.
  destruct (handle_dispatch rt fs this req)
    as (pre & r & _ & Ha & _ & Hc & Hq & Hfs & Heq).
  cbv zeta in *. set (this' := fst (RXFS.handle rt fs this req)) in *.
  rewrite <- Hc in Hs.
  pose (msg := if isDirectory (stat_kind st)
               then "the server is not configured to serve directories"
               else "the requested item is not a file or directory").
  assert (Props.dispatch rt fs this' req r
          = (StatSync (R.abs r) :: trace (RXFS.sendStatus r 400 msg), inr tt)) as Hd'.
  { rewrite (dispatch_in_scope this' req r Hs), Ha, Hst, Hf. cbv zeta. subst msg.
    destruct (isDirectory (stat_kind st)); [rewrite Hc, (Hd eq_refl)|]; reflexivity. }
  rewrite Heq, Hd'. fold msg. rewrite sendStatus_eq. cbn [trace outcome fst snd].
  split; [reflexivity|]. split.
  - unfold Spec.responds. rewrite List.filter_app, Hq.
    cbn [app List.filter Spec.is_response]. eexists. reflexivity.
  - intros p. split; intros Hin; apply in_app_or in Hin as [Hin|Hin].
    + assert (In (ReaddirSync p) (List.filter Spec.is_fs_access pre)) as Hp
        by (apply List.filter_In; now split).
      rewrite Hfs in Hp. destruct (Config.autoindex _); [|destruct Hp].
      destruct Hp as [Hp|[]]. discriminate.
    + cbn in Hin. intuition discriminate.
    + assert (In (CreateReadStream p) (List.filter Spec.is_fs_access pre)) as Hp
        by (apply List.filter_In; now split).
      rewrite Hfs in Hp. destruct (Config.autoindex _); [|destruct Hp].
      destruct Hp as [Hp|[]]. discriminate.
    + cbn in Hin. intuition discriminate.
Qed.

(** X11.  A GET in scope for a regular file is answered with 200.  The
    head carries the configured headers other than [__proto__], and under
    [content-type] what the lower-cased extension reads in the overrides
    (an own property, or what the overrides object inherits, also when it
    is an array), else its entry in the built-in table, else
    [application/octet-stream].  The chunks the stream delivers are written
    in order and the response is ended, also when the stream fails part way
    (the error is logged, not thrown); an empty file gives a head and an
    end with nothing between. *)
Theorem file_streamed (this : RXFS.t) (req : Request) (st : Stats) :
  Props.in_scope (RXFS.config this) req ->
  let abs := Props.resolved_abs fs (RXFS.config this) req in
  fs_stat fs abs = inr st ->
  isFile (stat_kind st) = true ->
  let m := snd (RXFS.handle rt fs this req) in
  outcome m = inr tt
  /\ Props.response_of (trace m)
     = (WriteHead 200
          (<["content-type" :=
               RXFS.content_type (RXFS.config this)
                 (toLowerCase rt (slice 1 (path_ext rt abs)))]>
             (R.copied (Config.headers (RXFS.config this))))
        :: map Write (fst (fs_read fs abs)) ++ [End_ None])%list.
Proof.
  intros Hs abs Hst Hf m. subst m abs.
  destruct (handle_via_dispatch this req)
    as (pre & r & this' & Hh & Ha & _ & Hc & Ho & Hr & _).
  rewrite <- Hc in Hs. rewrite (dispatch_in_scope this' req r Hs) in *.
  rewrite Ha, Hst, Hf in *. cbv zeta in *.
  rewrite sendFile_eq, stream_eq in *. cbn [trace outcome fst snd] in *.
  split; [exact Ho|]. rewrite Hr. unfold Props.response_of.
  cbn [List.filter Spec.is_response Spec.is_fs_access].
  rewrite filter_writes, Ha, Hh, Hc.
  cbn [List.filter Spec.is_response]. now destruct (snd (fs_read fs (Props.resolved_abs fs (RXFS.config this) req))).
Qed.

Lemma collect_outcome (dir : string) (items : list Item) (d : Dirent) (i : Item) :
  Props.item_of fs dir d = Some i ->
  outcome (RXFS.collect fs dir items d) = inr (items ++ [i])%list.
Proof.
  unfold Props.item_of, RXFS.collect.
  destruct (dirent_kind d); cbn [isFile isDirectory orb].
  - rewrite bind_outcome, statSync_eq. cbn [outcome snd].
    destruct (fs_stat fs _); [discriminate|]. now intros [= <-].
  - rewrite bind_outcome, statSync_eq. cbn [outcome snd].
    destruct (fs_stat fs _) as [|st]; [discriminate|]. intros [= <-].
    rewrite bind_outcome, readdirSync_eq. cbv [catch bind ret]. cbn [outcome snd].
    now destruct (fs_readdir fs _).
  - now intros [= <-].
Qed.

Lemma collect_all_outcome (dir : string) (dirents : list Dirent) (items acc : list Item) :
  Forall2 (fun d i => Props.item_of fs dir d = Some i) dirents items ->
  outcome (foldM (RXFS.collect fs dir) acc dirents) = inr (acc ++ items)%list.
Proof.
  intros H. revert acc. induction H as [|d i dirents items Hd _ IH]; intros acc.
  - cbn. now rewrite app_nil_r.
  - cbn [foldM]. rewrite bind_outcome, (collect_outcome dir acc d i Hd).
    rewrite IH. now rewrite <- app_assoc.
Qed.

(** X12.  A GET in scope for a directory, with [servedir] on, is answered
    with 200, the configured headers other than [__proto__], the content
    type [text/html], and the page of its entries, one item per entry in the
    order of the listing: what is neither file nor directory by name alone,
    a file with the size and time of its [statSync], a directory with the
    number of its children, or ['N/A'] when the children cannot be listed.
    This needs the listing of the directory and the [statSync] of every file
    and directory child to succeed. *)
Theorem listing_served (this : RXFS.t) (req : Request) (st : Stats)
    (dirents : list Dirent) (items : list Item) :
  Props.in_scope (RXFS.config this) req ->
  let c := RXFS.config this in
  let abs := Props.resolved_abs fs c req in
  fs_stat fs abs = inr st ->
  isFile (stat_kind st) = false ->
  isDirectory (stat_kind st) = true ->
  Config.servedir c = true ->
  fs_readdir fs abs = inr dirents ->
  Forall2 (fun d i => Props.item_of fs abs d = Some i) dirents items ->
  let m := snd (RXFS.handle rt fs this req) in
  outcome m = inr tt
  /\ Props.response_of (trace m)
     = [ WriteHead 200 (<["content-type" := Str "text/html"]> (R.copied (Config.headers c)));
         End_ (Some (dirview rt c (Props.resolved_rel fs c req) items)) ].
Proof.
  intros Hs c abs Hst Hf Hd Hsd Hrd Hit m. subst m c abs.
  destruct (handle_via_dispatch this req)
    as (pre & r & this' & Hh & Ha & Hr & Hc & Ho & Hres & _).
  rewrite <- Hc in Hs. rewrite (dispatch_in_scope this' req r Hs) in *.
  rewrite Ha, Hst, Hf, Hd, Hc, Hsd in *. cbv zeta in *.
  cbn [trace outcome fst snd] in *. rewrite Ho, Hres. clear Ho Hres.
  unfold Props.response_of. cbn [List.filter Spec.is_response].
  unfold RXFS.sendDir.
  rewrite !bind_outcome, !bind_trace, readdirSync_eq, Ha, Hrd.
  cbn [outcome trace fst snd].
  rewrite !bind_outcome, !bind_trace.
  rewrite (collect_all_outcome _ dirents items [] Hit). cbn [app].
  cbn [List.filter Spec.is_response]. rewrite List.filter_app, collect_all_quiet.
  cbv [bind emit]. cbn [outcome trace fst snd app List.filter Spec.is_response].
  now rewrite Hh, Hc, Hr.
Qed.

End Responses.

Lemma response_headers_witness :
  exists h,
    In (WriteHead 404 h)
       (trace (snd (RXFS.handle Sample.runtime Sample.disk
                      (Sample.server Sample.config 0) (Sample.GET "/nothing"))))
    /\ h !! "cache-control" = Some (Str "public, max-age=604800, immutable")
    /\ is_Some (h !! "content-type").
Proof.
  eexists. split.
  - vm_compute. repeat first [left; reflexivity | right].
  - match goal with
    | |- ?h !! _ = _ /\ _ =>
        destruct (response_headers Sample.runtime Sample.disk
                    (Sample.server Sample.config 0) (Sample.GET "/nothing") 404 h)
          as (_ & Hct & _ & Hk)
    end.
    + vm_compute. repeat first [left; reflexivity | right].
    + split; [|exact Hct]. rewrite Hk by discriminate. reflexivity.
Defined.


Lemma outside_base_witness :
  let c := {| Config.root := "/srv"; Config.port := 1234; Config.baseurl := "blog";
              Config.autoindex := false; Config.servedir := true;
              Config.headers := ∅; Config.mimes := ∅; Config.mimes_shape := PlainShape; Config.logfile := EmptyString;
              Config.verbose := true; Config.debug := false |} in
  let m := snd (RXFS.handle Sample.runtime Sample.disk (Sample.server c 0)
                  (Sample.GET "/index.html")) in
  outcome m = inr tt /\ Spec.responds (trace m) 404 "not found"
  /\ List.filter Spec.is_fs_access (trace m) = [].
Proof.
  intros c m.
  destruct (outside_base Sample.runtime Sample.disk (Sample.server c 0)
              (Sample.GET "/index.html") eq_refl eq_refl) as (H1 & H2 & H3 & _).
  split; [exact H1|]. split; [exact H2 | exact H3].
Defined.

Lemma stat_failure_witness :
  let m := snd (RXFS.handle Sample.runtime Sample.disk (Sample.server Sample.config 0)
                  (Sample.GET "/nothing")) in
  outcome m = inr tt /\ Spec.responds (trace m) 404 "not found".
Proof.
  exact (stat_failure Sample.runtime Sample.disk (Sample.server Sample.config 0)
           (Sample.GET "/nothing") (Sample.enoent "/srv/nothing")
           (conj eq_refl eq_refl) eq_refl).
Defined.

Lemma not_servable_witness :
  let m := snd (RXFS.handle Sample.runtime Sample.disk (Sample.server Sample.config 0)
                  (Sample.GET "/run.sock")) in
  outcome m = inr tt
  /\ Spec.responds (trace m) 400 "the requested item is not a file or directory".
Proof.
  destruct (not_servable Sample.runtime Sample.disk (Sample.server Sample.config 0)
              (Sample.GET "/run.sock") (Sample.node_stats Sample.OtherNode)
              (conj eq_refl eq_refl) eq_refl eq_refl) as (H1 & H2 & _).
  - discriminate.
  - split; [exact H1 | exact H2].
Defined.

Lemma file_streamed_witness :
  let m := snd (RXFS.handle Sample.runtime Sample.disk (Sample.server Sample.config 0)
                  (Sample.GET "/docs/readme.txt")) in
  outcome m = inr tt
  /\ exists h, Props.response_of (trace m)
               = [WriteHead 200 h; Write "read"; Write "me"; End_ None]
               /\ h !! "content-type" = Some (Str "text/plain").
Proof.
  destruct (file_streamed Sample.runtime Sample.disk (Sample.server Sample.config 0)
              (Sample.GET "/docs/readme.txt")
              (Sample.node_stats (Sample.FileNode ["read"; "me"]))
              (conj eq_refl eq_refl) eq_refl eq_refl) as (H1 & H2).
  split; [exact H1|]. eexists. split; [exact H2|].
  vm_compute. reflexivity.
Defined.

Lemma listing_served_witness :
  let m := snd (RXFS.handle Sample.runtime Sample.disk (Sample.server Sample.config 0)
                  (Sample.GET "/docs")) in
  outcome m = inr tt
  /\ exists h, Props.response_of (trace m)
       = [ WriteHead 200 h;
           End_ (Some (dirview Sample.runtime Sample.config "docs"
                         [ItemFile "readme.txt" 6 "2021-04-12T23:42:00.000Z"])) ].
Proof.
  destruct (listing_served Sample.runtime Sample.disk (Sample.server Sample.config 0)
              (Sample.GET "/docs")
              (Sample.node_stats (Sample.DirNode true [Sample.dirent "readme.txt" File]))
              [Sample.dirent "readme.txt" File]
              [ItemFile "readme.txt" 6 "2021-04-12T23:42:00.000Z"]
              (conj eq_refl eq_refl) eq_refl eq_refl eq_refl eq_refl eq_refl)
    as (H1 & H2).
  - repeat constructor.
  - split; [exact H1|]. eexists. exact H2.
Defined.
(** * Further properties: start-up and the listing page *)

Section Startup.

Variable rt : Runtime.
Variable fs : FileSystem.

(** What [new RXFS(opts)] does for a valid configuration, case by case. *)
Lemma constructor_cases (opts : list (string * value)) (c : Config.t) :
  Config.constructor rt opts = inr c ->
  let m := RXFS.constructor rt fs opts in
  match fs_access fs (Config.root c), fs_stat fs (Config.root c) with
  | Some _, _ | None, inl _ =>
      (exists e, outcome m = inl e) /\ forall p, ~ In (Listen p) (trace m)
  | None, inr st =>
      if isDirectory (stat_kind st) then
        if truthy (Config.logfile c) then
          match fs_mkdir fs (path_dir rt (Config.logfile c)) with
          | Some _ =>
              (exists e, outcome m = inl e) /\ forall p, ~ In (Listen p) (trace m)
          | None =>
              outcome m = inr {| RXFS.config := c; RXFS.reqcount := 0 |}
              /\ In (Listen (Config.port c)) (trace m)
              /\ In (CreateLog (Config.logfile c)) (trace m)
          end
        else
          outcome m = inr {| RXFS.config := c; RXFS.reqcount := 0 |}
          /\ In (Listen (Config.port c)) (trace m)
      else (exists e, outcome m = inl e) /\ forall p, ~ In (Listen p) (trace m)
  end.
Proof.
  intros Hc. cbv zeta. unfold RXFS.constructor. rewrite Hc.
  unfold Fs.existsSync, Fs.statSync, Fs.reachable.
  cbv [bind emit ret throw trace outcome]. cbn [fst snd].
  destruct (fs_access fs (Config.root c)) as [e|]; cbn [negb fst snd app];
    [destruct (fs_stat fs (Config.root c));
     (split; [eauto | intros p H; cbn [In] in H; intuition discriminate])|].
  destruct (fs_stat fs (Config.root c)) as [e|st]; cbn [fst snd app];
    [split; [eauto | intros p H; cbn [In] in H; intuition discriminate]|].
  destruct (isDirectory (stat_kind st)); cbn [negb fst snd app];
    [|split; [eauto | intros p H; cbn [In] in H; intuition discriminate]].
  destruct (truthy (Config.logfile c)); cbn [fst snd app].
  - destruct (fs_mkdir fs (path_dir rt (Config.logfile c))) as [e|];
      cbn [fst snd app].
    + split; [eauto | intros p H; cbn [In] in H; intuition discriminate].
    + split; [reflexivity|]. split; cbn [In]; tauto.
  - split; [reflexivity|]. cbn [In]. tauto.
Qed.

End Startup.

(** X13.  [new RXFS(opts)] gives an instance exactly when the configuration
    is valid, the root can be reached and is a directory, and, if a log file
    is configured, [mkdirSync] of its directory does not fail; the instance
    then has that configuration and the counter 0, and the server listens
    on its port.  In every other case the constructor throws and the server
    never listens.  Whether the log file can be opened plays no part: that
    is found out after the constructor has returned. *)
Theorem startup (rt : Runtime) (fs : FileSystem) (opts : list (string * value)) :
  let m := RXFS.constructor rt fs opts in
  let ready c :=
    fs_access fs (Config.root c) = None
    /\ (exists st, fs_stat fs (Config.root c) = inr st
                   /\ isDirectory (stat_kind st) = true)
    /\ (truthy (Config.logfile c) = true ->
          fs_mkdir fs (path_dir rt (Config.logfile c)) = None) in
  (forall this, outcome m = inr this ->
     exists c,
       Config.constructor rt opts = inr c /\ ready c
       /\ RXFS.config this = c /\ RXFS.reqcount this = 0%N
       /\ In (Listen (Config.port c)) (trace m))
  /\ (forall c, Config.constructor rt opts = inr c -> ready c ->
        exists this, outcome m = inr this)
  /\ (forall p, In (Listen p) (trace m) -> exists this, outcome m = inr this).
Proof.
  cbv zeta.
  destruct (Config.constructor rt opts) as [e|c] eqn:Hc.
  { unfold RXFS.constructor. rewrite Hc.
    split; [discriminate|]. split; [discriminate|]. intros p []. }
  pose proof (constructor_cases rt fs opts c Hc) as H. cbv zeta in H.
  destruct (fs_access fs (Config.root c)) as [e|] eqn:Hacc.
  { destruct H as [[e' He] Hl]. rewrite He.
    split; [discriminate|]. split.
    - intros c' [= <-] (Ha & _). congruence.
    - intros p Hp. now apply Hl in Hp. }
  destruct (fs_stat fs (Config.root c)) as [e|st] eqn:Hst.
  { destruct H as [[e' He] Hl]. rewrite He.
    split; [discriminate|]. split.
    - intros c' [= <-] (_ & (st & Hs & _) & _). congruence.
    - intros p Hp. now apply Hl in Hp. }
  destruct (isDirectory (stat_kind st)) eqn:Hd.
  2: { destruct H as [[e' He] Hl]. rewrite He.
       split; [discriminate|]. split.
       - intros c' [= <-] (_ & (st' & Hs & Hd') & _).
         rewrite Hst in Hs. injection Hs as <-. congruence.
       - intros p Hp. now apply Hl in Hp. }
  destruct (truthy (Config.logfile c)) eqn:Hl.
  - destruct (fs_mkdir fs (path_dir rt (Config.logfile c))) as [e|] eqn:Hm.
    + destruct H as [[e' He] Hn]. rewrite He.
      split; [discriminate|]. split.
      * intros c' [= <-] (_ & _ & Hlog). specialize (Hlog Hl). congruence.
      * intros p Hp. now apply Hn in Hp.
    + destruct H as (Ho & Hli & _). rewrite Ho.
      split; [|split; eauto].
      intros this [= <-]. exists c. cbn [RXFS.config RXFS.reqcount].
      repeat split; eauto.
  - destruct H as (Ho & Hli). rewrite Ho.
    split; [|split; eauto].
    intros this [= <-]. exists c. cbn [RXFS.config RXFS.reqcount].
    repeat split; eauto. intros; congruence.
Qed.

Section Links.

Lemma lastIndexOf_leaf (leaf : string) :
  Props.has_slash leaf = false -> lastIndexOf_slash leaf = None.
Proof.
  induction leaf as [|c t IH]; [reflexivity|]. cbn [Props.has_slash].
  intros H. apply orb_false_iff in H as [Hc Ht].
  cbn [lastIndexOf_slash]. now rewrite (IH Ht), Hc.
Qed.

Lemma lastIndexOf_parent (parent leaf : string) :
  Props.has_slash leaf = false ->
  lastIndexOf_slash (parent +:+ "/" +:+ leaf) = Some (String.length parent).
Proof.
  intros H. induction parent as [|c p IH].
  - change (EmptyString +:+ "/" +:+ leaf) with (String "/" leaf).
    cbn [lastIndexOf_slash]. now rewrite (lastIndexOf_leaf leaf H).
  - change (String c p +:+ "/" +:+ leaf) with (String c (p +:+ "/" +:+ leaf)).
    cbn [lastIndexOf_slash String.length]. now rewrite IH.
Qed.

Lemma substring_prefix (a b : string) :
  String.substring 0 (String.length a) (a +:+ b) = a.
Proof.
  induction a as [|c a IH]; [now destruct b|].
  cbn [String.append String.length String.substring]. now rewrite IH.
Qed.

End Links.

(** X14.  The parent row of a listing: none at the root; for a path with
    one segment it links to the base; for [parent/leaf] it links to
    [base/parent]. *)
Theorem up_link (base parent leaf : string) :
  Props.has_slash leaf = false ->
  up base EmptyString = EmptyString
  /\ (truthy leaf = true -> up base leaf = up_row base)
  /\ up base (parent +:+ "/" +:+ leaf) = up_row (base +:+ "/" +:+ parent).
Proof.
  intros H. split; [reflexivity|]. split.
  - intros Ht. unfold up. rewrite Ht, (lastIndexOf_leaf leaf H).
    now rewrite append_empty_r.
  - unfold up.
    assert (truthy (parent +:+ "/" +:+ leaf) = true) as -> by now destruct parent.
    rewrite (lastIndexOf_parent parent leaf H).
    now rewrite substring_prefix.
Qed.

Lemma up_link_witness :
  up "http://localhost:1234" "a/b/c" = up_row "http://localhost:1234/a/b".
Proof.
  exact (proj2 (proj2 (up_link "http://localhost:1234" "a/b" "c" eq_refl))).
Defined.

Section Trail.

Lemma join_cons (x y : string) (l : list string) :
  join (x :: y :: l) = x +:+ "/" +:+ join (y :: l).
Proof. reflexivity. Qed.

(** Splitting at the slashes and joining with slashes gives the path back. *)
Lemma join_split (s : string) : join (split s) = s.
Proof.
  induction s as [|c t IH]; [reflexivity|].
  cbn [split]. rewrite (split_eta t) in *.
  destruct (Ascii.eqb c "/") eqn:Hc.
  - apply Ascii.eqb_eq in Hc as ->. rewrite join_cons, IH. reflexivity.
  - destruct (tl (split t)) as [|y l].
    + cbn [join String.concat] in *. now rewrite IH.
    + rewrite join_cons in *. rewrite <- IH at 2. reflexivity.
Qed.

Lemma crumbs_cons (root base : string) (parts : list string) (i : nat)
    (seg : string) (rest : list string) :
  crumbs root base parts i (seg :: rest)
  = anchor (base +:+ "/" +:+ join (firstn (S i) parts))
      (if ((root =? "/")%string && Nat.eqb i 0)%bool then seg else "/" +:+ seg)
    +:+ crumbs root base parts (S i) rest.
Proof. reflexivity. Qed.

Lemma concat_app (a b : list string) :
  Props.concat (a ++ b) = Props.concat a +:+ Props.concat b.
Proof.
  unfold Props.concat. induction a as [|x a IH]; [reflexivity|].
  cbn [app fold_right]. now rewrite IH, append_assoc.
Qed.

(** The loop over the components, started at index [i], gives the links
    [i], [i + 1], ... of the trail. *)
Lemma crumbs_links (root base : string) (segs pre : list string) :
  crumbs root base (pre ++ segs) (List.length pre) segs
  = Props.concat
      (map (fun i => anchor (base +:+ "/" +:+ join (firstn (S i) (pre ++ segs)))
                            (Props.label root i (nth i (pre ++ segs) EmptyString)))
           (seq (List.length pre) (List.length segs))).
Proof.
  revert pre. induction segs as [|x rest IH]; intros pre; [reflexivity|].
  rewrite crumbs_cons. cbn [List.length seq map Props.concat fold_right].
  fold (Props.concat
          (map (fun i => anchor (base +:+ "/" +:+ join (firstn (S i) (pre ++ x :: rest)))
                                (Props.label root i (nth i (pre ++ x :: rest) EmptyString)))
               (seq (S (List.length pre)) (List.length rest)))).
  rewrite nth_middle. unfold Props.label at 2. f_equal.
  specialize (IH (pre ++ [x])%list).
  rewrite <- app_assoc in IH. cbn [app] in IH.
  rewrite List.length_app in IH. cbn [List.length] in IH.
  replace (List.length pre + 1) with (S (List.length pre)) in IH by lia.
  exact IH.
Qed.

Lemma nth_last (l : list string) (x : string) :
  nth (List.length l) (l ++ [x]) EmptyString = x.
Proof. now rewrite nth_middle. Qed.

End Trail.

(** X15.  The breadcrumb trail of a listing below the root is the link to
    the base, labelled with the root, followed by exactly one link per
    component of the listed path and nothing else: link [i] is addressed to
    the first [i + 1] components and labelled with component [i].  The last
    of these links is addressed to the listed directory itself,
    [base/relpath], and labelled with its last component. *)
Theorem breadcrumb_trail (root base relpath : string) :
  truthy relpath = true ->
  breadcrumbs root base relpath
  = "<div class=" +:+ dq +:+ "breadcrumbs" +:+ dq +:+ ">"
    +:+ anchor base root
    +:+ Props.concat (Props.trail root base (split relpath))
    +:+ "</div>"
  /\ List.length (Props.trail root base (split relpath))
     = List.length (split relpath)
  /\ exists before,
       Props.trail root base (split relpath)
       = (before
          ++ [anchor (base +:+ "/" +:+ relpath)
                (Props.label root (List.length before)
                   (List.last (split relpath) EmptyString))])%list.
Proof.
  intros Ht. split; [|split].
  - unfold breadcrumbs. rewrite Ht.
    pose proof (crumbs_links root base (split relpath) []) as Hl.
    cbn [app List.length] in Hl. rewrite Hl. reflexivity.
  - unfold Props.trail. now rewrite List.length_map, List.length_seq.
  - unfold Props.trail.
    destruct (exists_last (l := split relpath)) as (front & x & Hs).
    { rewrite (split_eta relpath). discriminate. }
    pose proof (join_split relpath) as Hj.
    rewrite Hs in *. rewrite List.length_app. cbn [List.length].
    rewrite Nat.add_1_r, seq_S, map_app. cbn [map Nat.add].
    eexists. f_equal.
    rewrite List.length_map, List.length_seq.
    replace (S (List.length front)) with (List.length (front ++ [x])%list)
      by (rewrite List.length_app; cbn [List.length]; lia).
    rewrite List.firstn_all, Hj, nth_last, List.last_last. reflexivity.
Qed.

Lemma breadcrumb_trail_witness :
  breadcrumbs "/srv" "http://localhost:1234" "docs/api"
  = "<div class=" +:+ dq +:+ "breadcrumbs" +:+ dq +:+ ">"
    +:+ anchor "http://localhost:1234" "/srv"
    +:+ anchor "http://localhost:1234/docs" "/docs"
    +:+ anchor "http://localhost:1234/docs/api" "/api"
    +:+ "</div>".
Proof.
  exact (proj1 (breadcrumb_trail "/srv" "http://localhost:1234" "docs/api" eq_refl)).
Defined.

(** * Further properties: the command line *)

Section ObjectFacts.

Context {A : Type}.

Lemma assoc_cons (k k' : string) (v : A) (o : list (string * A)) :
  assoc k ((k', v) :: o) = if (k' =? k)%string then Some v else assoc k o.
Proof. reflexivity. Qed.

Lemma assoc_app (k : string) (a b : list (string * A)) :
  assoc k (a ++ b) = match assoc k a with Some v => Some v | None => assoc k b end.
Proof.
  induction a as [|[k' v] a IH]; [reflexivity|].
  cbn [app]. rewrite !assoc_cons. now destruct (k' =? k)%string.
Qed.

Lemma assoc_In (k : string) (v : A) (o : list (string * A)) :
  assoc k o = Some v -> In (k, v) o.
Proof.
  induction o as [|[k' v'] o IH]; [discriminate|].
  rewrite assoc_cons. destruct (String.eqb_spec k' k) as [->|].
  - intros [= ->]. now left.
  - intros H. right. now apply IH.
Qed.

Lemma In_assoc (k : string) (v : A) (o : list (string * A)) :
  List.NoDup (map fst o) -> In (k, v) o -> assoc k o = Some v.
Proof.
  induction o as [|[j x] o IH]; [intros _ []|].
  cbn [map fst]. intros Hd [[= -> ->]|Hin]; rewrite assoc_cons.
  - now rewrite String.eqb_refl.
  - inversion Hd as [|? ? Hj Hd']; subst.
    destruct (String.eqb_spec j k) as [->|]; [|now apply IH].
    exfalso. apply Hj. now apply (in_map fst) in Hin.
Qed.

Lemma assoc_None (k : string) (o : list (string * A)) :
  assoc k o = None <-> ~ In k (map fst o).
Proof.
  induction o as [|[k' v'] o IH]; [cbn; tauto|].
  rewrite assoc_cons. cbn [map fst In].
  destruct (String.eqb_spec k' k) as [->|Hne].
  - split; [discriminate | tauto].
  - rewrite IH. tauto.
Qed.

Lemma replace_keys (k : string) (v : A) (o : list (string * A)) :
  Obj.has k o = true -> map fst (Obj.replace k v o) = map fst o.
Proof.
  unfold Obj.has. induction o as [|[k' v'] o IH]; [discriminate|].
  rewrite assoc_cons. cbn [Obj.replace].
  destruct (String.eqb_spec k' k) as [->|Hne]; [reflexivity|].
  intros H. cbn [map fst]. now rewrite IH.
Qed.

Lemma assoc_replace (k k' : string) (v : A) (o : list (string * A)) :
  Obj.has k o = true ->
  assoc k' (Obj.replace k v o) = if (k =? k')%string then Some v else assoc k' o.
Proof.
  unfold Obj.has. induction o as [|[j w] o IH]; [discriminate|].
  rewrite assoc_cons. cbn [Obj.replace].
  destruct (String.eqb_spec j k) as [->|Hne].
  - intros _. rewrite !assoc_cons. now destruct (k =? k')%string.
  - intros H. rewrite !assoc_cons, (IH H).
    destruct (String.eqb_spec j k') as [->|]; [|reflexivity].
    now rewrite (proj2 (String.eqb_neq k k')) by congruence.
Qed.

Lemma insert_keys (n : N) (k k' : string) (v : A) (o : list (string * A)) :
  In k' (map fst (Obj.insert_index n k v o)) <-> k' = k \/ In k' (map fst o).
Proof.
  induction o as [|[j w] o IH]; [cbn; intuition|].
  cbn [Obj.insert_index].
  destruct (Obj.array_index j) as [m|]; [destruct (m <? n)%N|];
    cbn [map fst In] in *; rewrite ?IH; intuition.
Qed.

Lemma insert_NoDup (n : N) (k : string) (v : A) (o : list (string * A)) :
  ~ In k (map fst o) -> List.NoDup (map fst o) ->
  List.NoDup (map fst (Obj.insert_index n k v o)).
Proof.
  induction o as [|[j w] o IH]; intros Hk Hnd.
  - cbn. constructor; [tauto | constructor].
  - cbn [Obj.insert_index].
    assert (List.NoDup (map fst ((k, v) :: (j, w) :: o))) as Hall
      by (cbn [map fst] in *; now constructor).
    destruct (Obj.array_index j) as [m|]; [destruct (m <? n)%N|]; try exact Hall.
    cbn [map fst In] in *. inversion Hnd as [|? ? Hj Hnd']; subst.
    constructor; [|apply IH; tauto].
    rewrite insert_keys. intros [->|H]; [apply Hk; now left | tauto].
Qed.

Lemma assoc_insert (n : N) (k k' : string) (v : A) (o : list (string * A)) :
  Obj.has k o = false ->
  assoc k' (Obj.insert_index n k v o) = if (k =? k')%string then Some v else assoc k' o.
Proof.
  unfold Obj.has. induction o as [|[j w] o IH]; [reflexivity|].
  rewrite assoc_cons. cbn [Obj.insert_index].
  destruct (String.eqb_spec j k) as [->|Hne]; [discriminate|]. intros H.
  destruct (Obj.array_index j) as [m|]; [destruct (m <? n)%N|];
    rewrite ?assoc_cons; try reflexivity.
  rewrite (IH H). destruct (String.eqb_spec j k') as [->|]; [|reflexivity].
  now rewrite (proj2 (String.eqb_neq k k')) by congruence.
Qed.

(** Reading a property back: the one just set, or what was there. *)
Lemma assoc_set (k k' : string) (v : A) (o : list (string * A)) :
  assoc k' (Obj.set k v o) = if (k =? k')%string then Some v else assoc k' o.
Proof.
  unfold Obj.set. destruct (Obj.has k o) eqn:Hh; [now apply assoc_replace|].
  destruct (Obj.array_index k); [now apply assoc_insert|].
  rewrite assoc_app, assoc_cons. cbn [assoc].
  destruct (String.eqb_spec k k') as [->|]; [|now destruct (assoc k' o)].
  unfold Obj.has in Hh. now destruct (assoc k' o).
Qed.

Lemma set_keys (k k' : string) (v : A) (o : list (string * A)) :
  In k' (map fst (Obj.set k v o)) <-> k' = k \/ In k' (map fst o).
Proof.
  unfold Obj.set. destruct (Obj.has k o) eqn:Hh.
  - rewrite (replace_keys k v o Hh). split; [tauto|]. intros [->|H]; [|exact H].
    unfold Obj.has in Hh. destruct (assoc k o) eqn:Ha; [|discriminate].
    apply assoc_In in Ha. now apply (in_map fst) in Ha.
  - destruct (Obj.array_index k); [apply insert_keys|].
    rewrite map_app, in_app_iff. cbn. intuition.
Qed.

(** The keys of an object stay distinct. *)
Lemma set_NoDup (k : string) (v : A) (o : list (string * A)) :
  List.NoDup (map fst o) -> List.NoDup (map fst (Obj.set k v o)).
Proof.
  intros Hnd. unfold Obj.set. destruct (Obj.has k o) eqn:Hh.
  - now rewrite replace_keys.
  - assert (~ In k (map fst o)) as Hk.
    { apply assoc_None. unfold Obj.has in Hh. now destruct (assoc k o). }
    destruct (Obj.array_index k); [now apply insert_NoDup|].
    rewrite map_app. cbn [map fst].
    apply List.NoDup_app; [exact Hnd | repeat constructor; tauto |].
    intros x Hx [<-|[]]. contradiction.
Qed.

End ObjectFacts.

Section ArgvFacts.

Lemma step_args (acc : Argv.parsed) (str : string) :
  Argv.args (Argv.step acc str)
  = (Argv.args acc ++ if negb (startsWith str "-") then [str] else [])%list.
Proof.
  unfold Argv.step. destruct (negb (startsWith str "-")); [reflexivity|].
  destruct (startsWith str "---"); [now rewrite app_nil_r|].
  destruct (Argv.split_at_equals _) as [[key val]|]; now rewrite app_nil_r.
Qed.

Lemma step_opts (acc : Argv.parsed) (str : string) :
  Argv.opts (Argv.step acc str)
  = match Props.option_of str with
    | Some (key, v) => Argv.assign key v (Argv.opts acc)
    | None => Argv.opts acc
    end.
Proof.
  unfold Argv.step, Props.option_of.
  destruct (negb (startsWith str "-")); [reflexivity|].
  destruct (startsWith str "---"); [reflexivity|].
  now destruct (Argv.split_at_equals _) as [[key val]|].
Qed.

Lemma option_of_value (str key : string) (v : value) :
  Props.option_of str = Some (key, v) -> Props.flag_or_text v = true.
Proof.
  unfold Props.option_of. destruct (negb (startsWith str "-")); [discriminate|].
  destruct (startsWith str "---"); [now intros [= _ <-]|].
  destruct (Argv.split_at_equals _) as [[k val]|]; now intros [= _ <-].
Qed.

Lemma fold_args (argv : list string) (acc : Argv.parsed) :
  Argv.args (fold_left Argv.step argv acc)
  = (Argv.args acc ++ List.filter (fun s => negb (startsWith s "-")) argv)%list.
Proof.
  revert acc. induction argv as [|str rest IH]; intros acc.
  - cbn. now rewrite app_nil_r.
  - cbn [fold_left List.filter]. rewrite IH, step_args.
    destruct (negb (startsWith str "-")); rewrite <- app_assoc; reflexivity.
Qed.

Lemma assign_lookup (key k : string) (v : value) (o : list (string * value)) :
  assoc k (Argv.assign key v o)
  = if (key =? "__proto__")%string then assoc k o
    else if (key =? k)%string then Some v else assoc k o.
Proof.
  unfold Argv.assign. destruct (key =? "__proto__")%string; [reflexivity|].
  apply assoc_set.
Qed.

Lemma fold_lookup (argv : list string) (acc : Argv.parsed) (k : string) :
  k <> "__proto__" ->
  assoc k (Argv.opts (fold_left Argv.step argv acc))
  = match assoc k (List.rev (Props.named_options argv)) with
    | Some v => Some v
    | None => assoc k (Argv.opts acc)
    end.
Proof.
  intros Hk. revert acc. induction argv as [|str rest IH]; intros acc; [reflexivity|].
  cbn [fold_left Props.named_options]. rewrite IH, step_opts.
  destruct (Props.option_of str) as [[key v]|]; [|reflexivity].
  cbn [List.rev]. rewrite assoc_app, assign_lookup.
  destruct (assoc k (List.rev (Props.named_options rest))); [reflexivity|].
  rewrite assoc_cons. cbn [assoc].
  destruct (String.eqb_spec key "__proto__") as [->|_].
  - now rewrite (proj2 (String.eqb_neq "__proto__" k)) by congruence.
  - now destruct (key =? k)%string.
Qed.

Lemma fold_proto (argv : list string) (acc : Argv.parsed) :
  assoc "__proto__" (Argv.opts (fold_left Argv.step argv acc))
  = assoc "__proto__" (Argv.opts acc).
Proof.
  revert acc. induction argv as [|str rest IH]; intros acc; [reflexivity|].
  cbn [fold_left]. rewrite IH, step_opts.
  destruct (Props.option_of str) as [[key v]|]; [|reflexivity].
  rewrite assign_lookup. now destruct (String.eqb_spec key "__proto__").
Qed.

Lemma assign_invariant (key : string) (v : value) (o : list (string * value)) :
  Props.flag_or_text v = true ->
  List.NoDup (map fst o) ->
  Forall (fun kv => Props.flag_or_text (snd kv) = true) o ->
  List.NoDup (map fst (Argv.assign key v o))
  /\ Forall (fun kv => Props.flag_or_text (snd kv) = true) (Argv.assign key v o).
Proof.
  intros Hv Hnd Hall. unfold Argv.assign.
  destruct (key =? "__proto__")%string; [now split|].
  split; [now apply set_NoDup|].
  apply List.Forall_forall. intros [k w] Hin. cbn [snd].
  pose proof (In_assoc k w _ (set_NoDup key v o Hnd) Hin) as Ha.
  rewrite assoc_set in Ha. destruct (key =? k)%string; [now injection Ha as <-|].
  apply assoc_In in Ha. rewrite List.Forall_forall in Hall. exact (Hall _ Ha).
Qed.

Lemma fold_invariant (argv : list string) (acc : Argv.parsed) :
  List.NoDup (map fst (Argv.opts acc)) ->
  Forall (fun kv => Props.flag_or_text (snd kv) = true) (Argv.opts acc) ->
  List.NoDup (map fst (Argv.opts (fold_left Argv.step argv acc)))
  /\ Forall (fun kv => Props.flag_or_text (snd kv) = true)
       (Argv.opts (fold_left Argv.step argv acc)).
Proof.
  revert acc. induction argv as [|str rest IH]; intros acc Hnd Hall; [now split|].
  cbn [fold_left]. apply IH; rewrite step_opts;
    destruct (Props.option_of str) as [[key v]|] eqn:Ho; try assumption;
    now apply assign_invariant; [apply (option_of_value str key)|..].
Qed.

Lemma parse_lookup (argv : list string) (k : string) :
  assoc k (Argv.opts (xdArgvParse argv))
  = if (k =? "__proto__")%string then None
    else assoc k (List.rev (Props.named_options argv)).
Proof.
  unfold xdArgvParse. destruct (String.eqb_spec k "__proto__") as [->|Hk].
  - now rewrite fold_proto.
  - rewrite (fold_lookup argv _ k Hk). cbn [Argv.opts assoc].
    now destruct (assoc k _).
Qed.

Lemma parse_invariant (argv : list string) :
  List.NoDup (map fst (Argv.opts (xdArgvParse argv)))
  /\ Forall (fun kv => Props.flag_or_text (snd kv) = true)
       (Argv.opts (xdArgvParse argv)).
Proof. apply fold_invariant; constructor. Qed.

End ArgvFacts.

(** X16.  The arguments [xdArgvParse] returns are the words that do not
    start with a dash, in their order; no other word is an argument. *)
Theorem cli_arguments (argv : list string) :
  Argv.args (xdArgvParse argv)
  = List.filter (fun s => negb (startsWith s "-")) argv.
Proof. unfold xdArgvParse. now rewrite fold_args. Qed.

(** X17.  Reading an option after [xdArgvParse]: the value is the one set by
    the last word that names the option, whatever came before; an option
    that no word names is absent; and [__proto__] is never an option, even
    when a word names it. *)
Theorem cli_last_wins (argv : list string) (k : string) :
  assoc k (Argv.opts (xdArgvParse argv))
  = if (k =? "__proto__")%string then None
    else assoc k (List.rev (Props.named_options argv)).
Proof. apply parse_lookup. Qed.

(** X18.  The options [xdArgvParse] returns have distinct names, and every
    value is a boolean or a string: the command line cannot produce a
    number or an object. *)
Theorem cli_values (argv : list string) :
  List.NoDup (map fst (Argv.opts (xdArgvParse argv)))
  /\ Forall (fun kv => Props.flag_or_text (snd kv) = true)
       (Argv.opts (xdArgvParse argv)).
Proof. apply parse_invariant. Qed.

(** X19.  When a word of the command line names the option [port] (as in
    [-port=8080]), the constructor of [Config] throws on the parsed options:
    the value is a string or a boolean, and the field needs a number. *)
Theorem cli_port_rejected (rt : Runtime) (argv : list string) (v : value) :
  assoc "port" (List.rev (Props.named_options argv)) = Some v ->
  exists e, Config.constructor rt (Argv.opts (xdArgvParse argv)) = inl e.
Proof.
  intros Hv.
  assert (assoc "port" (Argv.opts (xdArgvParse argv)) = Some v) as Ha
    by now rewrite parse_lookup.
  apply assoc_In in Ha.
  destruct (parse_invariant argv) as [_ Hall].
  rewrite List.Forall_forall in Hall. specialize (Hall _ Ha). cbn [snd] in Hall.
  unfold Config.constructor.
  destruct (merge_rejects (Argv.opts (xdArgvParse argv)) Config.defaults "port" v Ha)
    as [e ->]; [|eauto].
  destruct v; try discriminate; cbn; discriminate.
Qed.

Lemma cli_port_rejected_witness :
  exists e,
    Config.constructor Sample.runtime
      (Argv.opts (xdArgvParse ["www"; "-port=8080"; "--autoindex"])) = inl e.
Proof.
  apply (cli_port_rejected Sample.runtime _ (VString "8080")). reflexivity.
Defined.


(** * [xdDatetimeFormat] *)

Section ScanFacts.

Import Datetime.

Lemma scan_no_close (s : string) :
  Props.has_char "}" s = false -> forall cur, scan cur s = [].
Proof.
  induction s as [|c t IH]; intros H cur; [reflexivity|].
  cbn [Props.has_char] in H. apply orb_false_iff in H as [Hc Ht].
  cbn [scan]. destruct (terminator_at c t); [now apply IH|].
  destruct cur as [acc|].
  - rewrite Hc. now apply IH.
  - destruct (Ascii.eqb c "{"); now apply IH.
Qed.

Lemma terminator_open (t : string) : terminator_at "{" t = false.
Proof. reflexivity. Qed.

Lemma scan_text (s rest : string) :
  Props.has_char "{" s = false -> scan None (s +:+ rest) = scan None rest.
Proof.
  induction s as [|c t IH]; intros H; [reflexivity|].
  cbn [Props.has_char] in H. apply orb_false_iff in H as [Hc Ht].
  cbn [String.append scan]. rewrite Hc.
  destruct (terminator_at c (t +:+ rest)); now apply IH.
Qed.

Lemma scan_no_open (s : string) :
  Props.has_char "{" s = false -> scan None s = [].
Proof.
  intros H. rewrite <- (append_empty_r s). now rewrite scan_text.
Qed.

Lemma key_cases {A} (k : string) (l : list (string * A)) (f : A) :
  assoc k l = Some f -> In k (map fst l).
Proof.
  induction l as [|[k' v] l IH]; [discriminate|].
  cbn [assoc map fst In]. destruct (String.eqb_spec k' k); [now left|].
  intros H. right. now apply IH.
Qed.

Lemma scan_token (name rest : string) (f : Date -> string) :
  assoc name funTokens = Some f ->
  scan None (name +:+ rest) = name :: scan None rest.
Proof.
  intros H. apply key_cases in H. cbn [funTokens map fst In] in H.
  repeat (destruct H as [<-|H]; [reflexivity|]). contradiction.
Qed.

Lemma token_open (name : string) (f : Date -> string) :
  assoc name funTokens = Some f -> exists body, name = String "{" body.
Proof.
  intros H. apply key_cases in H. cbn [funTokens map fst In] in H.
  repeat (destruct H as [<-|H]; [eexists; reflexivity|]). contradiction.
Qed.

End ScanFacts.

Section PlainFacts.

Import Datetime.

Lemma has_char_append (c : ascii) (a b : string) :
  Props.has_char c (a +:+ b) = Props.has_char c a || Props.has_char c b.
Proof.
  induction a as [|x a IH]; [reflexivity|].
  cbn [String.append Props.has_char]. now rewrite IH, orb_assoc.
Qed.

Lemma plain_append (a b : string) :
  Props.plain a = true -> Props.plain b = true -> Props.plain (a +:+ b) = true.
Proof.
  unfold Props.plain. rewrite !has_char_append.
  destruct (Props.has_char "{" a), (Props.has_char "$" a); try discriminate.
  now intros _ H.
Qed.

Lemma plain_cons (c : ascii) (s : string) :
  Props.plain (String c EmptyString) = true -> Props.plain s = true ->
  Props.plain (String c s) = true.
Proof. intros Hc Hs. exact (plain_append (String c EmptyString) s Hc Hs). Qed.

Lemma plain_tail (c : ascii) (s : string) :
  Props.plain (String c s) = true -> Props.plain s = true.
Proof.
  unfold Props.plain. cbn [Props.has_char].
  rewrite !andb_true_iff, !negb_true_iff, !orb_false_iff. tauto.
Qed.

Lemma plain_slice (n : nat) (s : string) :
  Props.plain s = true -> Props.plain (slice n s) = true.
Proof.
  revert s. induction n as [|n IH]; intros [|c t] H; try exact H.
  cbn [slice]. apply IH. now apply plain_tail in H.
Qed.

Lemma plain_zeros (n : nat) : Props.plain (zeros n) = true.
Proof.
  induction n as [|n IH]; [reflexivity|].
  cbn [zeros]. now apply plain_cons.
Qed.

Lemma plain_padStart (n : nat) (s : string) :
  Props.plain s = true -> Props.plain (padStart n s) = true.
Proof. intros H. apply plain_append; [apply plain_zeros | exact H]. Qed.

Lemma plain_digit (x : N) : Props.plain (String (pretty_N_char x) EmptyString) = true.
Proof.
  destruct x as [|p]; [reflexivity|].
  do 4 (destruct p as [p|p|]; try reflexivity).
Qed.

Lemma plain_pretty_go (x : N) (s : string) :
  Props.plain s = true -> Props.plain (pretty_N_go x s) = true.
Proof.
  revert s. induction (N.lt_wf_0 x) as [x _ IH]. intros s Hs.
  destruct (N.eq_dec x 0%N) as [->|Hx]; [now rewrite pretty_N_go_0|].
  rewrite pretty_N_go_step by lia.
  apply IH; [apply N.div_lt; lia|].
  apply plain_cons; [apply plain_digit | exact Hs].
Qed.

Lemma plain_toString (n : N) : Props.plain (toString n) = true.
Proof.
  unfold toString, pretty, pretty_N.
  destruct (decide (n = 0%N)); [reflexivity|].
  now apply plain_pretty_go.
Qed.

Lemma plain_toStringZ (z : Z) : Props.plain (toStringZ z) = true.
Proof.
  unfold toStringZ, pretty, pretty_Z. destruct z as [|p|p].
  - reflexivity.
  - exact (plain_toString (Npos p)).
  - apply plain_append; [reflexivity | exact (plain_toString (Npos p))].
Qed.

Lemma plain_at (table : list string) (i : N) :
  List.Forall (fun s => Props.plain s = true) table ->
  Props.plain (at_ table i EmptyString) = true.
Proof.
  intros H. unfold at_.
  destruct (Nat.lt_ge_cases (N.to_nat i) (List.length table)) as [Hlt|Hge].
  - rewrite List.Forall_forall in H. apply H. now apply nth_In.
  - now rewrite nth_overflow.
Qed.

Lemma assoc_Forall {A} (P : A -> Prop) (l : list (string * A)) (k : string) (v : A) :
  List.Forall (fun kv => P (snd kv)) l -> assoc k l = Some v -> P v.
Proof.
  induction 1 as [|[k' v'] l Hv _ IH]; [discriminate|].
  cbn [assoc]. destruct (k' =? k)%string; [|exact IH].
  now intros [= <-].
Qed.

Lemma values_plain (d : Date) :
  List.Forall (fun kv => Props.plain (snd kv d) = true) funTokens.
Proof.
  unfold funTokens.
  repeat (apply List.Forall_cons; [cbn [snd]|]); try apply List.Forall_nil;
    repeat first
      [ apply plain_padStart | apply plain_slice | apply plain_toString
      | apply plain_toStringZ
      | apply plain_at; repeat (apply List.Forall_cons; [reflexivity|]);
        apply List.Forall_nil ].
  - now destruct (getHours d <? 12)%N.
  - now destruct (getTimezoneOffset d >? 0)%Z.
Qed.

Lemma value_plain (d : Date) (name : string) (f : Date -> string) :
  assoc name funTokens = Some f -> Props.plain (f d) = true.
Proof.
  intros H.
  exact (assoc_Forall (fun f => Props.plain (f d) = true) _ _ _ (values_plain d) H).
Qed.

End PlainFacts.

Section ReplaceFacts.

Import Datetime.

Lemma expand_plain (rep matched before after : string) :
  Props.has_char "$" rep = false -> expand rep matched before after = rep.
Proof.
  induction rep as [|c t IH]; intros H; [reflexivity|].
  cbn [Props.has_char] in H. apply orb_false_iff in H as [Hc Ht].
  cbn [expand]. rewrite Hc. f_equal. now apply IH.
Qed.

Lemma replace_from_eq (pat rep before s : string) :
  replace_from pat rep before s =
  if prefix pat s then
    before +:+ expand rep pat before (slice (String.length pat) s)
    +:+ slice (String.length pat) s
  else match s with
       | EmptyString => before
       | String c t => replace_from pat rep (before +:+ String c EmptyString) t
       end.
Proof. now destruct s. Qed.

(** The first occurrence of a token that starts with a brace lies behind
    any text without a brace. *)
Lemma replace_skip (body rep done rest : string) :
  Props.has_char "{" done = false ->
  forall before,
    replace_from (String "{" body) rep before (done +:+ String "{" body +:+ rest) =
    before +:+ done
    +:+ expand rep (String "{" body) (before +:+ done) rest +:+ rest.
Proof.
  induction done as [|c t IH]; intros H before.
  - change (EmptyString +:+ String "{" body +:+ rest)
      with (String "{" body +:+ rest).
    rewrite replace_from_eq, prefix_append, slice_append.
    now rewrite !append_empty_r.
  - cbn [Props.has_char] in H. apply orb_false_iff in H as [Hc Ht].
    rewrite replace_from_eq.
    change (String c t +:+ String "{" body +:+ rest)
      with (String c (t +:+ String "{" body +:+ rest)).
    cbn [prefix]. rewrite Ascii.eqb_sym, Hc. cbn [andb].
    rewrite (IH Ht).
    change (String c t) with (String c EmptyString +:+ t).
    now rewrite <- !append_assoc.
Qed.

Lemma replace_token (name : string) (f : Date -> string) (d : Date)
    (done rest : string) :
  assoc name funTokens = Some f ->
  Props.has_char "{" done = false ->
  replace name (f d) (done +:+ name +:+ rest) = done +:+ f d +:+ rest.
Proof.
  intros Hf Hd. destruct (token_open name f Hf) as [body ->].
  pose proof (value_plain d _ _ Hf) as Hv.
  unfold Props.plain in Hv.
  apply andb_true_iff in Hv as [_ Hv]. apply negb_true_iff in Hv.
  unfold replace. rewrite (replace_skip body (f d) done rest Hd).
  now rewrite expand_plain by exact Hv.
Qed.

End ReplaceFacts.

Section FormatFacts.

Import Datetime.

Variable toLowerCase : string -> string.
Variable toUpperCase : string -> string.

Lemma scan_pieces (ps : list Props.piece) :
  forallb Props.well_formed ps = true ->
  scan None (Props.format ps) = Props.tokens ps.
Proof.
  induction ps as [|p ps IH]; [reflexivity|].
  cbn [forallb]. intros H. apply andb_true_iff in H as [Hp Hps].
  unfold Props.format, Props.tokens in *.
  cbn [map Props.concat fold_right List.filter].
  destruct p as [s|name]; cbn [Props.well_formed Props.written Props.is_token] in *.
  - apply negb_true_iff in Hp. rewrite scan_text by exact Hp. now apply IH.
  - destruct (assoc name funTokens) as [f|] eqn:Hf; [|discriminate].
    rewrite (scan_token name _ f Hf). cbn [map Props.written]. f_equal.
    now apply IH.
Qed.

Lemma substitute_pieces (d : Date) (ps : list Props.piece) :
  forallb Props.well_formed ps = true ->
  forall done, Props.has_char "{" done = false ->
    substitute_all toLowerCase toUpperCase d (done +:+ Props.format ps)
      (Props.tokens ps)
    = inr (done +:+ Props.rendering d ps).
Proof.
  induction ps as [|p ps IH]; [reflexivity|].
  cbn [forallb]. intros H done Hd. apply andb_true_iff in H as [Hp Hps].
  specialize (IH Hps).
  unfold Props.format, Props.tokens, Props.rendering in *.
  cbn [map Props.concat fold_right List.filter].
  destruct p as [s|name];
    cbn [Props.well_formed Props.written Props.is_token Props.shown] in *.
  - apply negb_true_iff in Hp.
    rewrite <- !append_assoc. apply IH.
    rewrite has_char_append, Hd, Hp. reflexivity.
  - destruct (assoc name funTokens) as [f|] eqn:Hf; [|discriminate].
    cbn [map Props.written substitute_all]. unfold substitute. rewrite Hf.
    rewrite (replace_token name f d done _ Hf Hd).
    rewrite <- !append_assoc. apply IH.
    rewrite has_char_append, Hd. cbn [orb].
    pose proof (value_plain d _ _ Hf) as Hv. unfold Props.plain in Hv.
    apply andb_true_iff in Hv as [Hv _]. now apply negb_true_iff in Hv.
Qed.

Lemma tokens_nonempty (ps : list Props.piece) :
  existsb Props.is_token ps = true -> Props.tokens ps <> [].
Proof.
  induction ps as [|p ps IH]; [discriminate|].
  unfold Props.tokens in *. cbn [existsb List.filter].
  destruct (Props.is_token p); [discriminate|exact IH].
Qed.

Lemma substitute_unknown (d : Date) (token : string) (tokens : list string) :
  In token tokens ->
  Props.unknown toLowerCase token = true ->
  forall output, exists e,
    substitute_all toLowerCase toUpperCase d output tokens = inl e.
Proof.
  intros Hin Hu. induction tokens as [|t ts IH]; [contradiction|].
  intros output. cbn [substitute_all].
  destruct (substitute toLowerCase toUpperCase d output t) as [e|output'] eqn:Hs;
    [now exists e|].
  destruct Hin as [->|Hin]; [|now apply IH].
  unfold substitute in Hs. unfold Props.unknown in Hu.
  destruct (assoc token funTokens); [discriminate|].
  destruct (assoc (toLowerCase token) funTokens); discriminate.
Qed.

Lemma format_rendering (d : Date) (ps : list Props.piece) :
  forallb Props.well_formed ps = true ->
  existsb Props.is_token ps = true ->
  xdDatetimeFormat toLowerCase toUpperCase d (Props.format ps) =
  inr (Props.rendering d ps).
Proof.
  intros Hwf Htok. unfold xdDatetimeFormat.
  rewrite (scan_pieces ps Hwf).
  pose proof (tokens_nonempty ps Htok) as Hne.
  pose proof (substitute_pieces d ps Hwf EmptyString eq_refl) as Hs.
  change (EmptyString +:+ Props.format ps) with (Props.format ps) in Hs.
  change (EmptyString +:+ Props.rendering d ps) with (Props.rendering d ps) in Hs.
  destruct (Props.tokens ps); [contradiction|exact Hs].
Qed.

End FormatFacts.

(** X20.  A format string without an opening brace, or without a closing
    one, holds no token: [xdDatetimeFormat] throws an [Error] that quotes
    the format string, for every date. *)
Theorem no_tokens (toLowerCase toUpperCase : string -> string)
    (d : Datetime.Date) (format : string) :
  Props.has_char "{" format = false \/ Props.has_char "}" format = false ->
  Datetime.xdDatetimeFormat toLowerCase toUpperCase d format =
  inl (ErrorException ("no tokens in the format string: " +:+ format)).
Proof.
  intros H. unfold Datetime.xdDatetimeFormat.
  assert (Datetime.scan None format = []) as ->; [|reflexivity].
  destruct H as [H|H]; [now apply scan_no_open | now apply scan_no_close].
Qed.

(** X21.  A format string made of tokens spelled as in the table, at least
    one, and of text without an opening brace is formatted without an
    error: the result is the format string with every token replaced by its
    value for the date, each at its own place, and the text left as it is. *)
Theorem format_pieces (toLowerCase toUpperCase : string -> string)
    (d : Datetime.Date) (ps : list Props.piece) :
  forallb Props.well_formed ps = true ->
  existsb Props.is_token ps = true ->
  Datetime.xdDatetimeFormat toLowerCase toUpperCase d (Props.format ps) =
  inr (Props.rendering d ps).
Proof. apply format_rendering. Qed.

(** X22.  When one of the tokens matched in the format string is in the
    table neither as it is written nor in lower case, [xdDatetimeFormat]
    throws: no partly formatted string is returned, wherever the token
    stands. *)
Theorem unknown_token (toLowerCase toUpperCase : string -> string)
    (d : Datetime.Date) (format token : string) :
  In token (Datetime.scan None format) ->
  Props.unknown toLowerCase token = true ->
  exists e,
    Datetime.xdDatetimeFormat toLowerCase toUpperCase d format = inl e.
Proof.
  intros Hin Hu. unfold Datetime.xdDatetimeFormat.
  destruct (Datetime.scan None format) as [|t ts] eqn:Hscan; [contradiction|].
  exact (substitute_unknown toLowerCase toUpperCase d token (t :: ts) Hin Hu format).
Qed.

Lemma no_tokens_witness :
  Datetime.xdDatetimeFormat Sample.lower Props.upper Props.october_15 "hh:mm" =
  inl (ErrorException "no tokens in the format string: hh:mm").
Proof.
  apply (no_tokens Sample.lower Props.upper Props.october_15 "hh:mm").
  left. reflexivity.
Defined.

Lemma format_pieces_witness :
  Datetime.xdDatetimeFormat Sample.lower Props.upper Props.october_15
    "{yyyy}-{MM}-{dd} {hh24}:{mm}:{ss} ({tzs}{tzhh}:{tzmm})" =
  inr "2020-10-15 13:37:00 (+01:00)".
Proof.
  apply (format_pieces Sample.lower Props.upper Props.october_15
           Props.date_pieces); reflexivity.
Defined.

Lemma unknown_token_witness :
  exists e,
    Datetime.xdDatetimeFormat Sample.lower Props.upper Props.october_15
      "{dd}.{week}" = inl e.
Proof.
  apply (unknown_token Sample.lower Props.upper Props.october_15
           "{dd}.{week}" "{week}").
  - right. left. reflexivity.
  - reflexivity.
Defined.

Section WidthFacts.

Import Datetime.

Lemma length_append (a b : string) :
  String.length (a +:+ b) = String.length a + String.length b.
Proof.
  induction a as [|c a IH]; [reflexivity|].
  cbn [String.append String.length]. now rewrite IH.
Qed.

Lemma length_digit (x : N) (s : string) :
  (0 < x < 10)%N -> String.length (pretty_N_go x s) = S (String.length s).
Proof.
  intros Hx. rewrite pretty_N_go_step by lia.
  rewrite N.div_small by lia. now rewrite pretty_N_go_0.
Qed.

Lemma length_digits (x b : N) (n : nat) :
  (forall y s, (b <= y < 10 * b)%N ->
     String.length (pretty_N_go y s) = n + String.length s) ->
  (0 < b)%N ->
  forall s, (10 * b <= x < 100 * b)%N ->
    String.length (pretty_N_go x s) = S n + String.length s.
Proof.
  intros Hb Hpos s Hx. rewrite pretty_N_go_step by lia.
  rewrite Hb.
  - cbn [String.length]. lia.
  - split.
    + apply N.div_le_lower_bound; lia.
    + apply N.Div0.div_lt_upper_bound. lia.
Qed.

Lemma length_two (x : N) (s : string) :
  (10 <= x < 100)%N -> String.length (pretty_N_go x s) = 2 + String.length s.
Proof.
  intros Hx. apply (length_digits x 1 1); [|lia|lia].
  intros y t Hy. now rewrite length_digit by lia.
Qed.

Lemma length_four (x : N) (s : string) :
  (1000 <= x < 10000)%N -> String.length (pretty_N_go x s) = 4 + String.length s.
Proof.
  intros Hx. apply (length_digits x 100 3); [|lia|lia].
  intros y t Hy. apply (length_digits y 10 2); [|lia|lia].
  intros z u Hz. now apply length_two.
Qed.

Lemma length_padded (n : N) :
  (n < 100)%N -> String.length (padStart 2 (toString n)) = 2.
Proof.
  intros Hn. unfold padStart, toString, pretty, pretty_N.
  destruct (decide (n = 0%N)) as [->|Hz]; [reflexivity|].
  rewrite length_append.
  destruct (N.lt_ge_cases n 10) as [Hlt|Hge].
  - rewrite length_digit by lia. reflexivity.
  - rewrite length_two by lia. reflexivity.
Qed.

Lemma length_year (y : Z) :
  (1000 <= y <= 9999)%Z -> String.length (toStringZ y) = 4.
Proof.
  intros Hy. unfold toStringZ, pretty, pretty_Z.
  destruct y as [|p|p]; try lia.
  change (String.length (pretty (Npos p)) = 4).
  unfold pretty, pretty_N.
  destruct (decide (Npos p = 0%N)) as [|_]; [discriminate|].
  rewrite length_four by lia. reflexivity.
Qed.

Lemma length_sign (d : Date) :
  String.length (if (getTimezoneOffset d >? 0)%Z then "-" else "+") = 1.
Proof. now destruct (getTimezoneOffset d >? 0)%Z. Qed.

End WidthFacts.

(** X23.  For a date of four-digit year, [formatDate] does not fail and its
    result is 28 characters wide, whatever the date: the time stamps of a
    listing line up. *)
Theorem timestamp_width (toLowerCase toUpperCase : string -> string)
    (d : Datetime.Date) :
  Props.four_digit_year d ->
  exists s,
    Datetime.formatDate toLowerCase toUpperCase d = inr s
    /\ String.length s = 28.
Proof.
  intros (Hy & Hd & Hm & Hs & Hz).
  exists (Props.rendering d Props.date_pieces). split.
  - exact (format_rendering toLowerCase toUpperCase d Props.date_pieces
             eq_refl eq_refl).
  - change (Props.rendering d Props.date_pieces) with
      (Datetime.toStringZ (Datetime.getFullYear d) +:+ "-"
       +:+ Datetime.padStart 2 (toString (Datetime.getMonth d + 1)) +:+ "-"
       +:+ Datetime.padStart 2 (toString (Datetime.getDate d)) +:+ " "
       +:+ Datetime.padStart 2 (toString (Datetime.getHours d)) +:+ ":"
       +:+ Datetime.padStart 2 (toString (Datetime.getMinutes d)) +:+ ":"
       +:+ Datetime.padStart 2 (toString (Datetime.getSeconds d)) +:+ " ("
       +:+ (if (Datetime.getTimezoneOffset d >? 0)%Z then "-" else "+")
       +:+ Datetime.padStart 2 (toString (Datetime.tz_hours d)) +:+ ":"
       +:+ Datetime.padStart 2 (toString (Datetime.tz_minutes d)) +:+ ")").
    pose proof (Datetime.month_range d) as Hmo. apply N.ltb_lt in Hmo.
    pose proof (Datetime.hours_range d) as Hh. apply N.ltb_lt in Hh.
    assert (Datetime.tz_hours d < 100)%N as Hth.
    { unfold Datetime.tz_hours. apply N.Div0.div_lt_upper_bound. lia. }
    assert (Datetime.tz_minutes d < 100)%N as Htm.
    { unfold Datetime.tz_minutes.
      pose proof (N.mod_lt (Z.to_N (Z.abs (Datetime.getTimezoneOffset d))) 60).
      set (r := (_ mod 60)%N) in *. clearbody r. lia. }
    rewrite !length_append, length_year, length_sign, !length_padded
      by (assumption || lia).
    reflexivity.
Qed.

Lemma timestamp_width_witness :
  exists s,
    Datetime.formatDate Sample.lower Props.upper Props.october_15 = inr s
    /\ String.length s = 28.
Proof.
  apply (timestamp_width Sample.lower Props.upper Props.october_15).
  unfold Props.four_digit_year. cbn. repeat split; lia.
Defined.
Example decode_space : Js.decodeURIComponent "/a%20b" = Some "/a b".
Proof. reflexivity. Qed.
Example decode_dots : Js.decodeURIComponent "/%2e%2e/etc" = Some "/../etc".
Proof. reflexivity. Qed.
Example decode_bad : Js.decodeURIComponent "/100%" = None.
Proof. reflexivity. Qed.
Example decode_utf8 : Js.decodeURIComponent "%C3%A9" = Some (String (ascii_of_nat 195) (String (ascii_of_nat 169) EmptyString)).
Proof. reflexivity. Qed.
Example decode_overlong : Js.decodeURIComponent "%C0%AF" = None.
Proof. reflexivity. Qed.
Example collapse_ex : Js.collapse_slashes "//a///b/c//" = "/a/b/c/".
Proof. reflexivity. Qed.
Example pad_ex : Js.padStart3 (Js.toString 7) = "007".
Proof. reflexivity. Qed.
Example sample_config : Config.constructor Sample.runtime [] = inr Sample.config.
Proof. vm_compute. reflexivity. Qed.
(** The example of the documentation comment of [xdArgvParse]. *)
Example xdArgvParse_doc :
  xdArgvParse ["arg1"; "-opt1"; "--opt2"; "-opt3=foo"; "--opt4=bar baz"; "---opt5"; "arg2"]
  = {| Argv.args := ["arg1"; "arg2"];
       Argv.opts := [("opt1", VBool true); ("opt2", VBool true); ("opt3", VString "foo");
                     ("opt4", VString "bar baz"); ("opt5", VBool false)] |}.
Proof. vm_compute. reflexivity. Qed.

(** Overrides given as an array: the elements under their indices, the
    length, and the methods every array inherits. *)
Example array_mimes :
  exists c,
    Config.constructor Sample.runtime [("mimes", VArray [VString "text/x"])] = inr c
    /\ RXFS.content_type c "0" = Str "text/x"
    /\ RXFS.content_type c "length" = Num 1
    /\ RXFS.content_type c "map" = Builtin "map"
    /\ RXFS.content_type c "txt" = Str "text/plain"
    /\ RXFS.content_type c "none" = Str "application/octet-stream".
Proof. eexists. split; [vm_compute; reflexivity|]. vm_compute. tauto. Qed.

(** A configured header named [__proto__] is not copied into the headers
    of a response. *)
Example proto_header :
  exists c,
    Config.constructor Sample.runtime
      [("headers", VObject [("__proto__", VString "x"); ("server", VString "rxfs")])]
    = inr c
    /\ Config.headers c !! "__proto__" = Some "x"
    /\ R.copied (Config.headers c) !! "__proto__" = None
    /\ R.copied (Config.headers c) !! "server" = Some (Str "rxfs").
Proof. eexists. split; [vm_compute; reflexivity|]. vm_compute. tauto. Qed.

(** Start-up with a log file: the directory of the log file is made, the
    stream is created and the server listens; when the directory cannot be
    made, the constructor throws before the server listens. *)
Example startup_with_log :
  let m := RXFS.constructor Sample.runtime Sample.disk
             [("logfile", VString "log/rxfs.log")] in
  (exists this, outcome m = inr this)
  /\ List.filter (fun ev => Spec.is_fs_access ev) (trace m)
     = [ExistsSync "/srv"; StatSync "/srv"; MkdirSync "/srv/log";
        CreateLog "/srv/log/rxfs.log"]
  /\ In (Listen 1234) (trace m).
Proof.
  cbv zeta. split; [eexists; vm_compute; reflexivity|].
  split; [vm_compute; reflexivity|].
  vm_compute. repeat first [left; reflexivity | right].
Qed.

Example startup_without_log_directory :
  let m := RXFS.constructor Sample.runtime Sample.disk
             [("logfile", VString "index.html/rxfs.log")] in
  outcome m
  = inl (ErrorException
           "failed to create log file: /srv/index.html/rxfs.log: EEXIST: file already exists, mkdir '/srv/index.html'")
  /\ forall p, ~ In (Listen p) (trace m).
Proof.
  cbv zeta. split; [vm_compute; reflexivity|].
  intros p H. vm_compute in H. intuition discriminate.
Qed.
